(** * Key extraction core of AAlog (chatlog): a shallow embedding

    The Go sources embedded here are the Windows key extractors
    ([V3Extractor], [V4Extractor]) and the V4 search strategies
    ([BasePatternSearch], [SetDBKeyLogSearch], [SQLiteSafetySearch],
    [WeixinDLLSearch]).

    Conventions.
    - A Go [[]byte] is a [list byte] whose capacity equals its length.
    - Go [int] and [uintptr] values are [Z]; every conversion and every
      unsigned wrap-around is written out.
    - A Go function that may panic or loop is a computation in [outcome].
    - A [for { ... }] loop is [loop], bounded by a number of iterations. *)

From Stdlib Require Import ZArith List String Ascii Bool Lia Permutation.
From Stdlib Require Import Strings.Byte.
Import ListNotations.
Local Open Scope Z_scope.

(** ** Go run-time behaviour *)

Inductive outcome (A : Type) : Type :=
| Ret (a : A)   (* the function returned [a] *)
| Panic         (* run-time panic (slice bounds out of range, index out of range) *)
| NoFuel.       (* the loop was still running after the allotted iterations *)
Arguments Ret {A} a.
Arguments Panic {A}.
Arguments NoFuel {A}.

Definition bind {A B} (m : outcome A) (k : A -> outcome B) : outcome B :=
  match m with
  | Ret a => k a
  | Panic => Panic
  | NoFuel => NoFuel
  end.

Notation "x <- m ;; k" := (bind m (fun x => k))
  (at level 61, m at next level, right associativity).

(** One round of a Go loop either goes on with a new state or leaves the
    function with a value. *)
Inductive flow (St R : Type) : Type :=
| Continue (s : St)
| Return (r : R).
Arguments Continue {St R} s.
Arguments Return {St R} r.

(** [for { body }]: a [return] in the body, or a [break] followed by the
    [return] after the loop, is [Return]; reaching the end of the body is
    [Continue]. *)
Fixpoint loop {St R} (fuel : nat) (body : St -> outcome (flow St R)) (s : St)
  : outcome R :=
  match fuel with
  | O => NoFuel
  | S fuel' =>
      match body s with
      | Ret (Continue s') => loop fuel' body s'
      | Ret (Return r) => Ret r
      | Panic => Panic
      | NoFuel => NoFuel
      end
  end.

(** [for i := from; i < from + n; i++ { body i }] where the body may return
    early ([Some r]) or fall through to the next index ([None]). *)
Fixpoint for_range {R} (n : nat) (i : Z) (body : Z -> outcome (option R))
  : outcome (option R) :=
  match n with
  | O => Ret None
  | S n' =>
      match body i with
      | Ret None => for_range n' (i + 1) body
      | other => other
      end
  end.

(** [for i := 0; i < hi; i++ { ... }] *)
Definition for_upto {R} (hi : Z) (body : Z -> outcome (option R))
  : outcome (option R) :=
  for_range (Z.to_nat hi) 0 body.

Definition len {A} (s : list A) : Z := Z.of_nat (List.length s).

(** [s[lo:hi]] panics unless [0 <= lo <= hi <= cap(s)]. *)
Definition slice {A} (s : list A) (lo hi : Z) : outcome (list A) :=
  if (0 <=? lo) && (lo <=? hi) && (hi <=? len s)
  then Ret (firstn (Z.to_nat (hi - lo)) (skipn (Z.to_nat lo) s))
  else Panic.

Definition uint64 (z : Z) : Z := z mod 2 ^ 64.

(** [int(x)] for an [x] of type [uint64], [int] being 64 bits wide. *)
Definition int_of_uint64 (x : Z) : Z :=
  if x <? 2 ^ 63 then x else x - 2 ^ 64.

(** A context is cancelled or not when it is polled; [Some n] is a context
    whose cancellation is seen from the [n]-th later poll on, [None] is
    [context.Background()]. *)
Definition Ctx := option nat.

Definition Background : Ctx := None.

Definition Done (ctx : Ctx) : bool * Ctx :=
  match ctx with
  | None => (false, None)
  | Some O => (true, Some O)
  | Some (S n) => (false, Some n)
  end.

(** ** Package [bytes], [encoding/binary], [encoding/hex] *)

Module bytes.

Fixpoint HasPrefix (s prefix : list byte) : bool :=
  match prefix, s with
  | [], _ => true
  | _ :: _, [] => false
  | p :: prefix', b :: s' => Byte.eqb b p && HasPrefix s' prefix'
  end.

Fixpoint Index_from (i : Z) (s sep : list byte) : Z :=
  if HasPrefix s sep then i
  else match s with
       | [] => -1
       | _ :: s' => Index_from (i + 1) s' sep
       end.

(** Index of the first instance of [sep] in [s], or [-1]. *)
Definition Index (s sep : list byte) : Z := Index_from 0 s sep.

Fixpoint LastIndex_from (i last : Z) (s sep : list byte) : Z :=
  let last' := if HasPrefix s sep then i else last in
  match s with
  | [] => last'
  | _ :: s' => LastIndex_from (i + 1) last' s' sep
  end.

(** Index of the last instance of [sep] in [s], or [-1]. *)
Definition LastIndex (s sep : list byte) : Z := LastIndex_from 0 (-1) s sep.

(** [sep] is in [s] at offset [k]. *)
Definition occursAt (s sep : list byte) (k : nat) : bool :=
  HasPrefix (skipn k s) sep.

End bytes.

Module binary.

Definition byteZ (b : byte) : Z := Z.of_N (Byte.to_N b).

Fixpoint le_value (b : list byte) : Z :=
  match b with
  | [] => 0
  | x :: rest => Z.lor (byteZ x) (Z.shiftl (le_value rest) 8)
  end.

(** [binary.LittleEndian.Uint64(b)] reads [b[0..7]], panics on a shorter [b]. *)
Definition Uint64 (b : list byte) : outcome Z :=
  if len b <? 8 then Panic else Ret (le_value (firstn 8 b)).

Definition Uint32 (b : list byte) : outcome Z :=
  if len b <? 4 then Panic else Ret (le_value (firstn 4 b)).

End binary.

Module hex.

Definition digit (n : N) : ascii :=
  if (n <? 10)%N then ascii_of_N (48 + n) else ascii_of_N (87 + n).

Fixpoint EncodeToString (src : list byte) : string :=
  match src with
  | [] => EmptyString
  | b :: rest =>
      let n := Byte.to_N b in
      String (digit (n / 16)%N) (String (digit (n mod 16)%N) (EncodeToString rest))
  end.

End hex.

(** ** Package [decrypt]: the validator is used through two predicates *)

Record Validator : Type := {
  Validate : list byte -> bool;
  ValidateImgKey : list byte -> bool
}.

(** A [*decrypt.Validator] may be [nil]. *)
Definition ValidatorPtr := option Validator.

(** What every [Search] returns: [(key, found)]. *)
Definition found_key : Type := (string * bool)%type.

Definition not_found : found_key := (EmptyString, false).

(** ** [BasePatternSearch] *)

Module BasePatternSearch.

Definition keyPattern : list byte :=
  [x00; x00; x00; x00; x00; x00; x00; x00;
   x20; x00; x00; x00; x00; x00; x00; x00;
   x2f; x00; x00; x00; x00; x00; x00; x00].

Definition ptrSize : Z := 8.

(** Lines 52-57: the pointer before the hit at [index] and, when it passes
    the range check, the 32 bytes it designates in the chunk. *)
Definition keyCandidate (memory : list byte) (index : Z)
  : outcome (option (list byte)) :=
  p <- slice memory (index - ptrSize) index ;;
  v <- binary.Uint64 p ;;
  let ptrOffset := int_of_uint64 v in
  if (ptrOffset >? 0x10000) && (ptrOffset <? len memory - 0x20) then
    keyData <- slice memory ptrOffset (ptrOffset + 0x20) ;;
    Ret (Some keyData)
  else Ret None.

(** Lines 60-69. *)
Definition checkKey (validator : ValidatorPtr) (keyData : list byte)
  : outcome (option found_key) :=
  match validator with
  | Some v =>
      if Validate v keyData then Ret (Some (hex.EncodeToString keyData, true))
      else if ValidateImgKey v keyData then
        k16 <- slice keyData 0 16 ;;
        Ret (Some (hex.EncodeToString k16, true))
      else Ret None
  | None => Ret (Some (hex.EncodeToString keyData, true))
  end.

(** One round of the loop of lines 38-72; the state is [(index, ctx)]. *)
Definition body (memory : list byte) (validator : ValidatorPtr)
           (st : Z * Ctx) : outcome (flow (Z * Ctx) found_key) :=
  let '(index, ctx) := st in
  let '(cancelled, ctx) := Done ctx in
  if cancelled then Ret (Return not_found)
  else
    head <- slice memory 0 index ;;
    let index := bytes.LastIndex head keyPattern in
    if (index =? -1) || (index - ptrSize <? 0) then Ret (Return not_found)
    else
      cand <- keyCandidate memory index ;;
      hit <- match cand with
             | Some keyData => checkKey validator keyData
             | None => Ret None
             end ;;
      match hit with
      | Some r => Ret (Return r)
      | None => Ret (Continue (index - len keyPattern, ctx))
      end.

Definition Search (fuel : nat) (ctx : Ctx) (memory : list byte)
           (validator : ValidatorPtr) : outcome found_key :=
  loop fuel (body memory validator) (len memory, ctx).

End BasePatternSearch.

(** ** Key-shape test used when no validator is set

    [SetDBKeyLogSearch], [SQLiteSafetySearch] and [WeixinDLLSearch] each carry
    the same [isValidKeyPattern] method. *)

Fixpoint isValidKeyPattern_range (firstByte : byte) (data : list byte)
         (allZero allSame : bool) : bool * bool :=
  match data with
  | [] => (allZero, allSame)
  | b :: rest =>
      let allZero := if Byte.eqb b x00 then allZero else false in
      let allSame := if Byte.eqb b firstByte then allSame else false in
      if negb allZero && negb allSame then (allZero, allSame)
      else isValidKeyPattern_range firstByte rest allZero allSame
  end.

Definition isValidKeyPattern (data : list byte) : outcome bool :=
  match data with
  | [] => Panic (* data[0] *)
  | firstByte :: _ =>
      let '(allZero, allSame) := isValidKeyPattern_range firstByte data true true in
      Ret (negb allZero && negb allSame)
  end.

(** The candidate test shared by the marker-based strategies:
    [Validate], then [ValidateImgKey], and without a validator
    [isValidKeyPattern]. *)
Definition checkKeyData (validator : ValidatorPtr) (keyData : list byte)
  : outcome (option found_key) :=
  match validator with
  | Some v =>
      if Validate v keyData then Ret (Some (hex.EncodeToString keyData, true))
      else if ValidateImgKey v keyData then
        k16 <- slice keyData 0 16 ;;
        Ret (Some (hex.EncodeToString k16, true))
      else Ret None
  | None =>
      ok <- isValidKeyPattern keyData ;;
      if ok then Ret (Some (hex.EncodeToString keyData, true)) else Ret None
  end.

(** [for i := 0; i < len(memory)-32; i++] over the 32-byte windows. *)
Definition scanKeyWindows (memory : list byte) (validator : ValidatorPtr)
  : outcome (option found_key) :=
  for_upto (len memory - 32)
    (fun i => keyData <- slice memory i (i + 32) ;; checkKeyData validator keyData).

(** [for i := 0; i < len(localMemory)-8; i++] over the 8-byte windows, each
    read as an index into [fullMemory]; the bound
    [uint64(len(fullMemory))-32] is computed in [uint64]. *)
Definition scanKeyPointers (localMemory fullMemory : list byte)
           (validator : ValidatorPtr) : outcome (option found_key) :=
  for_upto (len localMemory - 8)
    (fun i =>
       w <- slice localMemory i (i + 8) ;;
       ptrValue <- binary.Uint64 w ;;
       if (ptrValue >? 0x10000) && (ptrValue <? uint64 (len fullMemory - 32)) then
         keyData <- slice fullMemory ptrValue (uint64 (ptrValue + 32)) ;;
         checkKeyData validator keyData
       else Ret None).

Definition or_not_found (r : option found_key) : found_key :=
  match r with
  | Some k => k
  | None => not_found
  end.

Definition clamp_low (start : Z) : Z := if start <? 0 then 0 else start.

Definition clamp_high (end_ limit : Z) : Z := if end_ >? limit then limit else end_.

(** ** [SetDBKeyLogSearch] *)

Module SetDBKeyLogSearch.

Definition setDBKeyPattern : list byte := list_byte_of_string "SetDBKey".

Definition findSetDBKeyCall (localMemory fullMemory : list byte)
           (validator : ValidatorPtr) : outcome found_key :=
  direct <- scanKeyWindows localMemory validator ;;
  match direct with
  | Some k => Ret k
  | None =>
      viaPtr <- scanKeyPointers localMemory fullMemory validator ;;
      Ret (or_not_found viaPtr)
  end.

Definition findKeyInRange (memory : list byte) (validator : ValidatorPtr)
  : outcome found_key :=
  r <- scanKeyWindows memory validator ;;
  Ret (or_not_found r).

(** One round of the loop of lines 89-127; the state is [(index, ctx)]. *)
Definition body (memory : list byte) (validator : ValidatorPtr)
           (st : Z * Ctx) : outcome (flow (Z * Ctx) found_key) :=
  let '(index, ctx) := st in
  let '(cancelled, ctx) := Done ctx in
  if cancelled then Ret (Return not_found)
  else
    rest <- slice memory index (len memory) ;;
    let index := bytes.Index rest setDBKeyPattern in
    if index =? -1 then Ret (Return not_found)
    else
      let actualIndex := index in
      let index := index + len setDBKeyPattern in
      let searchRange := 200 in
      let start := clamp_low (actualIndex - searchRange) in
      let end_ := clamp_high (index + searchRange) (len memory) in
      area <- slice memory start end_ ;;
      call <- findSetDBKeyCall area memory validator ;;
      if snd call then Ret (Return (fst call, true))
      else
        near <- findKeyInRange area validator ;;
        if snd near then Ret (Return (fst near, true))
        else Ret (Continue (index, ctx)).

Definition Search (fuel : nat) (ctx : Ctx) (memory : list byte)
           (validator : ValidatorPtr) : outcome found_key :=
  loop fuel (body memory validator) (0, ctx).

End SetDBKeyLogSearch.

(** ** [SQLiteSafetySearch] *)

Module SQLiteSafetySearch.

Definition unopenedPattern : list byte := list_byte_of_string "unopened".

Definition sqlitePatterns : list (list byte) :=
  map list_byte_of_string
      ["sqlite3_exec"; "sqlite3_prepare_v2"; "sqlite3_prepare"; "sqlite3_step";
       "setCipherKey"; "WCDB"]%string.

Definition searchForKeyAroundSQLiteFunction (localMemory : list byte)
           (patternStart : Z) (fullMemory : list byte)
           (validator : ValidatorPtr) : outcome found_key :=
  let searchRange := 500 in
  let start := clamp_low (patternStart - searchRange) in
  let end_ := clamp_high (patternStart + searchRange) (len localMemory) in
  searchArea <- slice localMemory start end_ ;;
  direct <- scanKeyWindows searchArea validator ;;
  match direct with
  | Some k => Ret k
  | None =>
      viaPtr <- scanKeyPointers searchArea fullMemory validator ;;
      Ret (or_not_found viaPtr)
  end.

(** One round of the inner loop of lines 292-306 for one [pattern]; leaving
    it by [break] is [Return None]. *)
Definition patternBody (localMemory fullMemory : list byte)
           (validator : ValidatorPtr) (pattern : list byte) (index : Z)
  : outcome (flow Z (option found_key)) :=
  rest <- slice localMemory index (len localMemory) ;;
  let index := bytes.Index rest pattern in
  if index =? -1 then Ret (Return None)
  else
    let patternStart := index in
    let index := index + len pattern in
    r <- searchForKeyAroundSQLiteFunction localMemory patternStart fullMemory validator ;;
    if snd r then Ret (Return (Some (fst r, true)))
    else Ret (Continue index).

Fixpoint searchPatterns (fuel : nat) (localMemory fullMemory : list byte)
         (validator : ValidatorPtr) (patterns : list (list byte))
  : outcome found_key :=
  match patterns with
  | [] => Ret not_found
  | pattern :: more =>
      r <- loop fuel (patternBody localMemory fullMemory validator pattern) 0 ;;
      match r with
      | Some k => Ret k
      | None => searchPatterns fuel localMemory fullMemory validator more
      end
  end.

Definition searchSQLiteRelatedFunctions (fuel : nat)
           (localMemory fullMemory : list byte) (validator : ValidatorPtr)
  : outcome found_key :=
  searchPatterns fuel localMemory fullMemory validator sqlitePatterns.

(** One round of the loop of lines 240-273. *)
Definition body (fuel : nat) (memory : list byte) (validator : ValidatorPtr)
           (st : Z * Ctx) : outcome (flow (Z * Ctx) found_key) :=
  let '(index, ctx) := st in
  let '(cancelled, ctx) := Done ctx in
  if cancelled then Ret (Return not_found)
  else
    rest <- slice memory index (len memory) ;;
    let index := bytes.Index rest unopenedPattern in
    if index =? -1 then Ret (Return not_found)
    else
      let actualIndex := index in
      let index := index + len unopenedPattern in
      let searchRange := 1000 in
      let start := clamp_low (actualIndex - searchRange) in
      let end_ := clamp_high (index + searchRange) (len memory) in
      area <- slice memory start end_ ;;
      r <- searchSQLiteRelatedFunctions fuel area memory validator ;;
      if snd r then Ret (Return (fst r, true))
      else Ret (Continue (index, ctx)).

Definition Search (fuel : nat) (ctx : Ctx) (memory : list byte)
           (validator : ValidatorPtr) : outcome found_key :=
  loop fuel (body fuel memory validator) (0, ctx).

End SQLiteSafetySearch.

(** ** [WeixinDLLSearch] *)

Module WeixinDLLSearch.

Definition weixinDLLPatterns : list (list byte) :=
  map list_byte_of_string ["Weixin.dll"; "xwechat_files"; "db_storage"]%string.

Definition findKeyInRange (memory : list byte) (validator : ValidatorPtr)
  : outcome found_key :=
  r <- scanKeyWindows memory validator ;;
  Ret (or_not_found r).

(** One round of the inner loop of lines 466-497 for one [pattern].  A
    [return] of the function is [Return (Some r, ctx)], the [break] is
    [Return (None, ctx)]. *)
Definition patternBody (memory : list byte) (validator : ValidatorPtr)
           (pattern : list byte) (st : Z * Ctx)
  : outcome (flow (Z * Ctx) (option found_key * Ctx)) :=
  let '(index, ctx) := st in
  let '(cancelled, ctx) := Done ctx in
  if cancelled then Ret (Return (Some not_found, ctx))
  else
    rest <- slice memory index (len memory) ;;
    let index := bytes.Index rest pattern in
    if index =? -1 then Ret (Return (None, ctx))
    else
      let index := index + len pattern in
      let searchRange := 500 in
      let start := clamp_low (index - searchRange) in
      let end_ := clamp_high (index + searchRange) (len memory) in
      area <- slice memory start end_ ;;
      r <- findKeyInRange area validator ;;
      if snd r then Ret (Return (Some (fst r, true), ctx))
      else Ret (Continue (index, ctx)).

Fixpoint searchPatterns (fuel : nat) (ctx : Ctx) (memory : list byte)
         (validator : ValidatorPtr) (patterns : list (list byte))
  : outcome found_key :=
  match patterns with
  | [] => Ret not_found
  | pattern :: more =>
      r <- loop fuel (patternBody memory validator pattern) (0, ctx) ;;
      match r with
      | (Some k, _) => Ret k
      | (None, ctx) => searchPatterns fuel ctx memory validator more
      end
  end.

Definition Search (fuel : nat) (ctx : Ctx) (memory : list byte)
           (validator : ValidatorPtr) : outcome found_key :=
  searchPatterns fuel ctx memory validator weixinDLLPatterns.

End WeixinDLLSearch.

(** ** The [SearchStrategy] interface and [V4Extractor.SearchKey] *)

Record SearchStrategy : Type := {
  Name : string;
  Search : nat -> Ctx -> list byte -> ValidatorPtr -> outcome found_key
}.

Definition basePatternSearch : SearchStrategy :=
  {| Name := "base_pattern"; Search := BasePatternSearch.Search |}.

Definition setDBKeyLogSearch : SearchStrategy :=
  {| Name := "setdbkey_log"; Search := SetDBKeyLogSearch.Search |}.

Definition sqliteSafetySearch : SearchStrategy :=
  {| Name := "sqlite_safety"; Search := SQLiteSafetySearch.Search |}.

Definition weixinDLLSearch : SearchStrategy :=
  {| Name := "weixin_dll"; Search := WeixinDLLSearch.Search |}.

Record V4Extractor : Type := {
  validator : ValidatorPtr;
  strategies : list SearchStrategy
}.

Definition NewV4Extractor : V4Extractor :=
  {| validator := None;
     strategies := [basePatternSearch; setDBKeyLogSearch; sqliteSafetySearch;
                    weixinDLLSearch] |}.

Definition SetValidate (e : V4Extractor) (v : ValidatorPtr) : V4Extractor :=
  {| validator := v; strategies := strategies e |}.

(** The collecting loop of [SearchKey] (lines 434-441) over the results in
    the order in which they arrive on [resultChan].  A strategy that panics
    takes the process down; one that never sends leaves the receive blocked. *)
Fixpoint collect (arrivals : list (outcome found_key)) : outcome found_key :=
  match arrivals with
  | [] => Ret not_found
  | Ret (key, true) :: _ => Ret (key, true)
  | Ret (_, false) :: rest => collect rest
  | Panic :: _ => Panic
  | NoFuel :: _ => NoFuel
  end.

(** Every strategy runs in a goroutine of its own; [arrival] is the order in
    which the goroutines deliver, a permutation of [strategies e]. *)
Definition SearchKey (e : V4Extractor) (fuel : nat) (ctx : Ctx)
           (memory : list byte) (arrival : list SearchStrategy)
  : outcome found_key :=
  collect (map (fun s => Search s fuel ctx memory (validator e)) arrival).

(** ** Chunks of the test [TestV4Extractor_SearchKey] and of the scenarios *)

Module Scenario.

(** [make([]byte, n)] *)
Definition make (n : Z) : list byte := repeat x00 (Z.to_nat n).

(** [copy(dst[off:off+len(src)], src)], [src] fitting in [dst]. *)
Definition copy_at (dst : list byte) (off : Z) (src : list byte) : list byte :=
  firstn (Z.to_nat off) dst ++ src
    ++ skipn (Z.to_nat off + List.length src) dst.

Definition keyData : list byte :=
  list_byte_of_string "0123456789abcdef0123456789abcdef".

Definition keyOffset : Z := 0x10100.

(** [binary.LittleEndian.PutUint64(ptrBytes, uint64(keyOffset))] *)
Definition ptrBytes : list byte := [x00; x01; x01; x00; x00; x00; x00; x00].

(** Test case 1: key at 0x10100, pointer at 0x200, signature at 0x208. *)
Definition memory : list byte :=
  copy_at
    (copy_at (copy_at (make 0x10200) keyOffset keyData) 0x200 ptrBytes)
    0x208 BasePatternSearch.keyPattern.

Definition keyHex : string :=
  "3031323334353637383961626364656630313233343536373839616263646566".

(** Test case 2: [copy(memory2, "test data without key pattern")]. *)
Definition memory2 : list byte :=
  copy_at (make 0x1000) 0 (list_byte_of_string "test data without key pattern").

(** Test case 4: [copy(memory4[8:24], keyPattern)] copies 16 bytes. *)
Definition memory4 : list byte :=
  copy_at (copy_at (make 0x100) 0 ptrBytes) 8
          (firstn 16 BasePatternSearch.keyPattern).

(** Test case 5: the pointer 0x1F0 in a chunk of 0x200 bytes. *)
Definition memory5 : list byte :=
  copy_at (copy_at (make 0x200) 0 [xf0; x01; x00; x00; x00; x00; x00; x00]) 8
          (firstn 16 BasePatternSearch.keyPattern).

End Scenario.

(** ** The operating system, as far as the extractors use it

    Packages [golang.org/x/sys/windows], [runtime], [util] and [model] are not
    part of the sources; their constants and calls are the fields of
    [Windows]. *)

Definition Handle := Z.

Record MemoryBasicInformation : Type := {
  BaseAddress : Z;
  RegionSize : Z;
  State : Z;
  Protect : Z;
  Type_ : Z
}.

Record ModuleEntry32 : Type := {
  Module_ : string;
  ModBaseAddr : Z;
  ModBaseSize : Z
}.

Record Windows : Type := {
  PAGE_READWRITE : Z;
  PAGE_WRITECOPY : Z;
  PAGE_EXECUTE_READWRITE : Z;
  PAGE_EXECUTE_WRITECOPY : Z;
  MEM_COMMIT : Z;
  (** [runtime.NumCPU()] and [runtime.GOARCH == "amd64"] *)
  NumCPU : Z;
  GOARCH_amd64 : bool;
  (** [windows.OpenProcess]: a handle, or an error *)
  OpenProcess : Z -> option Handle;
  (** [util.Is64Bit] *)
  Is64Bit : Handle -> option bool;
  (** the module snapshot walked by [Module32First] and [Module32Next];
      [None] when [CreateToolhelp32Snapshot] fails *)
  Modules : Z -> option (list ModuleEntry32);
  VirtualQueryEx : Handle -> Z -> option MemoryBasicInformation;
  (** [ReadProcessMemory handle addr size]: the bytes read, or an error *)
  ReadProcessMemory : Handle -> Z -> Z -> option (list byte)
}.

(** [uintptr] is 64 bits wide. *)
Definition uintptr (z : Z) : Z := z mod 2 ^ 64.

Inductive ProcessStatus : Type := StatusOnline | StatusOffline.

Record Process : Type := {
  PID : Z;
  Status : ProcessStatus
}.

Inductive error : Type :=
| ErrWeChatOffline
| OpenProcessFailed
| ErrIs64Bit
| ErrWeChatDLLNotFound
| ErrNoValidKey
| ErrContext.   (* [ctx.Err()] *)

Inductive goroutine : Type :=
| Worker (index : Z)
| Producer
| Joiner.

(** What a goroutine of an extraction does to the outside world.  A trace
    lists the events of one goroutine in program order; events of different
    goroutines are never put in one trace. *)
Inductive event : Type :=
| EvOpenProcess (pid : Z)
| EvCloseHandle (handle : Handle)
| EvGo (g : goroutine)
| EvVirtualQueryEx (addr : Z)
| EvReadProcessMemory (addr size : Z)
| EvChunk (memory : list byte)      (* [memoryChannel <- memory] *)
| EvLogErr (e : error).

Definition traced (A : Type) : Type := (list event * A)%type.

Definition emit {A} (evs : list event) (r : traced A) : traced A :=
  (evs ++ fst r, snd r).

(** [defer windows.CloseHandle(handle)]: the handle is closed when the
    function returns, and only then. *)
Definition deferClose {A} (handle : Handle) (r : traced (outcome A))
  : traced (outcome A) :=
  match snd r with
  | Ret _ => (fst r ++ [EvCloseHandle handle], snd r)
  | _ => r
  end.

(** [keyData := make([]byte, size)] followed by
    [ReadProcessMemory(handle, addr, &keyData[0], size, nil)]: the buffer,
    which keeps its [size] bytes whatever the call has stored in it, or the
    error of the call. *)
Definition readBuffer (w : Windows) (handle : Handle) (addr size : Z)
  : option (list byte) :=
  match ReadProcessMemory w handle addr size with
  | Some data =>
      Some (firstn (Z.to_nat size) (data ++ repeat x00 (Z.to_nat size)))
  | None => None
  end.

Fixpoint chunksOf (trace : list event) : list (list byte) :=
  match trace with
  | [] => []
  | EvChunk memory :: rest => memory :: chunksOf rest
  | _ :: rest => chunksOf rest
  end.

Definition MaxWorkers : Z := 16.

(** Lines 122-128 of the V3 extractor, 519-525 of the V4 extractor. *)
Definition workerCount (numCPU : Z) : Z :=
  let workerCount := numCPU in
  let workerCount := if workerCount <? 2 then 2 else workerCount in
  if workerCount >? MaxWorkers then MaxWorkers else workerCount.

(** [for index := 0; index < workerCount; index++ { go func() {...}() }] *)
Definition spawnWorkers (workerCount : Z) : list event :=
  map (fun index => EvGo (Worker (Z.of_nat index))) (seq 0 (Z.to_nat workerCount)).

Definition isWorkerGo (ev : event) : bool :=
  match ev with
  | EvGo (Worker _) => true
  | _ => false
  end.

(** Number of worker goroutines started in a trace. *)
Definition workersSpawned (trace : list event) : Z :=
  len (filter isWorkerGo trace).

(** How the goroutines of one extraction interleave: what the main goroutine
    finds at its [select], which contexts the producer and the workers see,
    and whether [resultChannel] has room at each send of a worker. *)
Record Schedule : Type := {
  mainDone : bool;
  producerCtx : Ctx;
  workerCtx : Ctx;
  resultReady : list bool;
  winner : nat
}.

(** ** [V3Extractor] *)

Module V3.

Definition V3ModuleName : string := "WeChatWin.dll".

Definition FindModule (w : Windows) (pid : Z) (name : string)
  : option ModuleEntry32 :=
  match Modules w pid with
  | None => None
  | Some modules => find (fun m => String.eqb (Module_ m) name) modules
  end.

Definition isWritable (w : Windows) (mbi : MemoryBasicInformation) : bool :=
  Z.land (Protect mbi)
         (Z.lor (Z.lor (PAGE_READWRITE w) (PAGE_WRITECOPY w))
                (Z.lor (PAGE_EXECUTE_READWRITE w) (PAGE_EXECUTE_WRITECOPY w)))
  >? 0.

(** The loop of lines 197-233. *)
Fixpoint regions (fuel : nat) (w : Windows) (ctx : Ctx) (handle : Handle)
         (endAddr currentAddr : Z) : traced (outcome (option error)) :=
  match fuel with
  | O => ([], NoFuel)
  | S fuel' =>
      if negb (currentAddr <? endAddr) then ([], Ret None)
      else
        match VirtualQueryEx w handle currentAddr with
        | None => ([EvVirtualQueryEx currentAddr], Ret None)
        | Some mbi =>
            emit [EvVirtualQueryEx currentAddr]
            (if RegionSize mbi <? 100 * 1024 then
               regions fuel' w ctx handle endAddr
                       (uintptr (currentAddr + RegionSize mbi))
             else
               let next := uintptr (BaseAddress mbi + RegionSize mbi) in
               if isWritable w mbi && (State mbi =? MEM_COMMIT w) then
                 let regionSize :=
                   if uintptr (currentAddr + RegionSize mbi) >? endAddr
                   then uintptr (endAddr - currentAddr)
                   else RegionSize mbi in
                 emit [EvReadProcessMemory currentAddr regionSize]
                 match ReadProcessMemory w handle currentAddr regionSize with
                 | Some memory =>
                     let '(cancelled, ctx) := Done ctx in
                     if cancelled then ([], Ret None)
                     else emit [EvChunk memory]
                               (regions fuel' w ctx handle endAddr next)
                 | None => regions fuel' w ctx handle endAddr next
                 end
               else regions fuel' w ctx handle endAddr next)
        end
  end.

Definition findMemory (fuel : nat) (w : Windows) (ctx : Ctx) (handle : Handle)
           (pid : Z) : traced (outcome (option error)) :=
  match FindModule w pid V3ModuleName with
  | None => ([], Ret (Some ErrWeChatDLLNotFound))
  | Some module =>
      let baseAddr := ModBaseAddr module in
      let endAddr := uintptr (baseAddr + ModBaseSize module) in
      regions fuel w ctx handle endAddr baseAddr
  end.

Definition validateKey (w : Windows) (v : Validator) (handle : Handle)
           (addr : Z) : traced string :=
  ([EvReadProcessMemory addr 0x20],
   match readBuffer w handle addr 0x20 with
   | None => EmptyString
   | Some keyData =>
       if Validate v keyData then hex.EncodeToString keyData else EmptyString
   end).

Definition keyPattern (is64Bit : bool) : list byte :=
  if is64Bit then [x20; x00; x00; x00; x00; x00; x00; x00]
  else [x20; x00; x00; x00].

Definition ptrSize (is64Bit : bool) : Z := if is64Bit then 8 else 4.

Definition littleEndianFunc (is64Bit : bool) (b : list byte) : outcome Z :=
  if is64Bit then binary.Uint64 b else binary.Uint32 b.

(** How the scan of one chunk ends. *)
Inductive scanned : Type :=
| Sent (key : string)   (* key put on [resultChannel], the worker returns *)
| Cancelled             (* [ctx.Done()], the worker returns *)
| Exhausted.            (* [break], the worker takes the next chunk *)

(** The inner loop of [worker], lines 269-295, on one chunk. *)
Fixpoint scanChunk (fuel : nat) (w : Windows) (v : Validator)
         (handle : Handle) (is64Bit : bool) (memory : list byte)
         (ctx : Ctx) (ready : list bool) (index : Z)
  : traced (outcome scanned) :=
  match fuel with
  | O => ([], NoFuel)
  | S fuel' =>
      let '(cancelled, ctx) := Done ctx in
      if cancelled then ([], Ret Cancelled)
      else
        match slice memory 0 index with
        | Ret head =>
            let index := bytes.LastIndex head (keyPattern is64Bit) in
            if (index =? -1) || (index - ptrSize is64Bit <? 0)
            then ([], Ret Exhausted)
            else
              match
                (p <- slice memory (index - ptrSize is64Bit) index ;;
                 littleEndianFunc is64Bit p)
              with
              | Ret ptrValue =>
                  if (ptrValue >? 0x10000) && (ptrValue <? 0x7FFFFFFFFFFF) then
                    let '(reads, key) := validateKey w v handle ptrValue in
                    emit reads
                    (if negb (String.eqb key EmptyString) then
                       match ready with
                       | false :: ready' =>
                           scanChunk fuel' w v handle is64Bit memory ctx
                                     ready' (index - 1)
                       | _ => ([], Ret (Sent key))
                       end
                     else scanChunk fuel' w v handle is64Bit memory ctx
                                    ready (index - 1))
                  else scanChunk fuel' w v handle is64Bit memory ctx ready
                                 (index - 1)
              | Panic => ([], Panic)
              | NoFuel => ([], NoFuel)
              end
        | Panic => ([], Panic)
        | NoFuel => ([], NoFuel)
        end
  end.

(** A worker on the chunk [memory]: [index := len(memory)], then the loop,
    which takes at most one round per byte of the chunk. *)
Definition workerChunk (w : Windows) (v : Validator) (handle : Handle)
           (is64Bit : bool) (ctx : Ctx) (ready : list bool)
           (memory : list byte) : traced (outcome scanned) :=
  scanChunk (S (List.length memory)) w v handle is64Bit memory ctx ready
            (len memory).

Fixpoint workers (w : Windows) (v : Validator) (handle : Handle)
         (is64Bit : bool) (ctx : Ctx) (ready : list bool)
         (chunks : list (list byte)) : traced (list string) :=
  match chunks with
  | [] => ([], [])
  | memory :: rest =>
      let '(evs, r) := workerChunk w v handle is64Bit ctx ready memory in
      let more := workers w v handle is64Bit ctx ready rest in
      match r with
      | Ret (Sent key) => (evs ++ fst more, key :: snd more)
      | _ => (evs ++ fst more, snd more)
      end
  end.

Definition keys_empty : string * string := (EmptyString, EmptyString).

(** The workers have all returned once the chunks are scanned and
    [memoryChannel] is closed, unless one of them panics or stays in its
    loop. *)
Fixpoint workersDone (w : Windows) (v : Validator) (handle : Handle)
         (is64Bit : bool) (ctx : Ctx) (ready : list bool)
         (chunks : list (list byte)) : outcome unit :=
  match chunks with
  | [] => Ret tt
  | memory :: rest =>
      _ <- snd (workerChunk w v handle is64Bit ctx ready memory) ;;
      workersDone w v handle is64Bit ctx ready rest
  end.

(** The producer goroutine of [Extract], lines 142-151: [findMemory], whose
    error goes to the log and nowhere else; [memoryChannel] is closed when
    the goroutine returns. *)
Definition producer (fuel : nat) (w : Windows) (ctx : Ctx) (handle : Handle)
           (pid : Z) : traced (outcome unit) :=
  let produced := findMemory fuel w ctx handle pid in
  match snd produced with
  | Ret (Some err) => (fst produced ++ [EvLogErr err], Ret tt)
  | Ret None => (fst produced, Ret tt)
  | Panic => (fst produced, Panic)
  | NoFuel => (fst produced, NoFuel)
  end.

(** [Extract], lines 95-171: the events of the calling goroutine and what it
    returns.  The producer and the workers run in goroutines of their own;
    the chunks sent by the producer are scanned by the workers, and the
    calling goroutine waits at its [select] only: it takes [ctx.Done()], or
    the key of the worker that the schedule lets win, or finds
    [resultChannel] closed, which happens once the producer and all workers
    have returned.  The deferred [CloseHandle] runs when [Extract] returns,
    whether or not the goroutines are still at work. *)
Definition Extract (w : Windows) (v : Validator) (fuel : nat)
           (sch : Schedule) (proc : Process)
  : traced (outcome (string * string * option error)) :=
  match Status proc with
  | StatusOffline => ([], Ret (keys_empty, Some ErrWeChatOffline))
  | StatusOnline =>
      emit [EvOpenProcess (PID proc)]
      match OpenProcess w (PID proc) with
      | None => ([], Ret (keys_empty, Some OpenProcessFailed))
      | Some handle =>
          deferClose handle
          match Is64Bit w handle with
          | None => ([], Ret (keys_empty, Some ErrIs64Bit))
          | Some is64Bit =>
              let workerCount := workerCount (NumCPU w) in
              let produced :=
                producer fuel w (producerCtx sch) handle (PID proc) in
              let chunks := chunksOf (fst produced) in
              let sent :=
                snd (workers w v handle is64Bit (workerCtx sch)
                             (resultReady sch) chunks) in
              (spawnWorkers workerCount ++ [EvGo Producer; EvGo Joiner],
               if mainDone sch then Ret (keys_empty, Some ErrContext)
               else
                 match sent with
                 | first :: _ =>
                     Ret ((nth (winner sch) sent first, EmptyString), None)
                 | [] =>
                     _ <- snd produced ;;
                     _ <- workersDone w v handle is64Bit (workerCtx sch)
                                      (resultReady sch) chunks ;;
                     Ret (keys_empty, Some ErrNoValidKey)
                 end)
          end
      end
  end.

End V3.

(** ** [V4Extractor] *)

Module V4.

Definition MEM_PRIVATE : Z := 0x20000.

Definition isPrivateReadWrite (w : Windows) (memInfo : MemoryBasicInformation)
  : bool :=
  (State memInfo =? MEM_COMMIT w)
  && negb (Z.land (Protect memInfo) (PAGE_READWRITE w) =? 0)
  && (Type_ memInfo =? MEM_PRIVATE).

(** The loop of lines 613-658. *)
Fixpoint regions (fuel : nat) (w : Windows) (ctx : Ctx) (handle : Handle)
         (maxAddr currentAddr : Z) : traced (outcome (option error)) :=
  match fuel with
  | O => ([], NoFuel)
  | S fuel' =>
      if negb (currentAddr <? maxAddr) then ([], Ret None)
      else
        let '(cancelled, ctx) := Done ctx in
        if cancelled then ([], Ret None)
        else
          match VirtualQueryEx w handle currentAddr with
          | None => ([EvVirtualQueryEx currentAddr], Ret None)
          | Some memInfo =>
              emit [EvVirtualQueryEx currentAddr]
              (if RegionSize memInfo <? 1024 * 1024 then
                 regions fuel' w ctx handle maxAddr
                         (uintptr (currentAddr + RegionSize memInfo))
               else
                 let next := uintptr (BaseAddress memInfo + RegionSize memInfo) in
                 if isPrivateReadWrite w memInfo then
                   let regionSize :=
                     if uintptr (currentAddr + RegionSize memInfo) >? maxAddr
                     then uintptr (maxAddr - currentAddr)
                     else RegionSize memInfo in
                   emit [EvReadProcessMemory currentAddr regionSize]
                   match ReadProcessMemory w handle currentAddr regionSize with
                   | Some memory =>
                       let '(cancelled, ctx) := Done ctx in
                       if cancelled then ([], Ret None)
                       else emit [EvChunk memory]
                                 (regions fuel' w ctx handle maxAddr next)
                   | None => regions fuel' w ctx handle maxAddr next
                   end
                 else regions fuel' w ctx handle maxAddr next)
          end
  end.

Definition findMemory (fuel : nat) (w : Windows) (ctx : Ctx) (handle : Handle)
  : traced (outcome (option error)) :=
  let minAddr := 0x10000 in
  let maxAddr := if GOARCH_amd64 w then 0x7FFFFFFFFFFF else 0x7FFFFFFF in
  regions fuel w ctx handle maxAddr minAddr.

(** What the [select] of lines 561-586 finds, round after round. *)
Inductive received : Type :=
| Result (result : string * string)   (* [result, ok := <-resultChannel], [ok] *)
| Closed                              (* [!ok] *)
| CtxDone.                            (* [<-ctx.Done()] *)

Definition filled (key : string) : bool := negb (String.eqb key EmptyString).

(** Lines 573-579: the update of [finalDataKey] and [finalImgKey]. *)
Definition merge (final result : string * string) : string * string :=
  let finalDataKey := if filled (fst result) then fst result else fst final in
  let finalImgKey := if filled (snd result) then snd result else snd final in
  (finalDataKey, finalImgKey).

Definition keys_empty : string * string := (EmptyString, EmptyString).

(** The loop of lines 560-587; with nothing more to receive the [select]
    stays blocked ([NoFuel]). *)
Fixpoint coordinator (inbox : list received) (final : string * string)
  : outcome (string * string * option error) :=
  match inbox with
  | [] => NoFuel
  | CtxDone :: _ => Ret (keys_empty, Some ErrContext)
  | Closed :: _ =>
      if filled (fst final) || filled (snd final) then Ret (final, None)
      else Ret (keys_empty, Some ErrNoValidKey)
  | Result result :: rest =>
      let final := merge final result in
      if filled (fst final) && filled (snd final) then Ret (final, None)
      else coordinator rest final
  end.

(** [Extract], lines 498-588: the events of the calling goroutine and what
    it returns; [inbox] is what its [select] finds round after round, as the
    workers and the joiner deliver on [resultChannel] under the schedule.
    The deferred [CloseHandle] runs when [Extract] returns, whether or not
    the goroutines are still at work. *)
Definition Extract (w : Windows) (inbox : list received) (proc : Process)
  : traced (outcome (string * string * option error)) :=
  match Status proc with
  | StatusOffline => ([], Ret (keys_empty, Some ErrWeChatOffline))
  | StatusOnline =>
      emit [EvOpenProcess (PID proc)]
      match OpenProcess w (PID proc) with
      | None => ([], Ret (keys_empty, Some OpenProcessFailed))
      | Some handle =>
          let workerCount := workerCount (NumCPU w) in
          deferClose handle
            (spawnWorkers workerCount ++ [EvGo Producer; EvGo Joiner],
             coordinator inbox keys_empty)
      end
  end.

End V4.

(** ** Sample inputs: chunks, a target process, validators and a schedule *)

Module Sample.

(** The marker twice in a row, in a chunk of 32 bytes. *)
Definition setDBKeyTwice : list byte :=
  list_byte_of_string "SetDBKeySetDBKey" ++ Scenario.make 16.

Definition unopenedTwice : list byte :=
  list_byte_of_string "unopenedunopened" ++ Scenario.make 16.

Definition weixinTwice : list byte :=
  list_byte_of_string "Weixin.dllWeixin.dll" ++ Scenario.make 12.

(** A chunk of 9 bytes that starts with the marker. *)
Definition setDBKeyShort : list byte := list_byte_of_string "SetDBKeyA".

(** In a 32-bit target: the pointer 0x80000000 before the length word 32. *)
Definition highPointer32 : list byte :=
  [x00; x00; x00; x80; x20; x00; x00; x00].

(** In a 64-bit target: the pointer 0x20000 before the length word 32. *)
Definition pointer64 : list byte :=
  [x00; x00; x02; x00; x00; x00; x00; x00;
   x20; x00; x00; x00; x00; x00; x00; x00].

(** The chunk of test case 1 with a second pointer, 0x10120, at 0x300 and
    a second signature at 0x308. *)
Definition twoSignatures : list byte :=
  Scenario.copy_at
    (Scenario.copy_at Scenario.memory 0x300
                      [x20; x01; x01; x00; x00; x00; x00; x00])
    0x308 BasePatternSearch.keyPattern.

Definition weChatWin : ModuleEntry32 :=
  {| Module_ := "WeChatWin.dll"; ModBaseAddr := 0x100000; ModBaseSize := 0x200000 |}.

Definition otherModule : ModuleEntry32 :=
  {| Module_ := "Weixin.dll"; ModBaseAddr := 0x100000; ModBaseSize := 0x200000 |}.

(** Address space of the target: [0x10000, 0x100000) is one region of
    960 KiB, [0x100000, 0x300000) one of 2 MiB, both committed, private and
    read-write; nothing is mapped above.  Reads of the large region give
    [pointer64] (the rest of the region is left out), reads of 32 bytes
    give [Scenario.keyData]. *)
Definition region (addr : Z) : option MemoryBasicInformation :=
  if addr <? 0x10000 then None
  else if addr <? 0x100000 then
    Some {| BaseAddress := 0x10000; RegionSize := 0xF0000; State := 0x1000;
            Protect := 0x04; Type_ := 0x20000 |}
  else if addr <? 0x300000 then
    Some {| BaseAddress := 0x100000; RegionSize := 0x200000; State := 0x1000;
            Protect := 0x04; Type_ := 0x20000 |}
  else None.

Definition windows (is64Bit : bool) (modules : list ModuleEntry32) : Windows :=
  {| PAGE_READWRITE := 0x04;
     PAGE_WRITECOPY := 0x08;
     PAGE_EXECUTE_READWRITE := 0x40;
     PAGE_EXECUTE_WRITECOPY := 0x80;
     MEM_COMMIT := 0x1000;
     NumCPU := 8;
     GOARCH_amd64 := true;
     OpenProcess := fun pid => Some 7;
     Is64Bit := fun _ => Some is64Bit;
     Modules := fun _ => Some modules;
     VirtualQueryEx := fun _ addr => region addr;
     ReadProcessMemory := fun _ addr size =>
       if size =? 0x20 then Some Scenario.keyData else Some pointer64 |}.

(** A validator that accepts the key of the test and nothing else. *)
Definition validator : Validator :=
  {| Validate := fun k =>
       String.eqb (string_of_list_byte k) (string_of_list_byte Scenario.keyData);
     ValidateImgKey := fun _ => false |}.

Definition rejectAll : Validator :=
  {| Validate := fun _ => false; ValidateImgKey := fun _ => false |}.

(** Hex encoding of a second 32-byte key. *)
Definition otherKeyHex : string :=
  hex.EncodeToString (list_byte_of_string "fedcba9876543210fedcba9876543210").

Definition online : Process := {| PID := 4242; Status := StatusOnline |}.

Definition offline : Process := {| PID := 4242; Status := StatusOffline |}.

(** No cancellation, every send finds room, the first sender wins. *)
Definition calm : Schedule :=
  {| mainDone := false; producerCtx := Background; workerCtx := Background;
     resultReady := []; winner := 0 |}.

End Sample.

(** ** Predicates on traces *)

(** The platform maximum user address of section 4.3 of the specification. *)
Definition MaxUserAddr (is64Bit : bool) : Z :=
  if is64Bit then 0x7FFFFFFFFFFF else 0x7FFFFFFF.

(** The only events of a V3 worker are reads of 32 bytes at a pointer that
    passed the test of line 284. *)
Definition derefInRange (ev : event) : Prop :=
  match ev with
  | EvReadProcessMemory addr size =>
      0x10000 < addr < 0x7FFFFFFFFFFF /\ size = 0x20
  | _ => False
  end.

(** The events of a region enumeration: queries, reads of a committed region
    of at least [threshold] bytes, and chunks obtained by such a read. *)
Definition regionEvent (w : Windows) (handle : Handle) (threshold : Z)
           (ev : event) : Prop :=
  match ev with
  | EvVirtualQueryEx _ => True
  | EvReadProcessMemory addr size =>
      exists mbi, VirtualQueryEx w handle addr = Some mbi /\
                  threshold <= RegionSize mbi /\ State mbi = MEM_COMMIT w
  | EvChunk memory =>
      exists addr size mbi,
        ReadProcessMemory w handle addr size = Some memory /\
        VirtualQueryEx w handle addr = Some mbi /\
        threshold <= RegionSize mbi /\ State mbi = MEM_COMMIT w
  | _ => False
  end.

(** The value of the slot [proj] after the results [consumed], received in
    that order, when the slot held [proj initial] before them: the last
    non-empty value that they carry for the slot, and [proj initial] when
    they carry none. *)
Definition latest (proj : string * string -> string)
           (initial : string * string) (consumed : list (string * string))
           (value : string) : Prop :=
  (value = proj initial /\
   forall r, In r consumed -> proj r = EmptyString) \/
  (exists earlier r later,
      consumed = earlier ++ r :: later /\
      proj r <> EmptyString /\ value = proj r /\
      forall r', In r' later -> proj r' = EmptyString).

(** The ASCII markers that the three marker strategies look for in a chunk
    before anything else. *)
Definition markers : list (list byte) :=
  SetDBKeyLogSearch.setDBKeyPattern :: SQLiteSafetySearch.unopenedPattern
    :: WeixinDLLSearch.weixinDLLPatterns.

(** ** [hex.DecodeString] *)

Module hexdec.

(** The table [reverseHexTable] of [encoding/hex]: digits in either case. *)
Definition fromHexChar (c : ascii) : option N :=
  let n := N_of_ascii c in
  if ((48 <=? n) && (n <=? 57))%N then Some (n - 48)%N
  else if ((97 <=? n) && (n <=? 102))%N then Some (n - 87)%N
  else if ((65 <=? n) && (n <=? 70))%N then Some (n - 55)%N
  else None.

(** [hex.DecodeString s]: the bytes when [err == nil], [None] on an odd
    length or a character that is no hex digit. *)
Fixpoint DecodeString (s : string) : option (list byte) :=
  match s with
  | EmptyString => Some []
  | String _ EmptyString => None
  | String p (String q rest) =>
      match fromHexChar p, fromHexChar q with
      | Some a, Some b =>
          match Byte.of_N (a * 16 + b), DecodeString rest with
          | Some x, Some more => Some (x :: more)
          | _, _ => None
          end
      | _, _ => None
      end
  end.

End hexdec.

(** ** The worker of the V4 extractor that calls [SearchKey]
    (lines 671-748) *)

Module V4Worker.

(** Why the worker returned. *)
Inductive exit : Type :=
| ChannelClosed   (* [memoryChannel] closed and drained *)
| CtxCancelled    (* [<-ctx.Done()] *)
| BothFound.      (* [dataKey != "" && imgKey != ""] *)

(** What a found [key] does to [(dataKey, imgKey)], lines 704-737: the new
    pair when a slot is set (the pair is then sent), [None] otherwise. *)
Definition classify (v : Validator) (key : string) (keyData : list byte)
           (slots : string * string) : option (string * string) :=
  if (len keyData =? 32) && Validate v keyData then
    if String.eqb (fst slots) EmptyString then Some (key, snd slots) else None
  else if (len keyData =? 16) && ValidateImgKey v keyData then
    if String.eqb (snd slots) EmptyString then Some (fst slots, key) else None
  else if (len keyData =? 32) && ValidateImgKey v keyData then
    if String.eqb (snd slots) EmptyString
    then Some (fst slots, substring 0 32 key) (* [key[:32]] *)
    else None
  else None.

Definition both (slots : string * string) : bool :=
  V4.filled (fst slots) && V4.filled (snd slots).

(** The worker on the chunks it receives, each with the order in which the
    strategies of [SearchKey] deliver on it; [ready] tells whether
    [resultChannel] has room for the last, non-blocking send.  The result is
    the list of pairs sent and the final [(dataKey, imgKey)]. *)
Fixpoint worker (strats : list SearchStrategy) (v : Validator) (fuel : nat)
         (ctx : Ctx) (ready : bool)
         (chunks : list (list byte * list SearchStrategy))
         (slots : string * string)
  : list (string * string) * outcome (string * string * exit) :=
  let '(cancelled, ctx) := Done ctx in
  if cancelled then ([], Ret (slots, CtxCancelled))
  else
    match chunks with
    | [] =>
        (if (V4.filled (fst slots) || V4.filled (snd slots)) && ready
         then [slots] else [],
         Ret (slots, ChannelClosed))
    | (memory, arrival) :: rest =>
        let '(cancelled, ctx) := Done ctx in
        if cancelled then ([], Ret (slots, CtxCancelled))
        else
          let e := {| validator := Some v; strategies := strats |} in
          match SearchKey e fuel ctx memory arrival with
          | Ret (key, true) =>
              match hexdec.DecodeString key with
              | Some keyData =>
                  match classify v key keyData slots with
                  | Some slots' =>
                      let '(cancelled, ctx) := Done ctx in
                      if cancelled then ([], Ret (slots', CtxCancelled))
                      else if both slots' then ([slots'], Ret (slots', BothFound))
                      else
                        let '(sent, r) :=
                          worker strats v fuel ctx ready rest slots' in
                        (slots' :: sent, r)
                  | None =>
                      if both slots then ([], Ret (slots, BothFound))
                      else worker strats v fuel ctx ready rest slots
                  end
              | None => worker strats v fuel ctx ready rest slots
              end
          | Ret (_, false) => worker strats v fuel ctx ready rest slots
          | Panic => ([], Panic)
          | NoFuel => ([], NoFuel)
          end
    end.

End V4Worker.

(** ** The worker of the V4 extractor that reads through pointers
    (lines 346-466) *)

Module V4Old.

Definition keyPattern : list byte := BasePatternSearch.keyPattern.

Definition ptrSize : Z := 8.

(** [validateKey], lines 449-466: the key and whether it is an image key. *)
Definition validateKey (w : Windows) (v : Validator) (handle : Handle)
           (addr : Z) : traced (outcome (string * bool)) :=
  ([EvReadProcessMemory addr 0x20],
   match readBuffer w handle addr 0x20 with
   | None => Ret (EmptyString, false)
   | Some keyData =>
       if Validate v keyData then Ret (hex.EncodeToString keyData, false)
       else if ValidateImgKey v keyData then
         k16 <- slice keyData 0 16 ;;
         Ret (hex.EncodeToString k16, true)
       else Ret (EmptyString, false)
   end).

(** The variables of the worker: the two keys and the map [keysFound]. *)
Record local : Type := {
  dataKey : string;
  imgKey : string;
  keysFound : list Z
}.

Definition fresh : local :=
  {| dataKey := EmptyString; imgKey := EmptyString; keysFound := [] |}.

Definition seen (st : local) (ptrValue : Z) : bool :=
  existsb (Z.eqb ptrValue) (keysFound st).

Definition mark (st : local) (ptrValue : Z) : local :=
  {| dataKey := dataKey st; imgKey := imgKey st;
     keysFound := ptrValue :: keysFound st |}.

Definition pair_of (st : local) : string * string := (dataKey st, imgKey st).

(** Lines 402-424: the slot that a validated [key] fills, when it is empty. *)
Definition store (st : local) (key : string) (isImgKey : bool) : option local :=
  if isImgKey then
    if String.eqb (imgKey st) EmptyString
    then Some {| dataKey := dataKey st; imgKey := key; keysFound := keysFound st |}
    else None
  else
    if String.eqb (dataKey st) EmptyString
    then Some {| dataKey := key; imgKey := imgKey st; keysFound := keysFound st |}
    else None.

Inductive scanned : Type :=
| Cancelled   (* [ctx.Done()], the worker returns *)
| BothFound   (* both keys found, the worker returns *)
| Exhausted.  (* [break], the worker takes the next chunk *)

(** A run of the worker: what it read, what it sent, how it ended. *)
Definition run (A : Type) : Type :=
  (list event * list (string * string) * outcome A)%type.

Definition stop {A} (r : outcome A) : run A := ([], [], r).

Definition reading {A} (evs : list event) (r : run A) : run A :=
  let '(trace, sent, res) := r in (evs ++ trace, sent, res).

Definition sending {A} (s : string * string) (r : run A) : run A :=
  let '(trace, sent, res) := r in (trace, s :: sent, res).

(** The inner loop of [worker], lines 377-434, on one chunk. *)
Fixpoint scanChunk (fuel : nat) (w : Windows) (v : Validator)
         (handle : Handle) (memory : list byte) (ctx : Ctx) (st : local)
         (index : Z) : run (local * Ctx * scanned) :=
  match fuel with
  | O => stop NoFuel
  | S fuel' =>
      let '(cancelled, ctx) := Done ctx in
      if cancelled then stop (Ret (st, ctx, Cancelled))
      else
        match slice memory 0 index with
        | Ret head =>
            let index := bytes.LastIndex head keyPattern in
            if (index =? -1) || (index - ptrSize <? 0)
            then stop (Ret (st, ctx, Exhausted))
            else
              match (p <- slice memory (index - ptrSize) index ;;
                     binary.Uint64 p) with
              | Ret ptrValue =>
                  if (ptrValue >? 0x10000) && (ptrValue <? 0x7FFFFFFFFFFF) then
                    if seen st ptrValue
                    then scanChunk fuel' w v handle memory ctx st (index - 1)
                    else
                      let st := mark st ptrValue in
                      let '(reads, validated) := validateKey w v handle ptrValue in
                      reading reads
                      match validated with
                      | Ret (key, isImgKey) =>
                          if negb (String.eqb key EmptyString) then
                            match store st key isImgKey with
                            | Some st' =>
                                let '(cancelled, ctx) := Done ctx in
                                if cancelled then stop (Ret (st', ctx, Cancelled))
                                else
                                  sending (pair_of st')
                                  (if V4Worker.both (pair_of st')
                                   then stop (Ret (st', ctx, BothFound))
                                   else scanChunk fuel' w v handle memory ctx
                                                  st' (index - 1))
                            | None =>
                                if V4Worker.both (pair_of st)
                                then stop (Ret (st, ctx, BothFound))
                                else scanChunk fuel' w v handle memory ctx st
                                               (index - 1)
                            end
                          else scanChunk fuel' w v handle memory ctx st (index - 1)
                      | Panic => stop Panic
                      | NoFuel => stop NoFuel
                      end
                  else scanChunk fuel' w v handle memory ctx st (index - 1)
              | Panic => stop Panic
              | NoFuel => stop NoFuel
              end
        | Panic => stop Panic
        | NoFuel => stop NoFuel
        end
  end.

(** [worker], lines 360-436, on the chunks it receives; [ready] tells
    whether [resultChannel] has room for the last, non-blocking send. *)
Fixpoint worker (w : Windows) (v : Validator) (handle : Handle) (ctx : Ctx)
         (ready : bool) (chunks : list (list byte)) (st : local)
  : run (local * scanned) :=
  let '(cancelled, ctx) := Done ctx in
  if cancelled then stop (Ret (st, Cancelled))
  else
    match chunks with
    | [] =>
        if (V4.filled (dataKey st) || V4.filled (imgKey st)) && ready
        then sending (pair_of st) (stop (Ret (st, Exhausted)))
        else stop (Ret (st, Exhausted))
    | memory :: rest =>
        let '(trace, sent, res) :=
          scanChunk (S (List.length memory)) w v handle memory ctx st
                    (len memory) in
        match res with
        | Ret (st', ctx, Exhausted) =>
            let '(trace', sent', res') := worker w v handle ctx ready rest st' in
            (trace ++ trace', sent ++ sent', res')
        | Ret (st', _, how) => (trace, sent, Ret (st', how))
        | Panic => (trace, sent, Panic)
        | NoFuel => (trace, sent, NoFuel)
        end
    end.

(** The addresses handed to [ReadProcessMemory] in a trace. *)
Fixpoint readsOf (trace : list event) : list Z :=
  match trace with
  | [] => []
  | EvReadProcessMemory addr _ :: rest => addr :: readsOf rest
  | _ :: rest => readsOf rest
  end.

End V4Old.

(** ** [main] of [cmd/v4getKey] *)

Module Main.

(** What [flag.Parse] makes of the command line; the flag set is
    [flag.CommandLine], whose error handling is [flag.ExitOnError]. *)
Inductive parsed : Type :=
| BadFlag          (* undefined flag or malformed value: [os.Exit(2)] *)
| Help             (* [-h] or [-help], not defined as flags: [os.Exit(0)] *)
| Flags (pid : Z). (* the value of [*pid], 0 unless [-pid] is given *)

(** What [main] writes to standard output. *)
Inductive printed : Type :=
| AskForPid        (* "请指定微信进程PID" and the two usage lines *)
| Usage            (* the two usage lines *)
| Header           (* "=== Windows V4 微信密钥提取结果 ===" *)
| DataKeyLine (key : string)
| ImgKeyLine (key : string)
| NoKeyLine.       (* "未找到有效密钥" *)

(** [main], lines 17-73: [args] is what [flag.Parse] finds, [newValidator]
    the result of [decrypt.NewValidator] ([None] for an error), [extract]
    the call of [extractor.Extract] on the process.  The result is what is
    written to standard output and the exit status of the process: a panic
    in a goroutine ends the process with status 2, and the process does not
    end while [Extract] does not return. *)
Definition main (args : parsed) (newValidator : option Validator)
           (extract : Validator -> Process
                      -> outcome (string * string * option error))
  : list printed * outcome Z :=
  match args with
  | BadFlag => ([], Ret 2)
  | Help => ([], Ret 0)
  | Flags pid =>
      if pid =? 0 then ([AskForPid], Ret 1)
      else
        match newValidator with
        | None => ([Usage], Ret 1)
        | Some validator =>
            let proc := {| PID := pid mod 2 ^ 32; Status := StatusOnline |} in
            match extract validator proc with
            | Ret (_, Some _) => ([], Ret 1)
            | Ret ((dataKey, imgKey), None) =>
                let out :=
                  [Header]
                    ++ (if V4.filled dataKey then [DataKeyLine dataKey] else [])
                    ++ (if V4.filled imgKey then [ImgKeyLine imgKey] else []) in
                if negb (V4.filled dataKey) && negb (V4.filled imgKey)
                then (out ++ [NoKeyLine], Ret 1)
                else (out, Ret 0)
            | Panic => ([], Ret 2)
            | NoFuel => ([], NoFuel)
            end
        end
  end.

End Main.

(** ** Shape of the results of a search *)

(** A key as the strategies report it: the hex encoding of 32 or 16 bytes. *)
Definition hexKey (key : string) : Prop :=
  exists data, key = hex.EncodeToString data /\ (len data = 32 \/ len data = 16).

(** What a search may return: [("", false)], or a key with [found = true]. *)
Definition keyShaped (r : found_key) : Prop :=
  r = not_found \/ (snd r = true /\ hexKey (fst r)).

Definition shaped (o : outcome found_key) : Prop :=
  match o with
  | Ret r => keyShaped r
  | _ => True
  end.

Definition shapedOption (o : outcome (option found_key)) : Prop :=
  match o with
  | Ret (Some r) => snd r = true /\ hexKey (fst r)
  | _ => True
  end.

(** The 32-byte window of [memory] at offset [i]. *)
Definition window (memory : list byte) (i : Z) : list byte :=
  firstn 32 (skipn (Z.to_nat i) memory).

(** ** Predicates on keys and handles *)

(** [key] is the hex encoding, 64 digits long, of the 32 bytes of a buffer
    that was filled from the target at a pointer in range and that the
    validator accepts as a database key. *)
Definition validatedAt (w : Windows) (v : Validator) (handle : Handle)
           (key : string) : Prop :=
  exists ptr keyData,
    0x10000 < ptr < 0x7FFFFFFFFFFF /\
    readBuffer w handle ptr 0x20 = Some keyData /\
    len keyData = 32 /\
    Validate v keyData = true /\
    key = hex.EncodeToString keyData /\
    String.length key = 64%nat.

(** Whether a call has returned. *)
Definition returned {A} (r : outcome A) : bool :=
  match r with
  | Ret _ => true
  | _ => false
  end.

(** The handles closed in a trace. *)
Fixpoint closesOf (trace : list event) : list Handle :=
  match trace with
  | [] => []
  | EvCloseHandle handle :: rest => handle :: closesOf rest
  | _ :: rest => closesOf rest
  end.

(** A data key of a V4 worker: empty, or hex digits that decode to 32 bytes
    accepted by [Validate]. *)
Definition dataKeyOK (v : Validator) (key : string) : Prop :=
  key = EmptyString \/
  exists keyData,
    hexdec.DecodeString key = Some keyData /\ len keyData = 32 /\
    Validate v keyData = true.

(** An image key of a V4 worker: empty, or hex digits that decode to 16
    bytes which [ValidateImgKey] accepts, alone or as the first half of 32
    bytes. *)
Definition imgKeyOK (v : Validator) (key : string) : Prop :=
  key = EmptyString \/
  exists keyData,
    hexdec.DecodeString key = Some keyData /\ len keyData = 16 /\
    (ValidateImgKey v keyData = true \/
     exists keyData32,
       len keyData32 = 32 /\ ValidateImgKey v keyData32 = true /\
       keyData = firstn 16 keyData32).

Definition slotsOK (v : Validator) (slots : string * string) : Prop :=
  dataKeyOK v (fst slots) /\ imgKeyOK v (snd slots).

(** [later] keeps every key that [earlier] holds. *)
Definition keeps (earlier later : string * string) : Prop :=
  (V4.filled (fst earlier) = true -> fst later = fst earlier) /\
  (V4.filled (snd earlier) = true -> snd later = snd earlier).

(** Number of keys in a pair. *)
Definition keyCount (slots : string * string) : nat :=
  (if V4.filled (fst slots) then 1 else 0)
  + (if V4.filled (snd slots) then 1 else 0).

(** A read of at least one byte that ends at or before [limit]. *)
Definition readBelow (limit : Z) (ev : event) : Prop :=
  match ev with
  | EvReadProcessMemory addr size => 0 < size /\ addr + size <= limit
  | _ => True
  end.

(** The addresses [reads] are new with respect to [known], pairwise
    different, in the range of line 392, and recorded in [known'] when the
    run returns it. *)
Definition readsOnce (known reads : list Z) (known' : option (list Z)) : Prop :=
  NoDup reads /\
  (forall a, In a reads -> ~ In a known /\ 0x10000 < a < 0x7FFFFFFFFFFF) /\
  (forall later, known' = Some later ->
                 forall a, In a known \/ In a reads -> In a later).

(** [keysFound] at the end of a scan or of a worker. *)
Definition foundAfterScan (res : outcome (V4Old.local * Ctx * V4Old.scanned))
  : option (list Z) :=
  match res with
  | Ret (st, _, _) => Some (V4Old.keysFound st)
  | _ => None
  end.

Definition foundAfterWorker (res : outcome (V4Old.local * V4Old.scanned))
  : option (list Z) :=
  match res with
  | Ret (st, _) => Some (V4Old.keysFound st)
  | _ => None
  end.

(** * Properties *)

(** ** Scenario checks *)

Example scenario_memory_len : len Scenario.memory = 0x10200.
Proof. vm_compute. reflexivity. Qed.

Example scenario_base_pattern :
  BasePatternSearch.Search 1 Background Scenario.memory None
  = Ret (Scenario.keyHex, true).
Proof. vm_compute. reflexivity. Qed.

(** Test cases 2, 4 and 5 of [TestV4Extractor_SearchKey]: no key. *)
Example scenario_no_key :
  let e := NewV4Extractor in
  SearchKey e 1 Background Scenario.memory2 (strategies e) = Ret not_found /\
  SearchKey e 1 Background Scenario.memory4 (strategies e) = Ret not_found /\
  SearchKey e 1 Background Scenario.memory5 (strategies e) = Ret not_found.
Proof. vm_compute. auto. Qed.

Example sample_v3_extract :
  snd (V3.Extract (Sample.windows true [Sample.weChatWin]) Sample.validator 10
                  Sample.calm Sample.online)
  = Ret ((Scenario.keyHex, EmptyString), None).
Proof. vm_compute. reflexivity. Qed.

(** ** [bytes.Index] and [bytes.LastIndex] find the first and the last
    instance *)

Section Instances.

Variable sep : list byte.

Lemma Index_from_spec (s : list byte) :
  forall i,
    (bytes.Index_from i s sep = -1 /\ forall k, bytes.occursAt s sep k = false) \/
    (exists k, bytes.Index_from i s sep = i + Z.of_nat k /\
               (k <= List.length s)%nat /\ bytes.occursAt s sep k = true /\
               forall j, (j < k)%nat -> bytes.occursAt s sep j = false).
Proof.
  unfold bytes.occursAt.
  induction s as [|b s IH]; intros i; cbn [bytes.Index_from].
  - destruct (bytes.HasPrefix [] sep) eqn:Hp.
    + right. exists 0%nat.
      repeat split; auto; try lia; try (intros j Hj; lia).
    + left. split; [reflexivity|]. intros k. now rewrite skipn_nil.
  - destruct (bytes.HasPrefix (b :: s) sep) eqn:Hp.
    + right. exists 0%nat. cbn [skipn List.length].
      repeat split; auto; try lia; try (intros j Hj; lia).
    + destruct (IH (i + 1)) as [[Hnone Hall] | (k & Hk & Hlen & Hocc & Hmin)].
      * left. split; [exact Hnone|]. intros [|k]; [exact Hp | apply Hall].
      * right. exists (S k). cbn [skipn List.length].
        repeat split; auto; try lia;
          try (intros [|j] Hj; [exact Hp | apply Hmin; lia]).
Qed.

Lemma LastIndex_from_spec (s : list byte) :
  forall i last,
    (bytes.LastIndex_from i last s sep = last /\ forall k, bytes.occursAt s sep k = false) \/
    (exists k, bytes.LastIndex_from i last s sep = i + Z.of_nat k /\
               (k <= List.length s)%nat /\ bytes.occursAt s sep k = true /\
               forall j, (k < j <= List.length s)%nat -> bytes.occursAt s sep j = false).
Proof.
  unfold bytes.occursAt.
  induction s as [|b s IH]; intros i last; cbn [bytes.LastIndex_from].
  - destruct (bytes.HasPrefix [] sep) eqn:Hp.
    + right. exists 0%nat. cbn [List.length].
      repeat split; auto; try lia; try (intros j Hj; lia).
    + left. split; [reflexivity|]. intros k. now rewrite skipn_nil.
  - destruct (IH (i + 1) (if bytes.HasPrefix (b :: s) sep then i else last))
      as [[Hnone Hall] | (k & Hk & Hlen & Hocc & Hmax)].
    + rewrite Hnone. destruct (bytes.HasPrefix (b :: s) sep) eqn:Hp.
      * right. exists 0%nat. cbn [skipn List.length].
        repeat split; auto; try lia;
          try (intros [|j] Hj; [lia | apply Hall]).
      * left. split; [reflexivity|]. intros [|k]; [exact Hp | apply Hall].
    + right. exists (S k). cbn [skipn List.length].
      repeat split; auto; try lia;
        try (intros [|j] Hj; [lia | apply Hmax; lia]).
Qed.

(** [Index] is [-1] when [sep] is not in [s], and else the least offset of an
    instance. *)
Lemma Index_spec (s : list byte) :
  (bytes.Index s sep = -1 /\ forall k, bytes.occursAt s sep k = false) \/
  (exists k, bytes.Index s sep = Z.of_nat k /\ (k <= List.length s)%nat /\
             bytes.occursAt s sep k = true /\
             forall j, (j < k)%nat -> bytes.occursAt s sep j = false).
Proof. exact (Index_from_spec s 0). Qed.

(** [LastIndex] is [-1] when [sep] is not in [s], and else the greatest
    offset of an instance. *)
Lemma LastIndex_spec (s : list byte) :
  (bytes.LastIndex s sep = -1 /\ forall k, bytes.occursAt s sep k = false) \/
  (exists k, bytes.LastIndex s sep = Z.of_nat k /\ (k <= List.length s)%nat /\
             bytes.occursAt s sep k = true /\
             forall j, (k < j <= List.length s)%nat -> bytes.occursAt s sep j = false).
Proof. exact (LastIndex_from_spec s 0 (-1)). Qed.

End Instances.

(** ** The loop combinator and the collecting loop of [SearchKey] *)

Lemma loop_stuck {St R} (body : St -> outcome (flow St R)) (s : St) :
  body s = Ret (Continue s) -> forall fuel, loop fuel body s = NoFuel.
Proof.
  intros Hfix fuel; induction fuel as [|fuel IH]; simpl.
  - reflexivity.
  - rewrite Hfix. exact IH.
Qed.

Lemma loop_enters_stuck {St R} (body : St -> outcome (flow St R)) (s0 s : St) :
  body s0 = Ret (Continue s) -> body s = Ret (Continue s) ->
  forall fuel, loop fuel body s0 = NoFuel.
Proof.
  intros H0 Hfix [|fuel]; simpl.
  - reflexivity.
  - rewrite H0. now apply loop_stuck.
Qed.

Lemma collect_found (k : string) (arrivals : list (outcome found_key)) :
  Forall (fun o => o = Ret (k, true) \/ o = Ret not_found) arrivals ->
  In (Ret (k, true)) arrivals ->
  collect arrivals = Ret (k, true).
Proof.
  induction 1 as [|o rest Ho _ IH]; intros Hin.
  - destruct Hin.
  - destruct Ho as [-> | ->]; simpl.
    + reflexivity.
    + destruct Hin as [Heq | Hin]; [discriminate Heq | now apply IH].
Qed.

Lemma collect_panic (arrivals : list (outcome found_key)) :
  Forall (fun o => o = Panic \/ o = Ret not_found) arrivals ->
  In Panic arrivals ->
  collect arrivals = Panic.
Proof.
  induction 1 as [|o rest Ho _ IH]; intros Hin.
  - destruct Hin.
  - destruct Ho as [-> | ->]; simpl.
    + reflexivity.
    + destruct Hin as [Heq | Hin]; [discriminate Heq | now apply IH].
Qed.

Lemma arrivals_of_permutation (e : V4Extractor) (run : SearchStrategy -> outcome found_key)
      (arrival : list SearchStrategy) (P : outcome found_key -> Prop) (o : outcome found_key) :
  Permutation arrival (strategies e) ->
  Forall P (map run (strategies e)) ->
  In o (map run (strategies e)) ->
  Forall P (map run arrival) /\ In o (map run arrival).
Proof.
  intros Hperm Hall Hin.
  assert (Hmap : Permutation (map run (strategies e)) (map run arrival))
    by (apply Permutation_map, Permutation_sym, Hperm).
  split.
  - eapply Permutation_Forall; eassumption.
  - eapply Permutation_in; eassumption.
Qed.

(** ** The end-to-end scenario of the test (C4) *)

Lemma HasPrefix_firstn (sep s : list byte) :
  firstn (List.length sep) s = sep -> bytes.HasPrefix s sep = true.
Proof.
  revert s. induction sep as [|p sep IH]; intros s Heq;
    [destruct s; reflexivity|].
  destruct s as [|b s]; [discriminate Heq|].
  cbn [List.length firstn] in Heq. injection Heq as -> Hrest.
  cbn [bytes.HasPrefix]. rewrite (Byte.byte_dec_lb (eq_refl p)).
  now apply IH.
Qed.

Lemma slice_occurs (s sep : list byte) (lo : Z) :
  slice s lo (lo + len sep) = Ret sep ->
  bytes.occursAt s sep (Z.to_nat lo) = true.
Proof.
  unfold slice, bytes.occursAt.
  destruct ((0 <=? lo) && (lo <=? lo + len sep) && (lo + len sep <=? len s));
    [|discriminate].
  intros Heq. injection Heq as Heq. apply HasPrefix_firstn.
  replace (Z.to_nat (lo + len sep - lo)) with (List.length sep) in Heq
    by (unfold len; lia).
  exact Heq.
Qed.

Lemma slice_all {A} (s : list A) : slice s 0 (len s) = Ret s.
Proof.
  unfold slice.
  replace (0 <=? 0) with true by reflexivity.
  replace (0 <=? len s) with true by (symmetry; apply Z.leb_le; unfold len; lia).
  replace (len s <=? len s) with true by (symmetry; apply Z.leb_le; lia).
  cbn [andb skipn Z.to_nat]. unfold len.
  rewrite Z.sub_0_r, Nat2Z.id, firstn_all. reflexivity.
Qed.

(** A last instance that is known by its offset. *)
Lemma LastIndex_at (s sep : list byte) (k : nat) :
  bytes.occursAt s sep k = true -> (k <= List.length s)%nat ->
  (forall j, (k < j)%nat -> bytes.occursAt s sep j = false) ->
  bytes.LastIndex s sep = Z.of_nat k.
Proof.
  intros Hocc Hlen Hlast.
  destruct (LastIndex_spec sep s) as [[_ Hnone] | (k' & -> & Hk' & Hocc' & Hmax)].
  - rewrite Hnone in Hocc. discriminate Hocc.
  - destruct (Nat.lt_trichotomy k' k) as [Hlt | [-> | Hgt]]; [|reflexivity|].
    + rewrite Hmax in Hocc by lia. discriminate Hocc.
    + rewrite Hlast in Hocc' by lia. discriminate Hocc'.
Qed.

Lemma Index_absent (s sep : list byte) :
  (forall k, bytes.occursAt s sep k = false) -> bytes.Index s sep = -1.
Proof.
  intros Hnone.
  destruct (Index_spec sep s) as [[Heq _] | (k & _ & _ & Hocc & _)];
    [exact Heq|].
  rewrite Hnone in Hocc. discriminate Hocc.
Qed.

(** Conversely, what [Index] and [LastIndex] compute tells where [sep] is
    not. *)
Lemma Index_none_absent (s sep : list byte) :
  bytes.Index s sep = -1 -> forall k, bytes.occursAt s sep k = false.
Proof.
  intros Heq.
  destruct (Index_spec sep s) as [[_ Hnone] | (k & Hk & _)]; [exact Hnone|].
  rewrite Heq in Hk. lia.
Qed.

Lemma LastIndex_none_after (s sep : list byte) (k : nat) :
  sep <> [] -> bytes.LastIndex s sep = Z.of_nat k ->
  forall j, (k < j)%nat -> bytes.occursAt s sep j = false.
Proof.
  intros Hsep Heq j Hj.
  destruct (LastIndex_spec sep s) as [[Hnone _] | (k' & Hk' & _ & _ & Hmax)].
  - rewrite Hnone in Heq. lia.
  - assert (k' = k) by lia. subst k'.
    destruct (Nat.le_gt_cases j (List.length s)) as [Hin | Hout];
      [apply Hmax; lia|].
    unfold bytes.occursAt. rewrite skipn_all2 by lia.
    destruct sep; [contradiction | reflexivity].
Qed.

Section LastHit.

Variables (memory keyData : list byte).

Hypothesis Hlen : len memory = 0x10200.
Hypothesis Hkey : slice memory 0x10100 (0x10100 + 32) = Ret keyData.
Hypothesis Hptr :
  (p <- slice memory 0x200 0x208 ;; binary.Uint64 p) = Ret 0x10100.
Hypothesis Hsig :
  slice memory 0x208 (0x208 + 24) = Ret BasePatternSearch.keyPattern.
Hypothesis Hlast :
  forall k, 0x208 < Z.of_nat k ->
            bytes.occursAt memory BasePatternSearch.keyPattern k = false.

Lemma base_pattern_last_hit (fuel : nat) :
  BasePatternSearch.Search (S fuel) Background memory None
  = Ret (hex.EncodeToString keyData, true).
Proof.
  assert (Hhit : bytes.LastIndex memory BasePatternSearch.keyPattern = 0x208).
  { change 0x208 with (Z.of_nat 520). apply LastIndex_at.
    - change 520%nat with (Z.to_nat 0x208). apply slice_occurs. exact Hsig.
    - unfold len in Hlen. lia.
    - intros j Hj. apply Hlast. lia. }
  unfold BasePatternSearch.Search. cbn [loop].
  unfold BasePatternSearch.body.
  change (Done Background) with (false, Background).
  cbv beta iota. rewrite slice_all. cbn [bind]. rewrite Hhit.
  change ((0x208 =? -1) || (0x208 - BasePatternSearch.ptrSize <? 0)) with false.
  cbv iota. unfold BasePatternSearch.keyCandidate.
  change (0x208 - BasePatternSearch.ptrSize) with 0x200.
  destruct (slice memory 0x200 0x208) as [p| |]; cbn [bind] in Hptr |- *;
    try discriminate Hptr.
  rewrite Hptr. cbn [bind]. rewrite Hlen.
  change ((int_of_uint64 0x10100 >? 0x10000)
          && (int_of_uint64 0x10100 <? 0x10200 - 0x20)) with true.
  cbv iota.
  change (slice memory (int_of_uint64 0x10100) (int_of_uint64 0x10100 + 0x20))
    with (slice memory 0x10100 (0x10100 + 32)).
  rewrite Hkey. reflexivity.
Qed.

End LastHit.

Section NoMarker.

Variables (memory : list byte) (v : ValidatorPtr).

Hypothesis Hnone :
  forall marker k, In marker markers -> bytes.occursAt memory marker k = false.

Lemma marker_absent (marker : list byte) :
  In marker markers -> bytes.Index memory marker = -1.
Proof. intros Hin. apply Index_absent. intros k. now apply Hnone. Qed.

Lemma setdbkey_no_marker (fuel : nat) :
  SetDBKeyLogSearch.Search (S fuel) Background memory v = Ret not_found.
Proof.
  unfold SetDBKeyLogSearch.Search. cbn [loop].
  unfold SetDBKeyLogSearch.body.
  change (Done Background) with (false, Background).
  cbv beta iota. rewrite slice_all. cbn [bind].
  rewrite marker_absent by (cbn; auto). reflexivity.
Qed.

Lemma sqlite_no_marker (fuel : nat) :
  SQLiteSafetySearch.Search (S fuel) Background memory v = Ret not_found.
Proof.
  unfold SQLiteSafetySearch.Search. cbn [loop].
  unfold SQLiteSafetySearch.body.
  change (Done Background) with (false, Background).
  cbv beta iota. rewrite slice_all. cbn [bind].
  rewrite marker_absent by (cbn; auto). reflexivity.
Qed.

Lemma weixin_round_no_marker (fuel : nat) (pattern : list byte) :
  In pattern WeixinDLLSearch.weixinDLLPatterns ->
  loop (S fuel) (WeixinDLLSearch.patternBody memory v pattern) (0, Background)
  = Ret (None, Background).
Proof.
  intros Hin. cbn [loop]. unfold WeixinDLLSearch.patternBody.
  change (Done Background) with (false, Background).
  cbv beta iota. rewrite slice_all. cbn [bind].
  rewrite marker_absent by (right; right; exact Hin). reflexivity.
Qed.

Lemma weixin_no_marker (fuel : nat) :
  WeixinDLLSearch.Search (S fuel) Background memory v = Ret not_found.
Proof.
  unfold WeixinDLLSearch.Search.
  assert (Hall : forall patterns,
             incl patterns WeixinDLLSearch.weixinDLLPatterns ->
             WeixinDLLSearch.searchPatterns (S fuel) Background memory v patterns
             = Ret not_found).
  { induction patterns as [|pattern more IH]; intros Hincl; [reflexivity|].
    cbn [WeixinDLLSearch.searchPatterns].
    rewrite weixin_round_no_marker by (apply Hincl; left; reflexivity).
    cbn [bind]. apply IH. intros p Hp. apply Hincl. right; exact Hp. }
  apply Hall. apply incl_refl.
Qed.

End NoMarker.

(** C4, as the code has it. On a chunk of 0x10200 bytes that holds 32 key
    bytes at 0x10100, the little-endian pointer 0x10100 at 0x200 and the
    BasePattern signature at 0x208, [SearchKey] without a validator returns
    the hex encoding of the key and [found = true], in whatever order the
    four strategies deliver, provided that the signature at 0x208 is the
    last one in the chunk and that none of the markers of the other three
    strategies is in the chunk.  The search starts from the last signature
    and takes what its pointer designates, and a marker strategy may answer
    first, so the four facts alone do not fix the result. *)
Theorem searchkey_scenario_base_pattern (memory keyData : list byte)
        (fuel : nat) (arrival : list SearchStrategy) :
  Permutation arrival (strategies NewV4Extractor) ->
  len memory = 0x10200 ->
  slice memory 0x10100 (0x10100 + 32) = Ret keyData ->
  (p <- slice memory 0x200 0x208 ;; binary.Uint64 p) = Ret 0x10100 ->
  slice memory 0x208 (0x208 + 24) = Ret BasePatternSearch.keyPattern ->
  (forall k, 0x208 < Z.of_nat k ->
             bytes.occursAt memory BasePatternSearch.keyPattern k = false) ->
  (forall marker k, In marker markers ->
                    bytes.occursAt memory marker k = false) ->
  SearchKey NewV4Extractor (S fuel) Background memory arrival
  = Ret (hex.EncodeToString keyData, true).
Proof.
  intros Hperm Hlen Hkey Hptr Hsig Hlast Hnone.
  assert (Hout : map (fun s => Search s (S fuel) Background memory None)
                     (strategies NewV4Extractor)
                 = [Ret (hex.EncodeToString keyData, true); Ret not_found;
                    Ret not_found; Ret not_found]).
  { cbn [map strategies NewV4Extractor Search basePatternSearch
         setDBKeyLogSearch sqliteSafetySearch weixinDLLSearch].
    rewrite (base_pattern_last_hit memory keyData Hlen Hkey Hptr Hsig Hlast).
    rewrite (setdbkey_no_marker memory None Hnone).
    rewrite (sqlite_no_marker memory None Hnone).
    rewrite (weixin_no_marker memory None Hnone).
    reflexivity. }
  unfold SearchKey.
  change (validator NewV4Extractor) with (@None Validator).
  destruct (arrivals_of_permutation NewV4Extractor
              (fun s => Search s (S fuel) Background memory None)
              arrival
              (fun o => o = Ret (hex.EncodeToString keyData, true)
                        \/ o = Ret not_found)
              (Ret (hex.EncodeToString keyData, true)) Hperm) as [Hall Hin].
  - rewrite Hout. repeat (apply Forall_cons; [auto|]). apply Forall_nil.
  - rewrite Hout. left; reflexivity.
  - now apply collect_found.
Qed.

Lemma searchkey_scenario_base_pattern_witness :
  len Scenario.memory = 0x10200 /\
  slice Scenario.memory 0x10100 (0x10100 + 32) = Ret Scenario.keyData /\
  slice Scenario.memory 0x208 (0x208 + 24) = Ret BasePatternSearch.keyPattern /\
  hex.EncodeToString Scenario.keyData = Scenario.keyHex /\
  SearchKey NewV4Extractor 1 Background Scenario.memory
            (strategies NewV4Extractor)
  = Ret (hex.EncodeToString Scenario.keyData, true).
Proof.
  assert (Hlen : len Scenario.memory = 0x10200) by (vm_compute; reflexivity).
  assert (Hkey : slice Scenario.memory 0x10100 (0x10100 + 32)
                 = Ret Scenario.keyData) by (vm_compute; reflexivity).
  assert (Hptr : (p <- slice Scenario.memory 0x200 0x208 ;; binary.Uint64 p)
                 = Ret 0x10100) by (vm_compute; reflexivity).
  assert (Hsig : slice Scenario.memory 0x208 (0x208 + 24)
                 = Ret BasePatternSearch.keyPattern) by (vm_compute; reflexivity).
  assert (Hlast : forall k, 0x208 < Z.of_nat k ->
             bytes.occursAt Scenario.memory BasePatternSearch.keyPattern k
             = false).
  { intros k Hk. apply (LastIndex_none_after _ _ 520); [discriminate | | lia].
    vm_compute. reflexivity. }
  assert (Hnone : forall marker k, In marker markers ->
                    bytes.occursAt Scenario.memory marker k = false).
  { intros marker k Hin. apply Index_none_absent.
    cbn in Hin.
    destruct Hin as [<- | [<- | [<- | [<- | [<- | []]]]]];
      vm_compute; reflexivity. }
  split; [exact Hlen|]. split; [exact Hkey|]. split; [exact Hsig|].
  split; [vm_compute; reflexivity|].
  exact (searchkey_scenario_base_pattern Scenario.memory Scenario.keyData 0
           (strategies NewV4Extractor) (Permutation_refl _)
           Hlen Hkey Hptr Hsig Hlast Hnone).
Defined.

(** The four facts of the scenario hold, and the search returns another
    key: with a second signature at 0x308, behind the pointer 0x10120, the
    search takes the 32 bytes at 0x10120. *)
Lemma searchkey_scenario_later_signature_wins :
  exists memory : list byte,
    len memory = 0x10200 /\
    slice memory 0x10100 (0x10100 + 32) = Ret Scenario.keyData /\
    (p <- slice memory 0x200 0x208 ;; binary.Uint64 p) = Ret 0x10100 /\
    slice memory 0x208 (0x208 + 24) = Ret BasePatternSearch.keyPattern /\
    SearchKey NewV4Extractor 1 Background memory (strategies NewV4Extractor)
    = Ret (hex.EncodeToString (Scenario.make 32), true) /\
    hex.EncodeToString (Scenario.make 32)
    <> hex.EncodeToString Scenario.keyData.
Proof.
  exists Sample.twoSignatures.
  repeat (split; [vm_compute; reflexivity|]).
  vm_compute. discriminate.
Qed.

(** ** Marker strategies on a repeated marker (C5) *)

Lemma setdbkey_round_repeats (v : ValidatorPtr) :
  SetDBKeyLogSearch.body Sample.setDBKeyTwice v (0, Background)
  = Ret (Continue (8, Background)) /\
  SetDBKeyLogSearch.body Sample.setDBKeyTwice v (8, Background)
  = Ret (Continue (8, Background)).
Proof. split; vm_compute; reflexivity. Qed.

Lemma unopened_round_repeats (fuel : nat) (v : ValidatorPtr) :
  SQLiteSafetySearch.body (S fuel) Sample.unopenedTwice v (0, Background)
  = Ret (Continue (8, Background)) /\
  SQLiteSafetySearch.body (S fuel) Sample.unopenedTwice v (8, Background)
  = Ret (Continue (8, Background)).
Proof. split; vm_compute; reflexivity. Qed.

Lemma weixin_round_repeats (v : ValidatorPtr) :
  let pattern := list_byte_of_string "Weixin.dll" in
  WeixinDLLSearch.patternBody Sample.weixinTwice v pattern (0, Background)
  = Ret (Continue (10, Background)) /\
  WeixinDLLSearch.patternBody Sample.weixinTwice v pattern (10, Background)
  = Ret (Continue (10, Background)).
Proof. split; vm_compute; reflexivity. Qed.

(** C5 fails on the code. On a chunk of 32 bytes that holds the marker twice
    in a row ("SetDBKeySetDBKey", "unopenedunopened", "Weixin.dllWeixin.dll",
    then zero bytes), with any validator or none and with a context that is
    never cancelled, each of the three [Search] functions is still in its
    loop after any number of rounds: the index returned by [bytes.Index] on
    [memory[index:]] is taken as an index into [memory], and the loop state
    repeats. *)
Theorem marker_search_repeated_marker_never_returns (fuel : nat)
        (v : ValidatorPtr) :
  SetDBKeyLogSearch.Search fuel Background Sample.setDBKeyTwice v = NoFuel /\
  SQLiteSafetySearch.Search fuel Background Sample.unopenedTwice v = NoFuel /\
  WeixinDLLSearch.Search fuel Background Sample.weixinTwice v = NoFuel.
Proof.
  repeat split.
  - destruct (setdbkey_round_repeats v) as [H0 H8].
    unfold SetDBKeyLogSearch.Search.
    now apply loop_enters_stuck with (s := (8, Background)).
  - unfold SQLiteSafetySearch.Search.
    destruct fuel as [|fuel]; [reflexivity|].
    destruct (unopened_round_repeats fuel v) as [H0 H8].
    now apply loop_enters_stuck with (s := (8, Background)).
  - destruct (weixin_round_repeats v) as [H0 H10].
    unfold WeixinDLLSearch.Search, WeixinDLLSearch.weixinDLLPatterns.
    cbn [map WeixinDLLSearch.searchPatterns].
    rewrite (loop_enters_stuck _ _ _ H0 H10). reflexivity.
Qed.

(** ** Chunks shorter than pointer plus signature (C6) *)

Lemma short_chunk_outcomes (fuel : nat) (v : ValidatorPtr) :
  map (fun s => Search s (S fuel) Background Sample.setDBKeyShort v)
      (strategies NewV4Extractor)
  = [Ret not_found; Panic; Ret not_found; Ret not_found].
Proof. vm_compute. reflexivity. Qed.

(** C6 fails on the code. The chunk "SetDBKeyA" has 9 bytes, fewer than
    8 + 24. With any validator or none, [SetDBKeyLogSearch.Search] panics on
    it: in [findSetDBKeyCall] the bound [uint64(len(fullMemory))-32] wraps
    around, the 8 bytes "SetDBKey" pass the pointer test and
    [fullMemory[ptrValue : ptrValue+32]] is out of range. [SearchKey] then
    does not return [("", false)], in whatever order the strategies deliver. *)
Theorem searchkey_short_chunk_panics (fuel : nat) (v : ValidatorPtr)
        (arrival : list SearchStrategy) :
  Permutation arrival (strategies NewV4Extractor) ->
  len Sample.setDBKeyShort < 8 + len BasePatternSearch.keyPattern /\
  SetDBKeyLogSearch.Search (S fuel) Background Sample.setDBKeyShort v = Panic /\
  SearchKey (SetValidate NewV4Extractor v) (S fuel) Background
            Sample.setDBKeyShort arrival = Panic.
Proof.
  intros Hperm. split; [vm_compute; reflexivity|].
  split; [vm_compute; reflexivity|].
  unfold SearchKey.
  change (validator (SetValidate NewV4Extractor v)) with v.
  destruct (arrivals_of_permutation NewV4Extractor
              (fun s => Search s (S fuel) Background Sample.setDBKeyShort v)
              arrival
              (fun o => o = Panic \/ o = Ret not_found)
              Panic Hperm) as [Hall Hin].
  - rewrite short_chunk_outcomes.
    repeat (apply Forall_cons; [auto|]). apply Forall_nil.
  - rewrite short_chunk_outcomes. right; left; reflexivity.
  - now apply collect_panic.
Qed.

Lemma searchkey_short_chunk_panics_witness :
  SearchKey (SetValidate NewV4Extractor None) 1 Background
            Sample.setDBKeyShort (strategies NewV4Extractor) = Panic.
Proof.
  apply (searchkey_short_chunk_panics 0 None (strategies NewV4Extractor)).
  apply Permutation_refl.
Defined.

(** ** Slices *)

Lemma slice_in_range {A} (s : list A) (lo hi : Z) :
  0 <= lo -> lo <= hi -> hi <= len s ->
  exists part, slice s lo hi = Ret part /\ len part = hi - lo.
Proof.
  intros Hlo Hhi Hlen. unfold slice.
  replace (0 <=? lo) with true by (symmetry; apply Z.leb_le; lia).
  replace (lo <=? hi) with true by (symmetry; apply Z.leb_le; lia).
  replace (hi <=? len s) with true by (symmetry; apply Z.leb_le; lia).
  eexists; split; [reflexivity|].
  unfold len in *. rewrite length_firstn, length_skipn. lia.
Qed.

Lemma slice_out_of_range {A} (s : list A) (lo hi : Z) :
  lo < 0 \/ hi < lo \/ len s < hi -> slice s lo hi = Panic.
Proof.
  intros H. unfold slice.
  destruct (Z.leb_spec 0 lo), (Z.leb_spec lo hi), (Z.leb_spec hi (len s));
    simpl; try reflexivity; lia.
Qed.

Lemma Uint64_defined (b : list byte) :
  len b = 8 -> exists v, binary.Uint64 b = Ret v.
Proof.
  intros H. unfold binary.Uint64. rewrite H. simpl. eexists; reflexivity.
Qed.

(** ** Bounds of the BasePattern candidate (C7) *)

(** C7. At a signature hit [index] that has the 8 pointer bytes before it,
    the 8 bytes [memory[index-8 : index]] are decoded to [ptrOffset]; the
    strategy takes a candidate exactly when
    [0x10000 < ptrOffset < len(memory) - 32], the candidate is then the 32
    bytes [memory[ptrOffset : ptrOffset+32]], which lie inside the chunk; any
    other [ptrOffset], in particular one above [len(memory) - 32], gives no
    candidate, and the slice expression never panics. *)
Theorem base_pattern_candidate_in_bounds (memory : list byte) (index : Z) :
  BasePatternSearch.ptrSize <= index <= len memory ->
  exists p v,
    slice memory (index - 8) index = Ret p /\
    binary.Uint64 p = Ret v /\
    let ptrOffset := int_of_uint64 v in
    (0x10000 < ptrOffset < len memory - 32 ->
     exists keyData,
       BasePatternSearch.keyCandidate memory index = Ret (Some keyData) /\
       slice memory ptrOffset (ptrOffset + 32) = Ret keyData /\
       len keyData = 32 /\ 0 <= ptrOffset /\ ptrOffset + 32 <= len memory) /\
    (~ (0x10000 < ptrOffset < len memory - 32) ->
     BasePatternSearch.keyCandidate memory index = Ret None) /\
    (ptrOffset > len memory - 32 ->
     BasePatternSearch.keyCandidate memory index = Ret None).
Proof.
  unfold BasePatternSearch.ptrSize. intros Hidx.
  destruct (slice_in_range memory (index - 8) index) as (p & Hp & Hlenp); try lia.
  destruct (Uint64_defined p) as (v & Hv); [lia|].
  exists p, v. split; [exact Hp|]. split; [exact Hv|].
  cbv zeta.
  assert (Hcand : BasePatternSearch.keyCandidate memory index
                  = if (int_of_uint64 v >? 0x10000)
                       && (int_of_uint64 v <? len memory - 0x20)
                    then keyData <- slice memory (int_of_uint64 v)
                                          (int_of_uint64 v + 0x20) ;;
                         Ret (Some keyData)
                    else Ret None).
  { unfold BasePatternSearch.keyCandidate, BasePatternSearch.ptrSize.
    rewrite Hp. cbn [bind]. rewrite Hv. reflexivity. }
  assert (Hreject : ~ (0x10000 < int_of_uint64 v < len memory - 32) ->
                    BasePatternSearch.keyCandidate memory index = Ret None).
  { intros Hout. rewrite Hcand.
    destruct (Z.gtb_spec (int_of_uint64 v) 0x10000);
      destruct (Z.ltb_spec (int_of_uint64 v) (len memory - 0x20));
      simpl; try reflexivity; lia. }
  split; [|split].
  - intros Hin.
    destruct (slice_in_range memory (int_of_uint64 v) (int_of_uint64 v + 32))
      as (keyData & Hk & Hlenk); try lia.
    exists keyData. rewrite Hcand.
    replace (int_of_uint64 v >? 0x10000) with true
      by (symmetry; apply Z.gtb_lt; lia).
    replace (int_of_uint64 v <? len memory - 0x20) with true
      by (symmetry; apply Z.ltb_lt; lia).
    cbn [andb]. change 0x20 with 32. rewrite Hk. cbn [bind].
    repeat split; try lia; reflexivity.
  - exact Hreject.
  - intros Hbig. apply Hreject. lia.
Qed.

Lemma base_pattern_candidate_in_bounds_witness :
  BasePatternSearch.ptrSize <= 0x208 <= len Scenario.memory /\
  exists p v,
    slice Scenario.memory (0x208 - 8) 0x208 = Ret p /\
    binary.Uint64 p = Ret v /\
    let ptrOffset := int_of_uint64 v in
    (0x10000 < ptrOffset < len Scenario.memory - 32 ->
     exists keyData,
       BasePatternSearch.keyCandidate Scenario.memory 0x208 = Ret (Some keyData) /\
       slice Scenario.memory ptrOffset (ptrOffset + 32) = Ret keyData /\
       len keyData = 32 /\ 0 <= ptrOffset /\ ptrOffset + 32 <= len Scenario.memory) /\
    (~ (0x10000 < ptrOffset < len Scenario.memory - 32) ->
     BasePatternSearch.keyCandidate Scenario.memory 0x208 = Ret None) /\
    (ptrOffset > len Scenario.memory - 32 ->
     BasePatternSearch.keyCandidate Scenario.memory 0x208 = Ret None).
Proof.
  assert (H : BasePatternSearch.ptrSize <= 0x208 <= len Scenario.memory)
    by (rewrite scenario_memory_len; unfold BasePatternSearch.ptrSize; lia).
  split; [exact H|].
  apply (base_pattern_candidate_in_bounds Scenario.memory 0x208 H).
Defined.

(** The hit of the scenario yields the key bytes as candidate. *)
Example scenario_candidate :
  BasePatternSearch.keyCandidate Scenario.memory 0x208 = Ret (Some Scenario.keyData).
Proof. vm_compute. reflexivity. Qed.

(** ** [bytes.LastIndex] stays inside the slice *)

Lemma HasPrefix_len (s sep : list byte) :
  bytes.HasPrefix s sep = true -> len sep <= len s.
Proof.
  revert s; induction sep as [|p sep IH]; intros s H.
  - unfold len; simpl; lia.
  - destruct s as [|b s]; simpl in H; [discriminate|].
    apply andb_prop in H as [_ H]. apply IH in H.
    unfold len in *; simpl; lia.
Qed.

Lemma LastIndex_from_range (s sep : list byte) (i last : Z) :
  let r := bytes.LastIndex_from i last s sep in
  r = last \/ (i <= r /\ r + len sep <= i + len s).
Proof.
  revert i last; induction s as [|b s IH]; intros i last; cbn zeta.
  - cbn [bytes.LastIndex_from].
    destruct (bytes.HasPrefix [] sep) eqn:Hp; [right|left; reflexivity].
    apply HasPrefix_len in Hp. lia.
  - cbn [bytes.LastIndex_from].
    specialize (IH (i + 1) (if bytes.HasPrefix (b :: s) sep then i else last)).
    cbn zeta in IH.
    assert (Hlen : len (b :: s) = len s + 1) by (unfold len; simpl; lia).
    destruct IH as [IH | IH].
    + rewrite IH. destruct (bytes.HasPrefix (b :: s) sep) eqn:Hp;
        [right|left; reflexivity].
      apply HasPrefix_len in Hp. lia.
    + right. lia.
Qed.

Lemma LastIndex_range (s sep : list byte) :
  bytes.LastIndex s sep = -1 \/
  (0 <= bytes.LastIndex s sep /\ bytes.LastIndex s sep + len sep <= len s).
Proof. apply (LastIndex_from_range s sep 0 (-1)). Qed.

(** On a chunk shorter than pointer plus signature BasePattern finds no hit
    with a full pointer before it, and returns [("", false)]. *)
Lemma base_pattern_short_chunk (fuel : nat) (memory : list byte) (v : ValidatorPtr) :
  len memory < 8 + len BasePatternSearch.keyPattern ->
  BasePatternSearch.Search (S fuel) Background memory v = Ret not_found.
Proof.
  intros Hshort. unfold BasePatternSearch.Search. cbn [loop].
  unfold BasePatternSearch.body. cbn [Background Done].
  destruct (slice_in_range memory 0 (len memory)) as (head & Hhead & Hlen);
    try lia; [unfold len; lia|].
  rewrite Hhead. cbn [bind].
  destruct (LastIndex_range head BasePatternSearch.keyPattern) as [Hnone | [H0 Hfit]].
  - rewrite Hnone. reflexivity.
  - replace (bytes.LastIndex head BasePatternSearch.keyPattern
             - BasePatternSearch.ptrSize <? 0) with true.
    + rewrite orb_true_r. reflexivity.
    + symmetry. apply Z.ltb_lt. unfold BasePatternSearch.ptrSize. lia.
Qed.

(** A hit whose pointer is rejected sets [index] back by 24; from a hit at
    8 to 23 the next round slices [memory[:index]] at a negative index. *)
Example base_pattern_second_round :
  BasePatternSearch.Search 2 Background
    (Scenario.make 8 ++ BasePatternSearch.keyPattern) None = Panic.
Proof. vm_compute. reflexivity. Qed.

(** ** Traces *)

Lemma emit_Forall {A} (P : event -> Prop) (evs : list event) (r : traced A) :
  Forall P evs -> Forall P (fst r) -> Forall P (fst (emit evs r)).
Proof. intros H1 H2. unfold emit. cbn [fst]. apply Forall_app. now split. Qed.

(** ** Pointers read by the V3 worker (C3) *)

Section V3Worker.

Variables (w : Windows) (v : Validator) (handle : Handle) (is64Bit : bool)
          (memory : list byte).

Lemma scanChunk_derefs (fuel : nat) :
  forall ctx ready index,
    Forall derefInRange
           (fst (V3.scanChunk fuel w v handle is64Bit memory ctx ready index)).
Proof.
  induction fuel as [|fuel IH]; intros ctx ready index; cbn [V3.scanChunk].
  - constructor.
  - destruct (Done ctx) as [[|] ctx']; [constructor|].
    destruct (slice memory 0 index) as [head| |]; try constructor.
    destruct ((bytes.LastIndex head (V3.keyPattern is64Bit) =? -1)
              || (bytes.LastIndex head (V3.keyPattern is64Bit)
                  - V3.ptrSize is64Bit <? 0)); [constructor|].
    destruct (bind _ _) as [ptrValue| |]; try constructor.
    destruct (Z.gtb_spec ptrValue 0x10000) as [Hlo|Hlo]; cbn [andb];
      [|apply IH].
    destruct (Z.ltb_spec ptrValue 0x7FFFFFFFFFFF) as [Hhi|Hhi]; [|apply IH].
    unfold V3.validateKey. apply emit_Forall.
    + constructor; [|constructor]. cbn. lia.
    + destruct (negb _); [|apply IH].
      destruct ready as [|[|] ready']; try constructor. apply IH.
Qed.

Lemma littleEndianFunc_defined (p : list byte) :
  len p = V3.ptrSize is64Bit -> exists value, V3.littleEndianFunc is64Bit p = Ret value.
Proof.
  unfold V3.littleEndianFunc, V3.ptrSize, binary.Uint64, binary.Uint32.
  intros ->. destruct is64Bit; eexists; reflexivity.
Qed.

(** The scan of a chunk ends, and without panic, within one round per byte:
    [index] decreases in every round. *)
Lemma scanChunk_returns (fuel : nat) :
  forall ctx ready index,
    0 <= index <= len memory -> index < Z.of_nat fuel ->
    exists r,
      snd (V3.scanChunk fuel w v handle is64Bit memory ctx ready index) = Ret r.
Proof.
  induction fuel as [|fuel IH]; intros ctx ready index Hidx Hfuel; [lia|].
  cbn [V3.scanChunk].
  destruct (Done ctx) as [[|] ctx']; [eexists; reflexivity|].
  destruct (slice_in_range memory 0 index) as (head & Hhead & Hlen); try lia.
  rewrite Hhead.
  assert (Hpat : len (V3.keyPattern is64Bit) = V3.ptrSize is64Bit)
    by (destruct is64Bit; reflexivity).
  assert (Hsize : 4 <= V3.ptrSize is64Bit) by (destruct is64Bit; cbn; lia).
  destruct (LastIndex_range head (V3.keyPattern is64Bit)) as [Hnone | [H0 Hfit]].
  { rewrite Hnone. cbn. eexists; reflexivity. }
  remember (bytes.LastIndex head (V3.keyPattern is64Bit)) as hit eqn:Hhit.
  destruct ((hit =? -1) || (hit - V3.ptrSize is64Bit <? 0)) eqn:Hbreak;
    [eexists; reflexivity|].
  apply orb_false_elim in Hbreak as [_ Hge]. apply Z.ltb_ge in Hge.
  destruct (slice_in_range memory (hit - V3.ptrSize is64Bit) hit)
    as (p & Hp & Hlenp); try lia.
  rewrite Hp. cbn [bind].
  destruct (littleEndianFunc_defined p) as (ptrValue & Hvalue); [lia|].
  rewrite Hvalue.
  assert (Hnext : forall ctx1 ready1,
             exists r,
               snd (V3.scanChunk fuel w v handle is64Bit memory ctx1 ready1
                                 (hit - 1)) = Ret r)
    by (intros; apply IH; lia).
  destruct ((ptrValue >? 0x10000) && (ptrValue <? 0x7FFFFFFFFFFF));
    [|apply Hnext].
  unfold V3.validateKey, emit. cbn [fst snd].
  destruct (negb _); [|apply Hnext].
  destruct ready as [|[|] ready']; try (eexists; reflexivity). apply Hnext.
Qed.

End V3Worker.

Lemma workerChunk_returns (w : Windows) (v : Validator) (handle : Handle)
      (is64Bit : bool) (ctx : Ctx) (ready : list bool) (memory : list byte) :
  exists r, snd (V3.workerChunk w v handle is64Bit ctx ready memory) = Ret r.
Proof.
  unfold V3.workerChunk. apply scanChunk_returns; unfold len; lia.
Qed.

(** C3, as the code has it. Every pointer that a V3 worker reads through
    [ReadProcessMemory] while scanning a chunk is strictly greater than
    0x10000 and strictly less than 0x7FFF'FFFF'FFFF, whatever the width of
    the target, and 32 bytes are read; for a 64-bit target the pointer is
    therefore not above the platform maximum. *)
Theorem v3_worker_deref_bounds (w : Windows) (v : Validator) (handle : Handle)
        (is64Bit : bool) (ctx : Ctx) (ready : list bool) (memory : list byte)
        (addr size : Z) :
  In (EvReadProcessMemory addr size)
     (fst (V3.workerChunk w v handle is64Bit ctx ready memory)) ->
  0x10000 < addr < 0x7FFFFFFFFFFF /\ size = 32 /\
  (is64Bit = true -> addr <= MaxUserAddr is64Bit).
Proof.
  intros Hin. unfold V3.workerChunk in Hin.
  pose proof (scanChunk_derefs w v handle is64Bit memory
                (S (List.length memory)) ctx ready (len memory)) as Hall.
  rewrite Forall_forall in Hall. specialize (Hall _ Hin). cbn in Hall.
  destruct Hall as [Hrange Hsize]. repeat split; try lia.
  intros ->. unfold MaxUserAddr. lia.
Qed.

Lemma v3_worker_deref_bounds_witness :
  0x10000 < 0x20000 < 0x7FFFFFFFFFFF /\ 32 = 32 /\
  (true = true -> 0x20000 <= MaxUserAddr true).
Proof.
  apply (v3_worker_deref_bounds (Sample.windows true [Sample.weChatWin])
           Sample.validator 7 true Background [] Sample.pointer64 0x20000 32).
  vm_compute. left. reflexivity.
Defined.

(** On a 32-bit target the worker reads at 0x80000000, above 0x7FFFFFFF. *)
Lemma v3_worker_reads_above_32bit_maximum :
  exists (w : Windows) (v : Validator) (handle : Handle) (is64Bit : bool)
         (ctx : Ctx) (ready : list bool) (memory : list byte) (addr size : Z),
    In (EvReadProcessMemory addr size)
       (fst (V3.workerChunk w v handle is64Bit ctx ready memory)) /\
    ~ (0x10000 < addr <= MaxUserAddr is64Bit).
Proof.
  exists (Sample.windows false []), Sample.rejectAll, 7, false, Background, [],
         Sample.highPointer32, 0x80000000, 32.
  split.
  - vm_compute. left. reflexivity.
  - unfold MaxUserAddr. lia.
Qed.

(** ** Region enumeration (C9) *)

Section Regions.

Variables (w : Windows) (handle : Handle).

Lemma v3_regions_events (fuel : nat) :
  forall ctx endAddr currentAddr,
    Forall (regionEvent w handle (100 * 1024))
           (fst (V3.regions fuel w ctx handle endAddr currentAddr)).
Proof.
  induction fuel as [|fuel IH]; intros ctx endAddr currentAddr;
    cbn [V3.regions].
  - constructor.
  - destruct (negb (currentAddr <? endAddr)); [constructor|].
    destruct (VirtualQueryEx w handle currentAddr) as [mbi|] eqn:Hquery.
    2: { repeat constructor. }
    apply emit_Forall; [repeat constructor|].
    destruct (Z.ltb_spec (RegionSize mbi) (100 * 1024)) as [Hsmall|Hbig];
      [apply IH|].
    destruct (V3.isWritable w mbi); cbn [andb]; [|apply IH].
    destruct (Z.eqb_spec (State mbi) (MEM_COMMIT w)) as [Hcommit|_];
      [|apply IH].
    apply emit_Forall.
    + apply Forall_cons; [|apply Forall_nil]. cbn. exists mbi. auto.
    + destruct (ReadProcessMemory w handle currentAddr _) as [memory|] eqn:Hread;
        [|apply IH].
      destruct (Done ctx) as [[|] ctx']; [constructor|].
      apply emit_Forall; [|apply IH].
      apply Forall_cons; [|apply Forall_nil]. cbn.
      eexists currentAddr, _, mbi. eauto.
Qed.

Lemma v4_regions_events (fuel : nat) :
  forall ctx maxAddr currentAddr,
    Forall (regionEvent w handle (1024 * 1024))
           (fst (V4.regions fuel w ctx handle maxAddr currentAddr)).
Proof.
  induction fuel as [|fuel IH]; intros ctx maxAddr currentAddr;
    cbn [V4.regions].
  - constructor.
  - destruct (negb (currentAddr <? maxAddr)); [constructor|].
    destruct (Done ctx) as [[|] ctx1]; [constructor|].
    destruct (VirtualQueryEx w handle currentAddr) as [memInfo|] eqn:Hquery.
    2: { repeat constructor. }
    apply emit_Forall; [repeat constructor|].
    destruct (Z.ltb_spec (RegionSize memInfo) (1024 * 1024)) as [Hsmall|Hbig];
      [apply IH|].
    destruct (V4.isPrivateReadWrite w memInfo) eqn:Hfilter; [|apply IH].
    assert (Hcommit : State memInfo = MEM_COMMIT w).
    { unfold V4.isPrivateReadWrite in Hfilter.
      apply andb_prop in Hfilter as [Hfilter _].
      apply andb_prop in Hfilter as [Hfilter _].
      now apply Z.eqb_eq. }
    apply emit_Forall.
    + apply Forall_cons; [|apply Forall_nil]. cbn. exists memInfo. auto.
    + destruct (ReadProcessMemory w handle currentAddr _) as [memory|] eqn:Hread;
        [|apply IH].
      destruct (Done ctx1) as [[|] ctx2]; [constructor|].
      apply emit_Forall; [|apply IH].
      apply Forall_cons; [|apply Forall_nil]. cbn.
      eexists currentAddr, _, memInfo. eauto.
Qed.

Lemma v3_findMemory_events (fuel : nat) (ctx : Ctx) (pid : Z) :
  Forall (regionEvent w handle (100 * 1024))
         (fst (V3.findMemory fuel w ctx handle pid)).
Proof.
  unfold V3.findMemory.
  destruct (V3.FindModule w pid V3.V3ModuleName); [|constructor].
  apply v3_regions_events.
Qed.

Lemma v4_findMemory_events (fuel : nat) (ctx : Ctx) :
  Forall (regionEvent w handle (1024 * 1024))
         (fst (V4.findMemory fuel w ctx handle)).
Proof. unfold V4.findMemory. apply v4_regions_events. Qed.

End Regions.

Lemma chunksOf_In (memory : list byte) (trace : list event) :
  In memory (chunksOf trace) <-> In (EvChunk memory) trace.
Proof.
  induction trace as [|ev trace IH]; [reflexivity|].
  destruct ev; cbn [chunksOf In]; rewrite ?IH;
    (split; [intros H; try (right; exact H)
            |intros [H|H]; [try discriminate H | try exact H]]).
  - destruct H as [->|H]; [left; reflexivity|right; exact H].
  - injection H as ->. left; reflexivity.
  - right; exact H.
Qed.

(** C9. In the V3 enumeration (threshold 100 KiB) and in the V4 enumeration
    (threshold 1 MiB), every [ReadProcessMemory] is at the address of a
    region that [VirtualQueryEx] reports as committed and of at least the
    threshold, every chunk put on the chunk queue was read from such a
    region, and a region below the threshold is never read. *)
Theorem find_memory_skips_small_regions (w : Windows) (handle : Handle)
        (fuel : nat) (ctx : Ctx) (pid : Z) (v4 : bool) :
  let threshold := if v4 then 1024 * 1024 else 100 * 1024 in
  let trace := if v4 then fst (V4.findMemory fuel w ctx handle)
               else fst (V3.findMemory fuel w ctx handle pid) in
  (forall addr size,
      In (EvReadProcessMemory addr size) trace ->
      exists mbi, VirtualQueryEx w handle addr = Some mbi /\
                  threshold <= RegionSize mbi /\ State mbi = MEM_COMMIT w) /\
  (forall memory,
      In memory (chunksOf trace) ->
      exists addr size mbi,
        ReadProcessMemory w handle addr size = Some memory /\
        VirtualQueryEx w handle addr = Some mbi /\
        threshold <= RegionSize mbi /\ State mbi = MEM_COMMIT w) /\
  (forall addr size mbi,
      VirtualQueryEx w handle addr = Some mbi ->
      RegionSize mbi < threshold ->
      ~ In (EvReadProcessMemory addr size) trace).
Proof.
  intros threshold trace.
  assert (Hall : Forall (regionEvent w handle threshold) trace).
  { subst threshold trace. destruct v4.
    - apply v4_findMemory_events.
    - apply v3_findMemory_events. }
  rewrite Forall_forall in Hall.
  assert (Hread : forall addr size,
             In (EvReadProcessMemory addr size) trace ->
             exists mbi, VirtualQueryEx w handle addr = Some mbi /\
                         threshold <= RegionSize mbi /\ State mbi = MEM_COMMIT w).
  { intros addr size Hin. exact (Hall _ Hin). }
  split; [exact Hread|]. split.
  - intros memory Hin. apply chunksOf_In in Hin. exact (Hall _ Hin).
  - intros addr size mbi Hquery Hsmall Hin.
    destruct (Hread addr size Hin) as (mbi' & Hquery' & Hbig & _).
    rewrite Hquery in Hquery'. injection Hquery' as <-. lia.
Qed.

(** In the sample address space the V4 enumeration queries the region of
    960 KiB without reading it, and reads and emits the region of 2 MiB; the
    V3 enumeration reads the module's region. *)
Example sample_regions :
  fst (V4.findMemory 10 (Sample.windows true [Sample.weChatWin]) Background 7)
  = [EvVirtualQueryEx 0x10000; EvVirtualQueryEx 0x100000;
     EvReadProcessMemory 0x100000 0x200000; EvChunk Sample.pointer64;
     EvVirtualQueryEx 0x300000] /\
  fst (V3.findMemory 10 (Sample.windows true [Sample.weChatWin]) Background 7 4242)
  = [EvVirtualQueryEx 0x100000; EvReadProcessMemory 0x100000 0x200000;
     EvChunk Sample.pointer64].
Proof. split; vm_compute; reflexivity. Qed.

(** ** Number of workers (C10) *)

Lemma workers_derefs (w : Windows) (v : Validator) (handle : Handle)
      (is64Bit : bool) (ctx : Ctx) (ready : list bool)
      (chunks : list (list byte)) :
  Forall derefInRange (fst (V3.workers w v handle is64Bit ctx ready chunks)).
Proof.
  induction chunks as [|memory rest IH]; cbn [V3.workers]; [constructor|].
  pose proof (scanChunk_derefs w v handle is64Bit memory
                (S (List.length memory)) ctx ready (len memory)) as Hscan.
  fold (V3.workerChunk w v handle is64Bit ctx ready memory) in Hscan.
  destruct (V3.workerChunk w v handle is64Bit ctx ready memory) as [evs r].
  cbn [fst] in Hscan.
  assert (Happ : Forall derefInRange
                   (evs ++ fst (V3.workers w v handle is64Bit ctx ready rest)))
    by (apply Forall_app; split; assumption).
  destruct r as [[key| |]| |]; exact Happ.
Qed.

Lemma spawnWorkers_count (n : Z) :
  0 <= n -> workersSpawned (spawnWorkers n) = n.
Proof.
  intros Hn. unfold workersSpawned, spawnWorkers.
  assert (Hall : forall l : list nat,
             filter isWorkerGo (map (fun index => EvGo (Worker (Z.of_nat index))) l)
             = map (fun index => EvGo (Worker (Z.of_nat index))) l).
  { induction l as [|i l IH]; [reflexivity|]. cbn. now rewrite IH. }
  rewrite Hall. unfold len. rewrite length_map, length_seq. lia.
Qed.

Lemma workersSpawned_app (t1 t2 : list event) :
  workersSpawned (t1 ++ t2) = workersSpawned t1 + workersSpawned t2.
Proof.
  unfold workersSpawned, len. rewrite filter_app, length_app. lia.
Qed.

Lemma workerCount_clamp (numCPU : Z) :
  workerCount numCPU = Z.min (Z.max numCPU 2) 16 /\
  (2 <= numCPU <= 16 -> workerCount numCPU = numCPU) /\
  (numCPU < 2 -> workerCount numCPU = 2) /\
  (numCPU > 16 -> workerCount numCPU = 16).
Proof.
  unfold workerCount, MaxWorkers.
  destruct (Z.ltb_spec numCPU 2);
    [destruct (Z.gtb_spec 2 16) | destruct (Z.gtb_spec numCPU 16)];
    repeat split; intros; lia.
Qed.

Lemma deferClose_spawned {A} (handle : Handle) (r : traced (outcome A)) :
  workersSpawned (fst (deferClose handle r)) = workersSpawned (fst r).
Proof.
  unfold deferClose. destruct (snd r); cbn [fst]; try reflexivity.
  rewrite workersSpawned_app. cbn. lia.
Qed.

(** C10, as the code has it. A call of [Extract] starts worker goroutines
    only when it gets past its set-up: the process is online, the handle is
    opened and, for V3, the architecture is read.  It then starts exactly
    [clamp(NumCPU, 2, 16)] of them: [NumCPU] when [2 <= NumCPU <= 16], 2
    below and 16 above.  Every other call returns before the workers are
    started and starts none. *)
Theorem extract_spawns_clamped_workers (w : Windows) (v : Validator)
        (fuel : nat) (sch : Schedule) (inbox : list V4.received)
        (proc : Process) :
  let W := Z.min (Z.max (NumCPU w) 2) 16 in
  workersSpawned (fst (V3.Extract w v fuel sch proc))
  = match Status proc, OpenProcess w (PID proc) with
    | StatusOnline, Some handle =>
        match Is64Bit w handle with
        | Some _ => W
        | None => 0
        end
    | _, _ => 0
    end /\
  workersSpawned (fst (V4.Extract w inbox proc))
  = match Status proc, OpenProcess w (PID proc) with
    | StatusOnline, Some _ => W
    | _, _ => 0
    end /\
  (2 <= NumCPU w <= 16 -> W = NumCPU w) /\
  (NumCPU w < 2 -> W = 2) /\
  (NumCPU w > 16 -> W = 16).
Proof.
  intros W.
  destruct (workerCount_clamp (NumCPU w)) as (Hclamp & _).
  assert (Hpos : 0 <= workerCount (NumCPU w)) by (rewrite Hclamp; lia).
  fold W in Hclamp.
  split; [|split].
  - unfold V3.Extract. destruct (Status proc); [|reflexivity].
    unfold emit. cbn [fst snd].
    rewrite workersSpawned_app.
    destruct (OpenProcess w (PID proc)) as [handle|]; [|reflexivity].
    rewrite deferClose_spawned.
    destruct (Is64Bit w handle) as [is64Bit|]; [|reflexivity].
    cbn [fst]. rewrite workersSpawned_app.
    rewrite (spawnWorkers_count _ Hpos), Hclamp. cbn. lia.
  - unfold V4.Extract. destruct (Status proc); [|reflexivity].
    unfold emit. cbn [fst snd].
    rewrite workersSpawned_app.
    destruct (OpenProcess w (PID proc)) as [handle|]; [|reflexivity].
    rewrite deferClose_spawned.
    cbn [fst]. rewrite workersSpawned_app.
    rewrite (spawnWorkers_count _ Hpos), Hclamp. cbn. lia.
  - subst W. repeat split; intros; lia.
Qed.

(** A call on an offline process starts no worker, whatever [NumCPU] is. *)
Lemma extract_offline_spawns_no_worker :
  exists (w : Windows) (v : Validator) (fuel : nat) (sch : Schedule)
         (inbox : list V4.received) (proc : Process),
    Z.min (Z.max (NumCPU w) 2) 16 = 8 /\
    workersSpawned (fst (V3.Extract w v fuel sch proc)) = 0 /\
    workersSpawned (fst (V4.Extract w inbox proc)) = 0.
Proof.
  exists (Sample.windows true [Sample.weChatWin]), Sample.validator, 10%nat,
         Sample.calm, [V4.Closed], Sample.offline.
  repeat split.
Qed.

Example sample_extract_spawns_eight :
  workersSpawned
    (fst (V4.Extract (Sample.windows true [Sample.weChatWin]) [V4.Closed]
                     Sample.online)) = 8 /\
  workersSpawned
    (fst (V3.Extract (Sample.windows true [Sample.weChatWin]) Sample.validator
                     10 Sample.calm Sample.online)) = 8.
Proof. split; vm_compute; reflexivity. Qed.

(** ** Offline process (C8) *)

(** C8. For a process whose status is Offline, the V3 and the V4 [Extract]
    return [ErrWeChatOffline] with both keys empty, and nothing has been
    done before: no handle is opened, no goroutine started. *)
Theorem extract_offline (w : Windows) (v : Validator) (fuel : nat)
        (sch : Schedule) (inbox : list V4.received) (proc : Process) :
  Status proc = StatusOffline ->
  V3.Extract w v fuel sch proc
  = ([], Ret ((EmptyString, EmptyString), Some ErrWeChatOffline)) /\
  V4.Extract w inbox proc
  = ([], Ret ((EmptyString, EmptyString), Some ErrWeChatOffline)) /\
  (forall pid, ~ In (EvOpenProcess pid) (fst (V3.Extract w v fuel sch proc))) /\
  (forall pid, ~ In (EvOpenProcess pid) (fst (V4.Extract w inbox proc))).
Proof.
  intros Hoff. unfold V3.Extract, V4.Extract. rewrite Hoff.
  repeat split; intros pid [].
Qed.

Lemma extract_offline_witness :
  V3.Extract (Sample.windows true [Sample.weChatWin]) Sample.validator 10
             Sample.calm Sample.offline
  = ([], Ret ((EmptyString, EmptyString), Some ErrWeChatOffline)).
Proof.
  apply (extract_offline (Sample.windows true [Sample.weChatWin])
           Sample.validator 10 Sample.calm [V4.Closed] Sample.offline).
  reflexivity.
Defined.

(** ** Missing module (C2) *)

(** C2, as the code has it. When WeChatWin.dll is not among the modules of a
    live process, [findMemory] returns [ErrWeChatDLLNotFound] without sending
    a chunk; the producer goroutine of [Extract] only logs that error and
    [Extract] never returns it: once the handle is opened and the
    architecture read, and unless the caller's context is done, it returns
    [ErrNoValidKey] with both keys empty. *)
Theorem v3_extract_missing_module (w : Windows) (v : Validator) (fuel : nat)
        (sch : Schedule) (proc : Process) :
  Status proc = StatusOnline ->
  V3.FindModule w (PID proc) V3.V3ModuleName = None ->
  (forall ctx handle,
      V3.findMemory fuel w ctx handle (PID proc)
      = ([], Ret (Some ErrWeChatDLLNotFound))) /\
  (forall keys,
      snd (V3.Extract w v fuel sch proc)
      <> Ret (keys, Some ErrWeChatDLLNotFound)) /\
  (forall handle is64Bit,
      OpenProcess w (PID proc) = Some handle ->
      Is64Bit w handle = Some is64Bit ->
      V3.producer fuel w (producerCtx sch) handle (PID proc)
      = ([EvLogErr ErrWeChatDLLNotFound], Ret tt) /\
      snd (V3.Extract w v fuel sch proc)
      = Ret ((EmptyString, EmptyString),
             Some (if mainDone sch then ErrContext else ErrNoValidKey))).
Proof.
  intros Honline Hmissing.
  assert (Hfind : forall ctx handle,
             V3.findMemory fuel w ctx handle (PID proc)
             = ([], Ret (Some ErrWeChatDLLNotFound)))
    by (intros; unfold V3.findMemory; now rewrite Hmissing).
  assert (Hprod : forall ctx handle,
             V3.producer fuel w ctx handle (PID proc)
             = ([EvLogErr ErrWeChatDLLNotFound], Ret tt))
    by (intros; unfold V3.producer; rewrite Hfind; reflexivity).
  split; [exact Hfind|].
  unfold V3.Extract. rewrite Honline.
  split.
  - intros keys.
    destruct (OpenProcess w (PID proc)) as [handle|]; [|cbn; discriminate].
    destruct (Is64Bit w handle) as [is64Bit|]; [|cbn; discriminate].
    rewrite Hprod. cbn. destruct (mainDone sch); cbn; discriminate.
  - intros handle is64Bit Hopen H64. rewrite Hopen, H64, Hprod.
    split; [reflexivity|].
    cbn. destruct (mainDone sch); reflexivity.
Qed.

Lemma v3_extract_missing_module_witness :
  Status Sample.online = StatusOnline /\
  V3.FindModule (Sample.windows true [Sample.otherModule]) (PID Sample.online)
                V3.V3ModuleName = None /\
  snd (V3.Extract (Sample.windows true [Sample.otherModule])
                  Sample.validator 10 Sample.calm Sample.online)
  = Ret ((EmptyString, EmptyString), Some ErrNoValidKey).
Proof.
  split; [reflexivity|]. split; [reflexivity|].
  destruct (v3_extract_missing_module
              (Sample.windows true [Sample.otherModule]) Sample.validator 10
              Sample.calm Sample.online eq_refl eq_refl)
    as (_ & _ & Hextract).
  destruct (Hextract 7 true eq_refl eq_refl) as [_ Hresult].
  exact Hresult.
Defined.

(** With the module absent [Extract] answers [ErrNoValidKey], not
    [ErrWeChatDLLNotFound]. *)
Lemma v3_extract_missing_module_not_reported :
  exists (w : Windows) (v : Validator) (fuel : nat) (sch : Schedule)
         (proc : Process),
    Status proc = StatusOnline /\
    V3.FindModule w (PID proc) V3.V3ModuleName = None /\
    snd (V3.Extract w v fuel sch proc)
    = Ret ((EmptyString, EmptyString), Some ErrNoValidKey) /\
    snd (V3.Extract w v fuel sch proc)
    <> Ret ((EmptyString, EmptyString), Some ErrWeChatDLLNotFound).
Proof.
  exists (Sample.windows true [Sample.otherModule]), Sample.validator, 10%nat,
         Sample.calm, Sample.online.
  repeat split; vm_compute; discriminate.
Qed.

(** ** Merging of results in the V4 coordinator (C1) *)

Lemma filled_false (key : string) : V4.filled key = false <-> key = EmptyString.
Proof.
  unfold V4.filled. rewrite negb_false_iff. apply String.eqb_eq.
Qed.

Lemma filled_true (key : string) : V4.filled key = true <-> key <> EmptyString.
Proof.
  unfold V4.filled. rewrite negb_true_iff. apply String.eqb_neq.
Qed.

Section Slot.

(** One of the two slots: [fst] for [finalDataKey], [snd] for
    [finalImgKey]. *)
Variable proj : string * string -> string.

Hypothesis merge_proj :
  forall final result,
    proj (V4.merge final result)
    = if V4.filled (proj result) then proj result else proj final.

Lemma latest_none (final : string * string) :
  latest proj final [] (proj final).
Proof. left. split; [reflexivity|]. intros r []. Qed.

Lemma latest_step (final result : string * string)
      (consumed : list (string * string)) (value : string) :
  latest proj (V4.merge final result) consumed value ->
  latest proj final (result :: consumed) value.
Proof.
  intros [[Hval Hnone] | (earlier & r & later & -> & Hr & Hval & Hlater)].
  - rewrite merge_proj in Hval.
    destruct (V4.filled (proj result)) eqn:Hf.
    + right. exists [], result, consumed.
      repeat split; auto. now apply filled_true.
    + left. split; [exact Hval|].
      intros r [<- | Hin]; [now apply filled_false | now apply Hnone].
  - right. exists (result :: earlier), r, later. repeat split; auto.
Qed.

Lemma latest_facts (final : string * string)
      (consumed : list (string * string)) (value : string) :
  latest proj final consumed value ->
  (proj final <> EmptyString -> value <> EmptyString) /\
  (value <> proj final ->
   value <> EmptyString /\ exists r, In r consumed /\ proj r = value) /\
  ((forall r, In r consumed -> proj r <> EmptyString -> proj r = proj final) ->
   value = proj final).
Proof.
  intros [[-> Hnone] | (earlier & r & later & -> & Hr & -> & Hlater)].
  - split; [auto|]. split; [intros Hne; contradiction | reflexivity].
  - assert (Hin : In r (earlier ++ r :: later))
      by (apply in_or_app; right; left; reflexivity).
    split; [auto|]. split.
    + intros _. split; [exact Hr|]. exists r. auto.
    + intros Hsame. now apply Hsame.
Qed.

End Slot.

Lemma merge_fst (final result : string * string) :
  fst (V4.merge final result)
  = if V4.filled (fst result) then fst result else fst final.
Proof. reflexivity. Qed.

Lemma merge_snd (final result : string * string) :
  snd (V4.merge final result)
  = if V4.filled (snd result) then snd result else snd final.
Proof. reflexivity. Qed.

(** What the loop has received when it returns keys: results, and then
    either the end of the channel or the result that completes the pair. *)
Lemma coordinator_latest (inbox : list V4.received) :
  forall final keys,
    V4.coordinator inbox final = Ret (keys, None) ->
    exists consumed rest,
      inbox = map V4.Result consumed ++ rest /\
      ((exists more, rest = V4.Closed :: more) \/
       (consumed <> [] /\ fst keys <> EmptyString /\ snd keys <> EmptyString)) /\
      latest fst final consumed (fst keys) /\
      latest snd final consumed (snd keys).
Proof.
  induction inbox as [|[result| |] more IH]; intros final keys Hret;
    cbn [V4.coordinator] in Hret; try discriminate Hret.
  - destruct (V4.filled (fst (V4.merge final result))
              && V4.filled (snd (V4.merge final result))) eqn:Hboth.
    + injection Hret as <-. apply andb_prop in Hboth as [Hd Hi].
      exists [result], more. split; [reflexivity|].
      split; [right; repeat split;
              [discriminate | now apply filled_true | now apply filled_true]|].
      split; apply latest_step; auto using merge_fst, merge_snd, latest_none.
    + destruct (IH _ _ Hret) as (consumed & rest & -> & Hstop & Hfst & Hsnd).
      exists (result :: consumed), rest. split; [reflexivity|].
      split.
      * destruct Hstop as [Hclosed | (_ & Hd & Hi)]; [left; exact Hclosed|].
        right. repeat split; auto. discriminate.
      * split; apply latest_step; auto using merge_fst, merge_snd.
  - destruct (V4.filled (fst final) || V4.filled (snd final));
      [|discriminate Hret].
    injection Hret as <-. exists [], (V4.Closed :: more).
    split; [reflexivity|]. split; [left; eexists; reflexivity|].
    split; apply latest_none.
Qed.

(** The loop that has received the results [before] without returning goes
    on from the state that holds, for each slot, the latest non-empty value
    among them. *)
Lemma coordinator_resumes (before : list (string * string)) :
  forall final,
    (exists r, forall inbox,
        V4.coordinator (map V4.Result before ++ inbox) final = Ret r) \/
    (exists state,
        latest fst final before (fst state) /\
        latest snd final before (snd state) /\
        forall inbox,
          V4.coordinator (map V4.Result before ++ inbox) final
          = V4.coordinator inbox state).
Proof.
  induction before as [|result before IH]; intros final.
  - right. exists final. repeat split; apply latest_none.
  - cbn [map app V4.coordinator].
    destruct (V4.filled (fst (V4.merge final result))
              && V4.filled (snd (V4.merge final result))).
    + left. eexists. intros inbox. reflexivity.
    + destruct (IH (V4.merge final result))
        as [[r Hr] | (state & Hfst & Hsnd & Hstate)].
      * left. exists r. exact Hr.
      * right. exists state.
        split; [apply latest_step; auto using merge_fst|].
        split; [apply latest_step; auto using merge_snd|].
        exact Hstate.
Qed.

(** C1, as the code has it. Take the loop of [Extract] in any state
    [(finalDataKey, finalImgKey)] and let it return keys.  It has then
    received a sequence of results, followed by the end of the channel or
    ended by the result that gives it both keys, and each slot holds the
    latest non-empty value that these results carry for it, or its former
    value when they carry none.  So a non-empty slot is never emptied, it
    changes only to a non-empty value carried by a later result, and it keeps
    its value when all the non-empty values received for it equal that value;
    but every later non-empty value replaces it: the slot holds the latest
    one, not the first. *)
Theorem coordinator_keeps_latest_filled (inbox : list V4.received)
        (final keys : string * string) :
  V4.coordinator inbox final = Ret (keys, None) ->
  exists consumed rest,
    inbox = map V4.Result consumed ++ rest /\
    ((exists more, rest = V4.Closed :: more) \/
     (consumed <> [] /\ fst keys <> EmptyString /\ snd keys <> EmptyString)) /\
    latest fst final consumed (fst keys) /\
    latest snd final consumed (snd keys) /\
    (fst final <> EmptyString -> fst keys <> EmptyString) /\
    (snd final <> EmptyString -> snd keys <> EmptyString) /\
    (fst keys <> fst final ->
     fst keys <> EmptyString /\
     exists result, In result consumed /\ fst result = fst keys) /\
    (snd keys <> snd final ->
     snd keys <> EmptyString /\
     exists result, In result consumed /\ snd result = snd keys) /\
    ((forall result, In result consumed -> fst result <> EmptyString ->
                     fst result = fst final) ->
     fst keys = fst final) /\
    ((forall result, In result consumed -> snd result <> EmptyString ->
                     snd result = snd final) ->
     snd keys = snd final).
Proof.
  intros Hret.
  destruct (coordinator_latest inbox final keys Hret)
    as (consumed & rest & Hsplit & Hstop & Hfst & Hsnd).
  exists consumed, rest.
  destruct (latest_facts fst final consumed (fst keys) Hfst)
    as (Hkeep1 & Hnew1 & Hsame1).
  destruct (latest_facts snd final consumed (snd keys) Hsnd)
    as (Hkeep2 & Hnew2 & Hsame2).
  repeat (split; [assumption|]). assumption.
Qed.

Lemma coordinator_keeps_latest_filled_witness :
  let inbox := [V4.Result (Scenario.keyHex, EmptyString);
                V4.Result (Sample.otherKeyHex, EmptyString); V4.Closed] in
  let keys := (Sample.otherKeyHex, EmptyString) in
  V4.coordinator inbox V4.keys_empty = Ret (keys, None) /\
  exists consumed rest,
    inbox = map V4.Result consumed ++ rest /\
    latest fst V4.keys_empty consumed (fst keys).
Proof.
  intros inbox keys.
  assert (Hret : V4.coordinator inbox V4.keys_empty = Ret (keys, None))
    by (vm_compute; reflexivity).
  split; [exact Hret|].
  destruct (coordinator_keeps_latest_filled inbox V4.keys_empty keys Hret)
    as (consumed & rest & Hsplit & _ & Hfst & _).
  exists consumed, rest. split; assumption.
Defined.

(** Two workers report different data keys: the first fills the slot, the
    second replaces it, and [Extract] returns the second. *)
Lemma coordinator_replaces_filled_slot :
  exists (first second : string) (keys : string * string),
    first <> EmptyString /\ second <> EmptyString /\ second <> first /\
    V4.coordinator [V4.Result (first, EmptyString); V4.Closed] V4.keys_empty
    = Ret ((first, EmptyString), None) /\
    V4.coordinator [V4.Result (first, EmptyString);
                    V4.Result (second, EmptyString); V4.Closed] V4.keys_empty
    = Ret (keys, None) /\
    fst keys = second /\ fst keys <> first.
Proof.
  exists Scenario.keyHex, Sample.otherKeyHex, (Sample.otherKeyHex, EmptyString).
  split; [vm_compute; discriminate|].
  split; [vm_compute; discriminate|].
  split; [vm_compute; discriminate|].
  split; [vm_compute; reflexivity|].
  split; [vm_compute; reflexivity|].
  split; [reflexivity | vm_compute; discriminate].
Qed.

Example coordinator_returns_second_key :
  snd (V4.Extract (Sample.windows true [])
         [V4.Result (Scenario.keyHex, EmptyString);
          V4.Result (Sample.otherKeyHex, EmptyString); V4.Closed]
         Sample.online)
  = Ret ((Sample.otherKeyHex, EmptyString), None).
Proof. vm_compute. reflexivity. Qed.

(** * Further properties of the code *)

(** ** Hex encoding and decoding *)

Lemma hex_byte_round_trip (b : byte) :
  let n := Byte.to_N b in
  hexdec.fromHexChar (hex.digit (n / 16)) = Some (n / 16)%N /\
  hexdec.fromHexChar (hex.digit (n mod 16)) = Some (n mod 16)%N /\
  Byte.of_N (n / 16 * 16 + n mod 16) = Some b.
Proof. destruct b; vm_compute; auto. Qed.

(** What [hex.EncodeToString] writes, [hex.DecodeString] reads back without
    error; the string has two characters per byte. *)
Lemma hex_round_trip (src : list byte) :
  hexdec.DecodeString (hex.EncodeToString src) = Some src /\
  Z.of_nat (String.length (hex.EncodeToString src)) = 2 * len src.
Proof.
  induction src as [|b src [IHdec IHlen]].
  - split; reflexivity.
  - destruct (hex_byte_round_trip b) as (Hhi & Hlo & Hbyte). cbv zeta in *.
    split.
    + cbn [hex.EncodeToString hexdec.DecodeString].
      rewrite Hhi, Hlo, Hbyte, IHdec. reflexivity.
    + cbn [hex.EncodeToString String.length]. unfold len in *.
      cbn [List.length]. lia.
Qed.

(** A prefix of [2 * n] characters decodes to the first [n] bytes. *)
Lemma hex_decode_prefix (data : list byte) :
  forall (s : string) (n : nat),
    hexdec.DecodeString s = Some data ->
    hexdec.DecodeString (substring 0 (2 * n) s) = Some (firstn n data).
Proof.
  induction data as [|x data IH]; intros s n Hdec.
  - destruct s as [|p [|q rest]]; cbn [hexdec.DecodeString] in Hdec.
    + destruct n; reflexivity.
    + discriminate Hdec.
    + destruct (hexdec.fromHexChar p), (hexdec.fromHexChar q);
        try discriminate Hdec.
      destruct (Byte.of_N _), (hexdec.DecodeString rest); discriminate Hdec.
  - destruct s as [|p [|q rest]]; cbn [hexdec.DecodeString] in Hdec;
      try discriminate Hdec.
    destruct (hexdec.fromHexChar p) as [a|] eqn:Hp; [|discriminate Hdec].
    destruct (hexdec.fromHexChar q) as [b|] eqn:Hq; [|discriminate Hdec].
    destruct (Byte.of_N (a * 16 + b)) as [y|] eqn:Hy; [|discriminate Hdec].
    destruct (hexdec.DecodeString rest) as [more|] eqn:Hrest;
      [|discriminate Hdec].
    injection Hdec as -> ->.
    destruct n as [|n]; [reflexivity|].
    replace (2 * S n)%nat with (S (S (2 * n))) by lia.
    cbn [substring firstn hexdec.DecodeString].
    rewrite Hp, Hq, Hy, (IH rest n Hrest). reflexivity.
Qed.

(** ** [isValidKeyPattern] *)

Lemma isValidKeyPattern_range_spec (firstByte : byte) (data : list byte) :
  forall allZero allSame,
    (let '(z, s) := isValidKeyPattern_range firstByte data allZero allSame in
     negb z && negb s)
    = negb (allZero && forallb (fun b => Byte.eqb b x00) data)
      && negb (allSame && forallb (fun b => Byte.eqb b firstByte) data).
Proof.
  induction data as [|b data IH]; intros allZero allSame;
    cbn [isValidKeyPattern_range forallb].
  - now rewrite !andb_true_r.
  - destruct (Byte.eqb b x00), (Byte.eqb b firstByte), allZero, allSame;
      cbn [negb andb]; try reflexivity; rewrite IH; cbn [negb andb];
      try reflexivity; rewrite ?andb_true_r; reflexivity.
Qed.

(** [isValidKeyPattern] panics on an empty slice; otherwise it accepts the
    data exactly when some byte differs from the first one.  The test for
    all-zero data adds nothing: data that is all zero is all the same. *)
Theorem isValidKeyPattern_accepts_two_values (data : list byte) :
  match data with
  | [] => isValidKeyPattern data = Panic
  | firstByte :: rest =>
      exists ok, isValidKeyPattern data = Ret ok /\
                 (ok = true <-> exists b, In b rest /\ b <> firstByte)
  end.
Proof.
  destruct data as [|firstByte rest]; [reflexivity|].
  unfold isValidKeyPattern.
  pose proof (isValidKeyPattern_range_spec firstByte (firstByte :: rest) true true)
    as Hspec.
  destruct (isValidKeyPattern_range firstByte (firstByte :: rest) true true)
    as [z s'].
  eexists; split; [reflexivity|].
  rewrite Hspec. cbn [andb forallb].
  rewrite (Byte.byte_dec_lb (eq_refl firstByte)). cbn [andb].
  split.
  - intros Hok. apply andb_prop in Hok as [_ Hsame].
    apply negb_true_iff in Hsame.
    destruct (forallb (fun b => Byte.eqb b firstByte) rest) eqn:Hall;
      [discriminate Hsame|].
    assert (Hex : existsb (fun b => negb (Byte.eqb b firstByte)) rest = true).
    { clear -Hall. induction rest as [|b rest IH]; [discriminate Hall|].
      cbn [forallb existsb] in *.
      destruct (Byte.eqb b firstByte); cbn [negb orb andb] in *; auto. }
    apply existsb_exists in Hex as (b & Hin & Hb).
    exists b. split; [exact Hin|].
    apply negb_true_iff in Hb. now apply Byte.eqb_false.
  - intros (b & Hin & Hne).
    assert (Hall : forallb (fun b => Byte.eqb b firstByte) rest = false).
    { destruct (forallb (fun b => Byte.eqb b firstByte) rest) eqn:Hall;
        [|reflexivity].
      rewrite forallb_forall in Hall. specialize (Hall b Hin).
      apply Byte.byte_dec_bl in Hall. contradiction. }
    rewrite Hall. cbn [negb andb]. rewrite andb_true_r.
    destruct (Byte.eqb firstByte x00) eqn:Hzero; [|reflexivity].
    cbn [andb].
    destruct (forallb (fun b => Byte.eqb b x00) rest) eqn:Hz; [|reflexivity].
    apply Byte.byte_dec_bl in Hzero. subst firstByte.
    rewrite forallb_forall in Hz. specialize (Hz b Hin).
    apply Byte.byte_dec_bl in Hz. contradiction.
Qed.

(** ** Loops *)

Lemma slice_returns {A} (s : list A) (lo hi : Z) (part : list A) :
  slice s lo hi = Ret part ->
  0 <= lo /\ lo <= hi /\ hi <= len s /\ len part = hi - lo /\
  part = firstn (Z.to_nat (hi - lo)) (skipn (Z.to_nat lo) s).
Proof.
  unfold slice.
  destruct (Z.leb_spec 0 lo), (Z.leb_spec lo hi), (Z.leb_spec hi (len s));
    cbn [andb]; try discriminate.
  intros Hret; injection Hret as <-.
  repeat split; try lia.
  unfold len in *. rewrite length_firstn, length_skipn. lia.
Qed.

Lemma for_range_first {R} (body : Z -> outcome (option R)) (n : nat) :
  forall i,
    (for_range n i body = Ret None /\
     forall k, (k < n)%nat -> body (i + Z.of_nat k) = Ret None) \/
    (exists k, (k < n)%nat /\
               for_range n i body = body (i + Z.of_nat k) /\
               body (i + Z.of_nat k) <> Ret None /\
               forall j, (j < k)%nat -> body (i + Z.of_nat j) = Ret None).
Proof.
  induction n as [|n IH]; intros i; cbn [for_range].
  - left. split; [reflexivity|]. intros k Hk; lia.
  - destruct (body i) as [[r|]| |] eqn:Hbody.
    2: { destruct (IH (i + 1)) as [[Hnone Hall] | (k & Hk & Heq & Hne & Hmin)].
         - left. split; [exact Hnone|].
           intros [|k] Hk; [now rewrite Z.add_0_r|].
           replace (i + Z.of_nat (S k)) with (i + 1 + Z.of_nat k) by lia.
           apply Hall; lia.
         - right. exists (S k).
           replace (i + Z.of_nat (S k)) with (i + 1 + Z.of_nat k) by lia.
           repeat split; auto; try lia.
           intros [|j] Hj; [now rewrite Z.add_0_r|].
           replace (i + Z.of_nat (S j)) with (i + 1 + Z.of_nat j) by lia.
           apply Hmin; lia. }
    all: right; exists 0%nat; rewrite Z.add_0_r, Hbody;
      repeat split; try lia; try discriminate; intros j Hj; lia.
Qed.

Lemma for_range_all {R} (P : outcome (option R) -> Prop)
      (body : Z -> outcome (option R)) (n : nat) :
  P (Ret None) ->
  forall i,
    (forall k, (k < n)%nat -> P (body (i + Z.of_nat k))) ->
    P (for_range n i body).
Proof.
  intros Hnone. induction n as [|n IH]; intros i Hall; cbn [for_range].
  - exact Hnone.
  - pose proof (Hall 0%nat ltac:(lia)) as H0. rewrite Z.add_0_r in H0.
    destruct (body i) as [[r|]| |]; try exact H0.
    apply IH. intros k Hk.
    replace (i + 1 + Z.of_nat k) with (i + Z.of_nat (S k)) by lia.
    apply Hall; lia.
Qed.

Lemma loop_all {St R} (P : outcome R -> Prop)
      (body : St -> outcome (flow St R)) :
  P NoFuel -> P Panic ->
  (forall s r, body s = Ret (Return r) -> P (Ret r)) ->
  forall fuel s, P (loop fuel body s).
Proof.
  intros Hfuel Hpanic Hret fuel.
  induction fuel as [|fuel IH]; intros s; cbn [loop]; [exact Hfuel|].
  destruct (body s) as [[s'|r]| |] eqn:Hbody; auto.
  eapply Hret; eassumption.
Qed.

(** ** The 32-byte windows tested by the marker strategies *)

Lemma window_slice (memory : list byte) (i : Z) :
  0 <= i -> i + 32 <= len memory ->
  slice memory i (i + 32) = Ret (window memory i) /\ len (window memory i) = 32.
Proof.
  intros H0 Hfit.
  destruct (slice_in_range memory i (i + 32)) as (part & Hpart & Hlen); try lia.
  pose proof (slice_returns _ _ _ _ Hpart) as (_ & _ & _ & _ & Heq).
  replace (Z.to_nat (i + 32 - i)) with 32%nat in Heq by lia.
  unfold window. rewrite <- Heq. split; [exact Hpart | lia].
Qed.

(** [findKeyInRange], the first loop of [findSetDBKeyCall] and the first
    loop of [searchForKeyAroundSQLiteFunction] test the windows at offsets
    [0 .. len(memory)-33] in order and stop at the first that
    [checkKeyData] accepts.  The window in the last 32 bytes of [memory] is
    never tested; a slice of 32 bytes or less has no window at all. *)
Theorem scanKeyWindows_first_accepted (memory : list byte) (v : ValidatorPtr) :
  (len memory <= 32 -> scanKeyWindows memory v = Ret None) /\
  ((forall i, 0 <= i < len memory - 32 ->
              checkKeyData v (window memory i) = Ret None) ->
   scanKeyWindows memory v = Ret None) /\
  (forall r,
      scanKeyWindows memory v = Ret (Some r) ->
      exists i, 0 <= i < len memory - 32 /\
                checkKeyData v (window memory i) = Ret (Some r) /\
                forall j, 0 <= j < i ->
                          checkKeyData v (window memory j) = Ret None).
Proof.
  assert (Hbody : forall i, 0 <= i < len memory - 32 ->
             (keyData <- slice memory i (i + 32) ;; checkKeyData v keyData)
             = checkKeyData v (window memory i)).
  { intros i Hi. destruct (window_slice memory i) as [Hs _]; try lia.
    rewrite Hs. reflexivity. }
  unfold scanKeyWindows, for_upto.
  destruct (for_range_first
              (fun i => keyData <- slice memory i (i + 32) ;;
                        checkKeyData v keyData)
              (Z.to_nat (len memory - 32)) 0)
    as [[Hnone Hall] | (k & Hk & Heq & Hne & Hmin)].
  - split; [intros _; exact Hnone|]. split; [intros _; exact Hnone|].
    intros r Hr. rewrite Hnone in Hr. discriminate Hr.
  - cbn [Z.add] in *.
    assert (Hki : 0 <= Z.of_nat k < len memory - 32) by lia.
    split; [intros Hshort; lia|]. split.
    + intros Hrej. exfalso. apply Hne.
      rewrite (Hbody _ Hki). now apply Hrej.
    + intros r Hr. exists (Z.of_nat k). split; [exact Hki|].
      rewrite Heq, (Hbody _ Hki) in Hr. split; [exact Hr|].
      intros j Hj.
      specialize (Hmin (Z.to_nat j) ltac:(lia)).
      replace (Z.of_nat (Z.to_nat j)) with j in Hmin by lia.
      rewrite <- Hbody by lia. exact Hmin.
Qed.

(** ** Every key a strategy reports is the hex encoding of 32 or 16 bytes *)

Lemma hexKey_of_data (data : list byte) :
  len data = 32 \/ len data = 16 -> hexKey (hex.EncodeToString data).
Proof. intros H. exists data. auto. Qed.

Lemma shaped_found (r : found_key) :
  keyShaped r -> snd r = true -> keyShaped (fst r, true).
Proof.
  intros [-> | [_ Hkey]] Hfound; [discriminate Hfound|].
  right. split; [reflexivity | exact Hkey].
Qed.

Lemma or_not_found_shaped (o : option found_key) :
  shapedOption (Ret o) -> keyShaped (or_not_found o).
Proof. destruct o as [r|]; cbn; [right | left]; auto. Qed.

Lemma validated_shaped (val : Validator) (keyData : list byte) :
  len keyData = 32 ->
  shapedOption
    (if Validate val keyData then Ret (Some (hex.EncodeToString keyData, true))
     else if ValidateImgKey val keyData then
       k16 <- slice keyData 0 16 ;; Ret (Some (hex.EncodeToString k16, true))
     else Ret None).
Proof.
  intros Hlen.
  destruct (Validate val keyData).
  - cbn. split; [reflexivity|]. apply hexKey_of_data. auto.
  - destruct (ValidateImgKey val keyData); [|exact I].
    destruct (slice keyData 0 16) as [k16| |] eqn:Hslice; try exact I.
    apply slice_returns in Hslice as (_ & _ & _ & Hk & _).
    cbn. split; [reflexivity|]. apply hexKey_of_data. right. lia.
Qed.

Lemma checkKeyData_shaped (v : ValidatorPtr) (keyData : list byte) :
  len keyData = 32 -> shapedOption (checkKeyData v keyData).
Proof.
  intros Hlen. unfold checkKeyData.
  destruct v as [val|]; [now apply validated_shaped|].
  destruct (isValidKeyPattern keyData) as [[|]| |]; try exact I.
  cbn. split; [reflexivity|]. apply hexKey_of_data. auto.
Qed.

Lemma base_checkKey_shaped (v : ValidatorPtr) (keyData : list byte) :
  len keyData = 32 -> shapedOption (BasePatternSearch.checkKey v keyData).
Proof.
  intros Hlen. unfold BasePatternSearch.checkKey.
  destruct v as [val|]; [now apply validated_shaped|].
  cbn. split; [reflexivity|]. apply hexKey_of_data. auto.
Qed.

Lemma scanKeyWindows_shaped (memory : list byte) (v : ValidatorPtr) :
  shapedOption (scanKeyWindows memory v).
Proof.
  unfold scanKeyWindows, for_upto. apply for_range_all; [exact I|].
  intros k _. cbn [Z.add].
  destruct (slice memory (Z.of_nat k) (Z.of_nat k + 32)) as [keyData| |] eqn:Hs;
    try exact I.
  apply slice_returns in Hs as (_ & _ & _ & Hlen & _).
  cbn [bind]. apply checkKeyData_shaped. lia.
Qed.

(** A slice [fullMemory[ptrValue : ptrValue+32]] taken with [uint64]
    indices has 32 bytes when it does not panic. *)
Lemma pointer_slice_len (fullMemory keyData : list byte) (ptrValue : Z) :
  slice fullMemory ptrValue (uint64 (ptrValue + 32)) = Ret keyData ->
  len keyData = 32 /\ uint64 (ptrValue + 32) = ptrValue + 32.
Proof.
  intros Hs. apply slice_returns in Hs as (H0 & Hle & _ & Hlen & _).
  unfold uint64 in *.
  pose proof (Z.div_mod (ptrValue + 32) (2 ^ 64) ltac:(lia)) as Hdiv.
  pose proof (Z.mod_pos_bound (ptrValue + 32) (2 ^ 64) ltac:(lia)) as Hmod.
  change (2 ^ 64) with 18446744073709551616 in *.
  assert (Hq : (ptrValue + 32) / 18446744073709551616 = 0) by lia.
  rewrite Hq in Hdiv. lia.
Qed.

Lemma scanKeyPointers_shaped (localMemory fullMemory : list byte)
      (v : ValidatorPtr) :
  shapedOption (scanKeyPointers localMemory fullMemory v).
Proof.
  unfold scanKeyPointers, for_upto. apply for_range_all; [exact I|].
  intros k _. cbn [Z.add].
  destruct (slice localMemory (Z.of_nat k) (Z.of_nat k + 8)) as [p| |];
    try exact I.
  cbn [bind].
  destruct (binary.Uint64 p) as [ptrValue| |]; try exact I.
  cbn [bind].
  destruct ((ptrValue >? 0x10000) && (ptrValue <? uint64 (len fullMemory - 32)));
    [|exact I].
  destruct (slice fullMemory ptrValue (uint64 (ptrValue + 32)))
    as [keyData| |] eqn:Hs; try exact I.
  apply pointer_slice_len in Hs as [Hlen _].
  cbn [bind]. now apply checkKeyData_shaped.
Qed.

Lemma windows_then_pointers_shaped (localMemory fullMemory : list byte)
      (v : ValidatorPtr) :
  shaped (direct <- scanKeyWindows localMemory v ;;
          match direct with
          | Some k => Ret k
          | None =>
              viaPtr <- scanKeyPointers localMemory fullMemory v ;;
              Ret (or_not_found viaPtr)
          end).
Proof.
  pose proof (scanKeyWindows_shaped localMemory v) as Hw.
  destruct (scanKeyWindows localMemory v) as [[r|]| |]; try exact I.
  - right. exact Hw.
  - cbn [bind].
    pose proof (scanKeyPointers_shaped localMemory fullMemory v) as Hp.
    destruct (scanKeyPointers localMemory fullMemory v) as [o| |]; try exact I.
    now apply or_not_found_shaped.
Qed.

Lemma windows_shaped (memory : list byte) (v : ValidatorPtr) :
  shaped (r <- scanKeyWindows memory v ;; Ret (or_not_found r)).
Proof.
  pose proof (scanKeyWindows_shaped memory v) as Hw.
  destruct (scanKeyWindows memory v) as [o| |]; try exact I.
  now apply or_not_found_shaped.
Qed.

Ltac found_or_not H :=
  first [ injection H as <-; left; reflexivity | discriminate H ].

Lemma base_pattern_shaped (fuel : nat) (ctx : Ctx) (memory : list byte)
      (v : ValidatorPtr) :
  shaped (BasePatternSearch.Search fuel ctx memory v).
Proof.
  unfold BasePatternSearch.Search.
  apply (loop_all shaped); try exact I.
  intros [index c] r. unfold BasePatternSearch.body.
  destruct (Done c) as [[|] c']; intros H; [found_or_not H|].
  destruct (slice memory 0 index) as [head| |]; try discriminate H.
  cbn [bind] in H.
  destruct ((bytes.LastIndex head BasePatternSearch.keyPattern =? -1)
            || (bytes.LastIndex head BasePatternSearch.keyPattern
                - BasePatternSearch.ptrSize <? 0)); [found_or_not H|].
  remember (bytes.LastIndex head BasePatternSearch.keyPattern) as hit.
  assert (Hcand : forall keyData,
             BasePatternSearch.keyCandidate memory hit = Ret (Some keyData) ->
             len keyData = 32).
  { unfold BasePatternSearch.keyCandidate. intros keyData Hc.
    destruct (slice memory (hit - BasePatternSearch.ptrSize) hit) as [p| |];
      try discriminate Hc.
    cbn [bind] in Hc. destruct (binary.Uint64 p) as [a| |]; try discriminate Hc.
    cbn [bind] in Hc.
    destruct ((int_of_uint64 a >? 0x10000)
              && (int_of_uint64 a <? len memory - 0x20));
      [|discriminate Hc].
    destruct (slice memory (int_of_uint64 a) (int_of_uint64 a + 0x20))
      as [kd| |] eqn:Hs; try discriminate Hc.
    injection Hc as <-.
    apply slice_returns in Hs as (_ & _ & _ & Hlen & _). lia. }
  destruct (BasePatternSearch.keyCandidate memory hit) as [[keyData|]| |];
    try discriminate H; cbn [bind] in H.
  pose proof (base_checkKey_shaped v keyData (Hcand _ eq_refl)) as Hk.
  destruct (BasePatternSearch.checkKey v keyData) as [[r'|]| |];
    try discriminate H.
  injection H as <-. right. exact Hk.
Qed.

Lemma setdbkey_shaped (fuel : nat) (ctx : Ctx) (memory : list byte)
      (v : ValidatorPtr) :
  shaped (SetDBKeyLogSearch.Search fuel ctx memory v).
Proof.
  unfold SetDBKeyLogSearch.Search.
  apply (loop_all shaped); try exact I.
  intros [index c] r. unfold SetDBKeyLogSearch.body.
  destruct (Done c) as [[|] c']; intros H; [found_or_not H|].
  destruct (slice memory index (len memory)) as [rest| |]; try discriminate H.
  cbn [bind] in H.
  destruct (bytes.Index rest SetDBKeyLogSearch.setDBKeyPattern =? -1);
    [found_or_not H|].
  destruct (slice memory _ _) as [area| |]; try discriminate H.
  cbn [bind] in H.
  pose proof (windows_then_pointers_shaped area memory v) as Hcall.
  fold (SetDBKeyLogSearch.findSetDBKeyCall area memory v) in Hcall.
  destruct (SetDBKeyLogSearch.findSetDBKeyCall area memory v) as [call| |];
    try discriminate H.
  cbn [bind] in H.
  destruct (snd call) eqn:Hfound.
  { injection H as <-. now apply shaped_found. }
  pose proof (windows_shaped area v) as Hnear.
  fold (SetDBKeyLogSearch.findKeyInRange area v) in Hnear.
  destruct (SetDBKeyLogSearch.findKeyInRange area v) as [near| |];
    try discriminate H.
  cbn [bind] in H.
  destruct (snd near) eqn:Hfound2; [|discriminate H].
  injection H as <-. now apply shaped_found.
Qed.

Lemma sqlite_patterns_shaped (fuel : nat) (localMemory fullMemory : list byte)
      (v : ValidatorPtr) (patterns : list (list byte)) :
  shaped (SQLiteSafetySearch.searchPatterns fuel localMemory fullMemory v patterns).
Proof.
  induction patterns as [|pattern more IH];
    cbn [SQLiteSafetySearch.searchPatterns]; [left; reflexivity|].
  assert (Hinner : shapedOption
            (loop fuel (SQLiteSafetySearch.patternBody localMemory fullMemory
                                                       v pattern) 0)).
  { apply (loop_all shapedOption); try exact I.
    intros index r. unfold SQLiteSafetySearch.patternBody. intros H.
    destruct (slice localMemory index (len localMemory)) as [rest| |];
      try discriminate H.
    cbn [bind] in H.
    destruct (bytes.Index rest pattern =? -1);
      [injection H as <-; exact I|].
    pose proof (fun area => windows_then_pointers_shaped area fullMemory v)
      as Haround.
    unfold SQLiteSafetySearch.searchForKeyAroundSQLiteFunction in H.
    destruct (slice localMemory _ _) as [searchArea| |]; try discriminate H.
    cbn [bind] in H. specialize (Haround searchArea).
    destruct (bind (scanKeyWindows searchArea v) _) as [around| |];
      try discriminate H.
    cbn [bind] in H.
    destruct (snd around) eqn:Hfound; [|discriminate H].
    injection H as <-.
    destruct (shaped_found around Haround Hfound) as [Hnf | Hkey];
      [discriminate Hnf | exact Hkey]. }
  destruct (loop fuel _ 0) as [[k|]| |]; try exact I; cbn [bind].
  - right. exact Hinner.
  - exact IH.
Qed.

Lemma sqlite_shaped (fuel : nat) (ctx : Ctx) (memory : list byte)
      (v : ValidatorPtr) :
  shaped (SQLiteSafetySearch.Search fuel ctx memory v).
Proof.
  unfold SQLiteSafetySearch.Search.
  apply (loop_all shaped); try exact I.
  intros [index c] r. unfold SQLiteSafetySearch.body.
  destruct (Done c) as [[|] c']; intros H; [found_or_not H|].
  destruct (slice memory index (len memory)) as [rest| |]; try discriminate H.
  cbn [bind] in H.
  destruct (bytes.Index rest SQLiteSafetySearch.unopenedPattern =? -1);
    [found_or_not H|].
  destruct (slice memory _ _) as [area| |]; try discriminate H.
  cbn [bind] in H.
  pose proof (sqlite_patterns_shaped fuel area memory v
                SQLiteSafetySearch.sqlitePatterns) as Hrel.
  fold (SQLiteSafetySearch.searchSQLiteRelatedFunctions fuel area memory v)
    in Hrel.
  destruct (SQLiteSafetySearch.searchSQLiteRelatedFunctions fuel area memory v)
    as [rel| |]; try discriminate H.
  cbn [bind] in H.
  destruct (snd rel) eqn:Hfound; [|discriminate H].
  injection H as <-. now apply shaped_found.
Qed.

Lemma weixin_patterns_shaped (fuel : nat) (memory : list byte)
      (v : ValidatorPtr) (patterns : list (list byte)) :
  forall ctx,
    shaped (WeixinDLLSearch.searchPatterns fuel ctx memory v patterns).
Proof.
  induction patterns as [|pattern more IH]; intros ctx;
    cbn [WeixinDLLSearch.searchPatterns]; [left; reflexivity|].
  assert (Hinner :
            match loop fuel (WeixinDLLSearch.patternBody memory v pattern)
                       (0, ctx) with
            | Ret (Some k, _) => keyShaped k
            | _ => True
            end).
  { apply (loop_all (fun o => match o with
                              | Ret (Some k, _) => keyShaped k
                              | _ => True
                              end)); try exact I.
    intros [index c] r. unfold WeixinDLLSearch.patternBody.
    destruct (Done c) as [[|] c']; intros H;
      [injection H as <-; left; reflexivity|].
    destruct (slice memory index (len memory)) as [rest| |];
      try discriminate H.
    cbn [bind] in H.
    destruct (bytes.Index rest pattern =? -1); [injection H as <-; exact I|].
    destruct (slice memory _ _) as [area| |]; try discriminate H.
    cbn [bind] in H.
    pose proof (windows_shaped area v) as Hnear.
    fold (WeixinDLLSearch.findKeyInRange area v) in Hnear.
    destruct (WeixinDLLSearch.findKeyInRange area v) as [near| |];
      try discriminate H.
    cbn [bind] in H.
    destruct (snd near) eqn:Hfound; [|discriminate H].
    injection H as <-. now apply shaped_found. }
  destruct (loop fuel _ (0, ctx)) as [[[k|] c]| |]; try exact I; cbn [bind].
  - exact Hinner.
  - apply IH.
Qed.

Lemma weixin_shaped (fuel : nat) (ctx : Ctx) (memory : list byte)
      (v : ValidatorPtr) :
  shaped (WeixinDLLSearch.Search fuel ctx memory v).
Proof. apply weixin_patterns_shaped. Qed.

Lemma collect_shaped (arrivals : list (outcome found_key)) :
  Forall shaped arrivals -> shaped (collect arrivals).
Proof.
  induction 1 as [|o rest Ho _ IH]; cbn [collect]; [left; reflexivity|].
  destruct o as [[key [|]]| |]; try exact I; [exact Ho | exact IH].
Qed.

(** Whatever the chunk, the validator, the context and the order of
    arrival: when [SearchKey] over strategies taken from the four built-in
    ones returns, it returns [("", false)] or a key with [found = true] that
    is the lower-case hex encoding of 32 or of 16 bytes; such a key has 64 or
    32 characters and [hex.DecodeString] reads it back without error. *)
Theorem searchkey_reports_hex_keys (e : V4Extractor) (fuel : nat) (ctx : Ctx)
        (memory : list byte) (arrival : list SearchStrategy)
        (key : string) (found : bool) :
  incl arrival (strategies NewV4Extractor) ->
  SearchKey e fuel ctx memory arrival = Ret (key, found) ->
  (found = false /\ key = EmptyString) \/
  (found = true /\
   exists data,
     key = hex.EncodeToString data /\
     (len data = 32 \/ len data = 16) /\
     hexdec.DecodeString key = Some data /\
     Z.of_nat (String.length key) = 2 * len data).
Proof.
  intros Hincl Hret.
  assert (Hall : Forall shaped
                   (map (fun s => Search s fuel ctx memory (validator e)) arrival)).
  { apply Forall_forall. intros o Ho. apply in_map_iff in Ho as (s & <- & Hs).
    apply Hincl in Hs. cbn in Hs.
    destruct Hs as [<- | [<- | [<- | [<- | []]]]]; cbn [Search basePatternSearch
      setDBKeyLogSearch sqliteSafetySearch weixinDLLSearch].
    - apply base_pattern_shaped.
    - apply setdbkey_shaped.
    - apply sqlite_shaped.
    - apply weixin_shaped. }
  apply collect_shaped in Hall. unfold SearchKey in Hret. rewrite Hret in Hall.
  destruct Hall as [Hnf | [Hfound (data & Hkey & Hlen)]].
  - injection Hnf as -> ->. left. auto.
  - cbn [fst snd] in *. subst found key. right. split; [reflexivity|].
    exists data. destruct (hex_round_trip data) as [Hdec Hchars]. auto.
Qed.

Lemma searchkey_reports_hex_keys_witness :
  incl (strategies NewV4Extractor) (strategies NewV4Extractor) /\
  SearchKey NewV4Extractor 1 Background Scenario.memory
            (strategies NewV4Extractor) = Ret (Scenario.keyHex, true) /\
  exists data,
    Scenario.keyHex = hex.EncodeToString data /\
    (len data = 32 \/ len data = 16) /\
    hexdec.DecodeString Scenario.keyHex = Some data /\
    Z.of_nat (String.length Scenario.keyHex) = 2 * len data.
Proof.
  assert (Hincl : incl (strategies NewV4Extractor) (strategies NewV4Extractor))
    by apply incl_refl.
  assert (Hret : SearchKey NewV4Extractor 1 Background Scenario.memory
                           (strategies NewV4Extractor)
                 = Ret (Scenario.keyHex, true))
    by (vm_compute; reflexivity).
  split; [exact Hincl|]. split; [exact Hret|].
  destruct (searchkey_reports_hex_keys NewV4Extractor 1 Background
              Scenario.memory (strategies NewV4Extractor) Scenario.keyHex true
              Hincl Hret) as [[Hfalse _] | [_ Hdata]];
    [discriminate Hfalse | exact Hdata].
Defined.

(** ** The BasePattern loop ends *)

Lemma slice_full {A} (s : list A) : slice s 0 (len s) = Ret s.
Proof.
  destruct (slice_in_range s 0 (len s)) as (part & Hpart & _);
    try (unfold len; lia).
  rewrite Hpart. f_equal.
  apply slice_returns in Hpart as (_ & _ & _ & _ & ->).
  rewrite Z.sub_0_r. unfold len. rewrite Nat2Z.id. cbn [Z.to_nat skipn].
  apply firstn_all.
Qed.

Lemma base_round_fuel (memory : list byte) (v : ValidatorPtr) (st : Z * Ctx) :
  BasePatternSearch.body memory v st <> NoFuel.
Proof.
  destruct st as [index ctx]. unfold BasePatternSearch.body.
  destruct (Done ctx) as [[|] ctx']; [discriminate|].
  unfold slice at 1. destruct (_ && _); [|discriminate]. cbn [bind].
  destruct (_ || _); [discriminate|].
  unfold BasePatternSearch.keyCandidate.
  unfold slice at 1. destruct (_ && _); [|discriminate]. cbn [bind].
  unfold binary.Uint64. destruct (_ <? 8); [discriminate|]. cbn [bind].
  destruct (_ && _); cbn [bind].
  - unfold slice at 1. destruct (_ && _); [|discriminate]. cbn [bind].
    unfold BasePatternSearch.checkKey. destruct v as [val|]; [|discriminate].
    destruct (Validate val _); [discriminate|].
    destruct (ValidateImgKey val _); [|discriminate].
    unfold slice. destruct (_ && _); discriminate.
  - discriminate.
Qed.

Lemma base_round_decreases (memory : list byte) (v : ValidatorPtr)
      (index index' : Z) (ctx ctx' : Ctx) :
  BasePatternSearch.body memory v (index, ctx) = Ret (Continue (index', ctx')) ->
  index' < index - 24 /\ 32 <= index.
Proof.
  unfold BasePatternSearch.body, BasePatternSearch.ptrSize.
  destruct (Done ctx) as [[|] c]; [discriminate|].
  destruct (slice memory 0 index) as [head| |] eqn:Hhead; try discriminate.
  cbn [bind].
  apply slice_returns in Hhead as (_ & _ & _ & Hlen & _).
  destruct (LastIndex_range head BasePatternSearch.keyPattern) as [Hnone|[H0 Hfit]].
  { rewrite Hnone. cbn. discriminate. }
  destruct (_ || _) eqn:Hbreak; [discriminate|].
  apply orb_false_elim in Hbreak as [_ Hge]. apply Z.ltb_ge in Hge.
  change (len BasePatternSearch.keyPattern) with 24 in *.
  destruct (BasePatternSearch.keyCandidate memory _) as [[keyData|]| |];
    cbn [bind]; try discriminate.
  - destruct (BasePatternSearch.checkKey v keyData) as [[r|]| |];
      cbn [bind]; try discriminate.
    intros H; injection H as <- _. lia.
  - intros H; injection H as <- _. lia.
Qed.

Lemma base_loop_ends (memory : list byte) (v : ValidatorPtr) (fuel : nat) :
  forall index ctx,
    index < Z.of_nat fuel -> (0 < fuel)%nat ->
    loop fuel (BasePatternSearch.body memory v) (index, ctx) <> NoFuel.
Proof.
  induction fuel as [|fuel IH]; intros index ctx Hfuel Hpos; [lia|].
  cbn [loop].
  pose proof (base_round_fuel memory v (index, ctx)) as Hround.
  destruct (BasePatternSearch.body memory v (index, ctx))
    as [[[index' ctx']|r]| |] eqn:Hbody; try discriminate; [|contradiction].
  apply base_round_decreases in Hbody as [Hless Hbig].
  apply IH; lia.
Qed.

(** Unlike the marker strategies, [BasePatternSearch.Search] leaves its loop
    on every chunk, with every validator and context: [index] goes down by
    more than 24 in every round, and after at most [len(memory)+1] rounds
    the function has returned or panicked. *)
Theorem base_pattern_search_ends (memory : list byte) (v : ValidatorPtr)
        (ctx : Ctx) (extra : nat) :
  let fuel := S (List.length memory + extra) in
  BasePatternSearch.Search fuel ctx memory v = Panic \/
  exists r, BasePatternSearch.Search fuel ctx memory v = Ret r.
Proof.
  intros fuel.
  pose proof (base_loop_ends memory v fuel (len memory) ctx) as Hends.
  unfold BasePatternSearch.Search.
  destruct (loop fuel (BasePatternSearch.body memory v) (len memory, ctx))
    as [r| |]; [right; eexists; reflexivity | left; reflexivity |].
  exfalso. apply Hends; [unfold len; subst fuel; lia | subst fuel; lia | reflexivity].
Qed.

(** A signature hit at offset 8 to 23 that gives no key makes the search
    panic: [index -= len(keyPattern)] leaves a negative [index], and the
    next round evaluates [memory[:index]]. *)
Theorem base_pattern_low_hit_panics (memory : list byte) (v : ValidatorPtr)
        (fuel : nat) :
  let hit := bytes.LastIndex memory BasePatternSearch.keyPattern in
  8 <= hit < 24 ->
  (cand <- BasePatternSearch.keyCandidate memory hit ;;
   match cand with
   | Some keyData => BasePatternSearch.checkKey v keyData
   | None => Ret None
   end) = Ret None ->
  BasePatternSearch.Search (S (S fuel)) Background memory v = Panic.
Proof.
  intros hit Hhit Hrej.
  unfold BasePatternSearch.Search. cbn [loop].
  assert (Hround : BasePatternSearch.body memory v (len memory, Background)
                   = Ret (Continue (hit - 24, Background))).
  { unfold BasePatternSearch.body. cbn [Background Done].
    rewrite slice_full. cbn [bind]. fold hit.
    replace (hit =? -1) with false by (symmetry; apply Z.eqb_neq; lia).
    replace (hit - BasePatternSearch.ptrSize <? 0) with false
      by (symmetry; apply Z.ltb_ge; unfold BasePatternSearch.ptrSize; lia).
    cbn [orb].
    destruct (BasePatternSearch.keyCandidate memory hit) as [[keyData|]| |];
      cbn [bind] in *; try discriminate Hrej.
    - rewrite Hrej. reflexivity.
    - reflexivity. }
  rewrite Hround.
  assert (Hnext : BasePatternSearch.body memory v (hit - 24, Background) = Panic).
  { unfold BasePatternSearch.body. cbn [Background Done].
    rewrite slice_out_of_range by lia. reflexivity. }
  rewrite Hnext. reflexivity.
Qed.

Lemma base_pattern_low_hit_panics_witness :
  let memory := Scenario.make 8 ++ BasePatternSearch.keyPattern in
  8 <= bytes.LastIndex memory BasePatternSearch.keyPattern < 24 /\
  BasePatternSearch.Search 2 Background memory (Some Sample.rejectAll) = Panic.
Proof.
  intros memory.
  assert (Hlast : bytes.LastIndex memory BasePatternSearch.keyPattern = 8)
    by (vm_compute; reflexivity).
  assert (Hhit : 8 <= bytes.LastIndex memory BasePatternSearch.keyPattern < 24)
    by (rewrite Hlast; lia).
  split; [exact Hhit|].
  apply (base_pattern_low_hit_panics memory (Some Sample.rejectAll) 0 Hhit).
  vm_compute. reflexivity.
Defined.

(** ** What the V3 [Extract] returns *)

Lemma readBuffer_len (w : Windows) (handle : Handle) (addr size : Z)
      (keyData : list byte) :
  0 <= size -> readBuffer w handle addr size = Some keyData ->
  len keyData = size.
Proof.
  intros Hsize. unfold readBuffer.
  destruct (ReadProcessMemory w handle addr size) as [data|]; [|discriminate].
  intros H; injection H as <-. unfold len.
  rewrite length_firstn, length_app, repeat_length. lia.
Qed.

Lemma deferClose_snd {A} (handle : Handle) (r : traced (outcome A)) :
  snd (deferClose handle r) = snd r.
Proof. unfold deferClose. destruct (snd r) eqn:Hr; cbn [snd]; auto. Qed.

Section V3Keys.

Variables (w : Windows) (v : Validator) (handle : Handle) (is64Bit : bool).

Lemma scanChunk_sent (memory : list byte) (fuel : nat) :
  forall ctx ready index key,
    snd (V3.scanChunk fuel w v handle is64Bit memory ctx ready index)
    = Ret (V3.Sent key) ->
    key <> EmptyString /\ validatedAt w v handle key.
Proof.
  induction fuel as [|fuel IH]; intros ctx ready index key;
    cbn [V3.scanChunk]; [discriminate|].
  destruct (Done ctx) as [[|] ctx']; [discriminate|].
  destruct (slice memory 0 index) as [head| |]; try discriminate.
  destruct (_ || _); [discriminate|].
  destruct (bind _ _) as [ptrValue| |]; try discriminate.
  destruct (Z.gtb_spec ptrValue 0x10000) as [Hlo|Hlo]; cbn [andb]; [|apply IH].
  destruct (Z.ltb_spec ptrValue 0x7FFFFFFFFFFF) as [Hhi|Hhi]; [|apply IH].
  unfold V3.validateKey, emit. cbn [fst snd].
  destruct (negb (String.eqb _ EmptyString)) eqn:Hkey; [|apply IH].
  destruct ready as [|[|] ready']; try apply IH.
  all: intros Hsent; injection Hsent as <-;
    apply negb_true_iff, String.eqb_neq in Hkey;
    (split; [exact Hkey|]);
    destruct (readBuffer w handle ptrValue 0x20) as [keyData|] eqn:Hread;
    [|contradiction Hkey; reflexivity];
    destruct (Validate v keyData) eqn:Hval;
    [|contradiction Hkey; reflexivity];
    pose proof (readBuffer_len w handle ptrValue 0x20 keyData
                  ltac:(lia) Hread) as Hlen;
    pose proof (proj2 (hex_round_trip keyData)) as Hhex;
    exists ptrValue, keyData; repeat split; auto; lia.
Qed.

Lemma workers_sent (ctx : Ctx) (ready : list bool) (chunks : list (list byte)) :
  forall key,
    In key (snd (V3.workers w v handle is64Bit ctx ready chunks)) ->
    key <> EmptyString /\ validatedAt w v handle key.
Proof.
  induction chunks as [|memory rest IH]; intros key; cbn [V3.workers];
    [intros []|].
  pose proof (scanChunk_sent memory (S (List.length memory)) ctx ready
                             (len memory)) as Hscan.
  fold (V3.workerChunk w v handle is64Bit ctx ready memory) in Hscan.
  destruct (V3.workerChunk w v handle is64Bit ctx ready memory) as [evs r].
  cbn [snd] in Hscan.
  destruct r as [[sent| |]| |]; cbn [snd]; try apply IH.
  intros [<- | Hin]; [now apply Hscan | now apply IH].
Qed.

End V3Keys.

Lemma workersDone_returns (w : Windows) (v : Validator) (handle : Handle)
      (is64Bit : bool) (ctx : Ctx) (ready : list bool)
      (chunks : list (list byte)) :
  V3.workersDone w v handle is64Bit ctx ready chunks = Ret tt.
Proof.
  induction chunks as [|memory rest IH]; [reflexivity|].
  cbn [V3.workersDone].
  destruct (workerChunk_returns w v handle is64Bit ctx ready memory) as [r ->].
  exact IH.
Qed.

(** Whether and what the V3 [Extract] returns.  When it returns, it returns
    either an error with both keys empty, or no error with an empty image
    key and a non-empty data key; that key is the hex encoding, 64 digits
    long, of the 32 bytes of a buffer which was filled from the opened
    process at a pointer between 0x10000 and 0x7FFF'FFFF'FFFF and which
    [Validate] accepts.  The workers always return, so that the call stays
    in its [select] only when the handle is opened, its context is not done
    and the enumeration of the regions does not end. *)
Theorem v3_extract_returns_validated_key (w : Windows) (v : Validator)
        (fuel : nat) (sch : Schedule) (proc : Process) :
  match snd (V3.Extract w v fuel sch proc) with
  | Ret (keys, Some _) => keys = (EmptyString, EmptyString)
  | Ret ((dataKey, imgKey), None) =>
      imgKey = EmptyString /\ dataKey <> EmptyString /\
      exists handle,
        OpenProcess w (PID proc) = Some handle /\
        validatedAt w v handle dataKey
  | Panic => True
  | NoFuel =>
      mainDone sch = false /\
      exists handle,
        OpenProcess w (PID proc) = Some handle /\
        snd (V3.findMemory fuel w (producerCtx sch) handle (PID proc))
        = NoFuel
  end.
Proof.
  unfold V3.Extract.
  destruct (Status proc); [|reflexivity].
  cbn [emit snd].
  destruct (OpenProcess w (PID proc)) as [handle|]; [|reflexivity].
  rewrite deferClose_snd.
  destruct (Is64Bit w handle) as [is64Bit|]; [|reflexivity].
  cbn [snd].
  destruct (mainDone sch); [reflexivity|].
  pose proof (workers_sent w v handle is64Bit (workerCtx sch) (resultReady sch)
                (chunksOf (fst (V3.producer fuel w (producerCtx sch) handle
                                            (PID proc))))) as Hsent.
  destruct (snd (V3.workers _ _ _ _ _ _ _)) as [|first keys] eqn:Hkeys.
  { rewrite workersDone_returns. unfold V3.producer.
    destruct (snd (V3.findMemory fuel w (producerCtx sch) handle (PID proc)))
      as [[err|]| |] eqn:Hfind; cbn [snd bind]; try reflexivity.
    split; [reflexivity|]. exists handle. split; [reflexivity | exact Hfind]. }
  assert (Hin : In (nth (winner sch) (first :: keys) first) (first :: keys)).
  { destruct (nth_in_or_default (winner sch) (first :: keys) first) as [H|H];
      [exact H | rewrite H; left; reflexivity]. }
  destruct (Hsent _ Hin) as [Hne Hval].
  split; [reflexivity|]. split; [exact Hne|].
  exists handle. auto.
Qed.

(** ** The process handle *)

Lemma closesOf_app (t1 t2 : list event) :
  closesOf (t1 ++ t2) = closesOf t1 ++ closesOf t2.
Proof.
  induction t1 as [|ev t1 IH]; [reflexivity|].
  destruct ev; cbn [app closesOf]; rewrite IH; reflexivity.
Qed.

Lemma closesOf_In (trace : list event) (handle : Handle) :
  In (EvCloseHandle handle) trace -> In handle (closesOf trace).
Proof.
  induction trace as [|ev trace IH]; [intros []|].
  intros [-> | Hin]; [left; reflexivity|].
  destruct ev; cbn [closesOf]; try (right); now apply IH.
Qed.

Lemma spawnWorkers_no_close (n : Z) : closesOf (spawnWorkers n) = [].
Proof.
  unfold spawnWorkers. induction (seq 0 (Z.to_nat n)) as [|i l IH];
    [reflexivity | exact IH].
Qed.

Lemma deferClose_closes {A} (handle : Handle) (evs : list event)
      (r : traced (outcome A)) :
  closesOf evs = [] -> closesOf (fst r) = [] ->
  let trace := evs ++ fst (deferClose handle r) in
  closesOf trace = (if returned (snd r) then [handle] else []) /\
  forall closed,
    In (EvCloseHandle closed) trace ->
    last trace (EvGo Joiner) = EvCloseHandle closed.
Proof.
  intros Hevs Hr. cbv zeta. unfold deferClose, returned.
  destruct (snd r); cbn [fst].
  - rewrite app_assoc. split.
    + rewrite closesOf_app, closesOf_app, Hevs, Hr. reflexivity.
    + intros closed Hin. apply closesOf_In in Hin.
      rewrite closesOf_app, closesOf_app, Hevs, Hr in Hin.
      destruct Hin as [<- | []]. apply last_last.
  - split; [rewrite closesOf_app, Hevs, Hr; reflexivity|].
    intros closed Hin. apply closesOf_In in Hin.
    rewrite closesOf_app, Hevs, Hr in Hin. destruct Hin.
  - split; [rewrite closesOf_app, Hevs, Hr; reflexivity|].
    intros closed Hin. apply closesOf_In in Hin.
    rewrite closesOf_app, Hevs, Hr in Hin. destruct Hin.
Qed.

(** The deferred [CloseHandle] of [Extract], V3 and V4.  A call that
    returns has closed the handle it opened exactly once, and that is the
    last thing the calling goroutine does; a call that opened no handle
    closes none.  A call that does not return, because its [select] stays
    blocked or a goroutine brings the process down, does not close the
    handle it opened.  The close waits for no goroutine: the traces of the
    producer and of the workers are not part of the trace of the call. *)
Theorem extract_closes_opened_handle (w : Windows) (v : Validator)
        (fuel : nat) (sch : Schedule) (inbox : list V4.received)
        (proc : Process) :
  let opened :=
    match Status proc, OpenProcess w (PID proc) with
    | StatusOnline, Some handle => [handle]
    | _, _ => []
    end in
  let callV3 := V3.Extract w v fuel sch proc in
  let callV4 := V4.Extract w inbox proc in
  closesOf (fst callV3) = (if returned (snd callV3) then opened else []) /\
  closesOf (fst callV4) = (if returned (snd callV4) then opened else []) /\
  (forall handle,
      In (EvCloseHandle handle) (fst callV3) ->
      last (fst callV3) (EvGo Joiner) = EvCloseHandle handle) /\
  (forall handle,
      In (EvCloseHandle handle) (fst callV4) ->
      last (fst callV4) (EvGo Joiner) = EvCloseHandle handle).
Proof.
  cbv zeta.
  assert (Hspawn : closesOf (spawnWorkers (workerCount (NumCPU w))
                             ++ [EvGo Producer; EvGo Joiner]) = [])
    by (rewrite closesOf_app, spawnWorkers_no_close; reflexivity).
  assert (H3 : closesOf (fst (V3.Extract w v fuel sch proc))
               = (if returned (snd (V3.Extract w v fuel sch proc))
                  then match Status proc, OpenProcess w (PID proc) with
                       | StatusOnline, Some handle => [handle]
                       | _, _ => []
                       end
                  else []) /\
               forall handle,
                 In (EvCloseHandle handle) (fst (V3.Extract w v fuel sch proc)) ->
                 last (fst (V3.Extract w v fuel sch proc)) (EvGo Joiner)
                 = EvCloseHandle handle).
  { unfold V3.Extract.
    destruct (Status proc); [|split; [reflexivity | intros handle []]].
    unfold emit. cbn [fst snd].
    destruct (OpenProcess w (PID proc)) as [handle|];
      [|split; [reflexivity | intros handle [H | []]; discriminate H]].
    rewrite deferClose_snd.
    match goal with
    | |- context [deferClose handle ?r] =>
        assert (Hr : closesOf (fst r) = [])
          by (destruct (Is64Bit w handle); [exact Hspawn | reflexivity]);
        destruct (deferClose_closes handle [EvOpenProcess (PID proc)] r
                    eq_refl Hr) as [Hc Hl]
    end.
    split; [rewrite Hc; destruct (returned _); reflexivity | exact Hl]. }
  assert (H4 : closesOf (fst (V4.Extract w inbox proc))
               = (if returned (snd (V4.Extract w inbox proc))
                  then match Status proc, OpenProcess w (PID proc) with
                       | StatusOnline, Some handle => [handle]
                       | _, _ => []
                       end
                  else []) /\
               forall handle,
                 In (EvCloseHandle handle) (fst (V4.Extract w inbox proc)) ->
                 last (fst (V4.Extract w inbox proc)) (EvGo Joiner)
                 = EvCloseHandle handle).
  { unfold V4.Extract.
    destruct (Status proc); [|split; [reflexivity | intros handle []]].
    unfold emit. cbn [fst snd].
    destruct (OpenProcess w (PID proc)) as [handle|];
      [|split; [reflexivity | intros handle [H | []]; discriminate H]].
    cbv zeta. rewrite deferClose_snd.
    match goal with
    | |- context [deferClose handle ?r] =>
        destruct (deferClose_closes handle [EvOpenProcess (PID proc)] r
                    eq_refl Hspawn) as [Hc Hl]
    end.
    split; [rewrite Hc; destruct (returned _); reflexivity | exact Hl]. }
  destruct H3 as [Hc3 Hl3], H4 as [Hc4 Hl4].
  repeat (split; [assumption|]). assumption.
Qed.

(** ** Reads of the enumeration stay below the end of the scan *)

Section ReadBounds.

Variables (w : Windows) (handle : Handle).

(** The regions that the system reports end inside the address space. *)
Hypothesis regions_fit :
  forall addr mbi,
    VirtualQueryEx w handle addr = Some mbi -> addr + RegionSize mbi < 2 ^ 64.

Lemma clamped_read (limit currentAddr : Z) (mbi : MemoryBasicInformation) :
  0 <= currentAddr < limit -> limit < 2 ^ 64 ->
  0 < RegionSize mbi -> currentAddr + RegionSize mbi < 2 ^ 64 ->
  let regionSize :=
    if uintptr (currentAddr + RegionSize mbi) >? limit
    then uintptr (limit - currentAddr) else RegionSize mbi in
  0 < regionSize /\ currentAddr + regionSize <= limit.
Proof.
  intros Hcur Hlimit Hsize Hfit. cbv zeta. unfold uintptr.
  rewrite (Z.mod_small (currentAddr + RegionSize mbi)) by lia.
  destruct (Z.gtb_spec (currentAddr + RegionSize mbi) limit).
  - rewrite Z.mod_small by lia. lia.
  - lia.
Qed.

Lemma uintptr_nonneg (z : Z) : 0 <= uintptr z.
Proof. unfold uintptr. apply Z.mod_pos_bound. lia. Qed.

Lemma v3_regions_reads (fuel : nat) :
  forall ctx endAddr currentAddr,
    0 <= currentAddr -> endAddr < 2 ^ 64 ->
    Forall (readBelow endAddr)
           (fst (V3.regions fuel w ctx handle endAddr currentAddr)).
Proof.
  induction fuel as [|fuel IH]; intros ctx endAddr currentAddr Hcur Hend;
    cbn [V3.regions].
  - constructor.
  - destruct (Z.ltb_spec currentAddr endAddr) as [Hlt|]; cbn [negb];
      [|constructor].
    destruct (VirtualQueryEx w handle currentAddr) as [mbi|] eqn:Hquery.
    2: { repeat constructor. }
    apply emit_Forall; [repeat constructor|].
    destruct (Z.ltb_spec (RegionSize mbi) (100 * 1024)) as [Hsmall|Hbig];
      [apply IH; auto using uintptr_nonneg|].
    destruct (V3.isWritable w mbi && (State mbi =? MEM_COMMIT w));
      [|apply IH; auto using uintptr_nonneg].
    apply emit_Forall.
    + apply Forall_cons; [|apply Forall_nil]. cbn [readBelow].
      apply clamped_read; try lia. now apply regions_fit.
    + destruct (ReadProcessMemory w handle currentAddr _) as [memory|];
        [|apply IH; auto using uintptr_nonneg].
      destruct (Done ctx) as [[|] ctx']; [constructor|].
      apply emit_Forall; [repeat constructor|].
      apply IH; auto using uintptr_nonneg.
Qed.

Lemma v4_regions_reads (fuel : nat) :
  forall ctx maxAddr currentAddr,
    0 <= currentAddr -> maxAddr < 2 ^ 64 ->
    Forall (readBelow maxAddr)
           (fst (V4.regions fuel w ctx handle maxAddr currentAddr)).
Proof.
  induction fuel as [|fuel IH]; intros ctx maxAddr currentAddr Hcur Hend;
    cbn [V4.regions].
  - constructor.
  - destruct (Z.ltb_spec currentAddr maxAddr) as [Hlt|]; cbn [negb];
      [|constructor].
    destruct (Done ctx) as [[|] ctx1]; [constructor|].
    destruct (VirtualQueryEx w handle currentAddr) as [memInfo|] eqn:Hquery.
    2: { repeat constructor. }
    apply emit_Forall; [repeat constructor|].
    destruct (Z.ltb_spec (RegionSize memInfo) (1024 * 1024)) as [Hsmall|Hbig];
      [apply IH; auto using uintptr_nonneg|].
    destruct (V4.isPrivateReadWrite w memInfo);
      [|apply IH; auto using uintptr_nonneg].
    apply emit_Forall.
    + apply Forall_cons; [|apply Forall_nil]. cbn [readBelow].
      apply clamped_read; try lia. now apply regions_fit.
    + destruct (ReadProcessMemory w handle currentAddr _) as [memory|];
        [|apply IH; auto using uintptr_nonneg].
      destruct (Done ctx1) as [[|] ctx2]; [constructor|].
      apply emit_Forall; [repeat constructor|].
      apply IH; auto using uintptr_nonneg.
Qed.

End ReadBounds.

(** When the regions reported by [VirtualQueryEx] end inside the address
    space, every [ReadProcessMemory] of an enumeration reads at least one
    byte and ends at or before the end of the scan: the end of the module
    for V3, [maxAddr] for V4.  A region that reaches beyond is read up to
    the end only. *)
Theorem find_memory_reads_stay_in_range (w : Windows) (handle : Handle)
        (fuel : nat) (ctx : Ctx) (pid : Z) :
  (forall addr mbi,
      VirtualQueryEx w handle addr = Some mbi ->
      addr + RegionSize mbi < 2 ^ 64) ->
  (forall addr size,
      In (EvReadProcessMemory addr size) (fst (V4.findMemory fuel w ctx handle)) ->
      0 < size /\
      addr + size <= (if GOARCH_amd64 w then 0x7FFFFFFFFFFF else 0x7FFFFFFF)) /\
  (forall module addr size,
      V3.FindModule w pid V3.V3ModuleName = Some module ->
      0 <= ModBaseAddr module ->
      In (EvReadProcessMemory addr size)
         (fst (V3.findMemory fuel w ctx handle pid)) ->
      0 < size /\
      addr + size <= uintptr (ModBaseAddr module + ModBaseSize module)).
Proof.
  intros Hfit. split.
  - intros addr size Hin. unfold V4.findMemory in Hin.
    assert (Hall : Forall
                     (readBelow (if GOARCH_amd64 w then 0x7FFFFFFFFFFF
                                 else 0x7FFFFFFF))
                     (fst (V4.regions fuel w ctx handle
                             (if GOARCH_amd64 w then 0x7FFFFFFFFFFF
                              else 0x7FFFFFFF) 0x10000))).
    { apply v4_regions_reads; [exact Hfit | lia |].
      destruct (GOARCH_amd64 w); lia. }
    rewrite Forall_forall in Hall. exact (Hall _ Hin).
  - intros module addr size Hmod Hbase Hin. unfold V3.findMemory in Hin.
    rewrite Hmod in Hin.
    assert (Hall : Forall
                     (readBelow (uintptr (ModBaseAddr module + ModBaseSize module)))
                     (fst (V3.regions fuel w ctx handle
                             (uintptr (ModBaseAddr module + ModBaseSize module))
                             (ModBaseAddr module)))).
    { apply v3_regions_reads; [exact Hfit | exact Hbase |].
      unfold uintptr. apply Z.mod_pos_bound. lia. }
    rewrite Forall_forall in Hall. exact (Hall _ Hin).
Qed.

Lemma find_memory_reads_stay_in_range_witness :
  let w := Sample.windows true [Sample.weChatWin] in
  (forall addr mbi,
      VirtualQueryEx w 7 addr = Some mbi -> addr + RegionSize mbi < 2 ^ 64) /\
  In (EvReadProcessMemory 0x100000 0x200000) (fst (V4.findMemory 10 w Background 7)) /\
  0 < 0x200000 /\ 0x100000 + 0x200000 <= 0x7FFFFFFFFFFF.
Proof.
  intros w.
  assert (Hfit : forall addr mbi,
             VirtualQueryEx w 7 addr = Some mbi ->
             addr + RegionSize mbi < 2 ^ 64).
  { intros addr mbi. cbn [w Sample.windows VirtualQueryEx]. unfold Sample.region.
    destruct (Z.ltb_spec addr 0x10000); [discriminate|].
    destruct (Z.ltb_spec addr 0x100000);
      [intros Hq; injection Hq as <-; cbn [RegionSize]; lia|].
    destruct (Z.ltb_spec addr 0x300000);
      [intros Hq; injection Hq as <-; cbn [RegionSize]; lia | discriminate]. }
  assert (Hin : In (EvReadProcessMemory 0x100000 0x200000)
                   (fst (V4.findMemory 10 w Background 7)))
    by (vm_compute; auto).
  split; [exact Hfit|]. split; [exact Hin|].
  destruct (find_memory_reads_stay_in_range w 7 10 Background 4242 Hfit)
    as [Hv4 _].
  exact (Hv4 _ _ Hin).
Defined.

(** ** What the V4 coordinator returns *)

Lemma coordinator_result (inbox : list V4.received) :
  forall final keys err,
    V4.coordinator inbox final = Ret (keys, err) ->
    match err with
    | None =>
        (V4.filled (fst keys) = true \/ V4.filled (snd keys) = true) /\
        (fst keys = fst final \/
         exists result, In (V4.Result result) inbox /\ fst result = fst keys) /\
        (snd keys = snd final \/
         exists result, In (V4.Result result) inbox /\ snd result = snd keys)
    | Some e =>
        keys = V4.keys_empty /\
        (e = ErrContext \/
         (e = ErrNoValidKey /\
          V4.filled (fst final) = false /\ V4.filled (snd final) = false /\
          exists pre rest,
            inbox = map V4.Result pre ++ V4.Closed :: rest /\
            forall result, In result pre -> result = V4.keys_empty))
    end.
Proof.
  induction inbox as [|[result| |] rest IH]; intros final keys err;
    cbn [V4.coordinator]; try discriminate.
  - destruct (V4.filled (fst (V4.merge final result))
              && V4.filled (snd (V4.merge final result))) eqn:Hboth.
    + intros H; injection H as <- <-.
      apply andb_prop in Hboth as [Hd Hi].
      split; [left; exact Hd|].
      unfold V4.merge; cbn [fst snd].
      split.
      * destruct (V4.filled (fst result)); [right; exists result|left];
          cbn; auto.
      * destruct (V4.filled (snd result)); [right; exists result|left];
          cbn; auto.
    + intros H. apply IH in H. destruct err as [e|].
      * destruct H as [Hkeys [Hctx | (He & Hd & Hi & pre & more & Hin & Hall)]];
          (split; [exact Hkeys|]); [left; exact Hctx|].
        right. split; [exact He|].
        unfold V4.merge in Hd, Hi; cbn [fst snd] in Hd, Hi.
        destruct (V4.filled (fst result)) eqn:Hrd; [congruence|].
        destruct (V4.filled (snd result)) eqn:Hri; [congruence|].
        split; [exact Hd|]. split; [exact Hi|].
        exists (result :: pre), more. split; [cbn; now rewrite Hin|].
        intros r [<- | Hr]; [|now apply Hall].
        apply filled_false in Hrd, Hri. destruct result; cbn in *; subst.
        reflexivity.
      * destruct H as (Hfilled & Hd & Hi). split; [exact Hfilled|].
        unfold V4.merge in Hd, Hi; cbn [fst snd] in Hd, Hi.
        split.
        -- destruct Hd as [Hd | (r & Hr & Hv)];
             [|right; exists r; split; [right; exact Hr | exact Hv]].
           destruct (V4.filled (fst result));
             [right; exists result; split; [left; reflexivity | now symmetry]
             | left; exact Hd].
        -- destruct Hi as [Hi | (r & Hr & Hv)];
             [|right; exists r; split; [right; exact Hr | exact Hv]].
           destruct (V4.filled (snd result));
             [right; exists result; split; [left; reflexivity | now symmetry]
             | left; exact Hi].
  - destruct (V4.filled (fst final) || V4.filled (snd final)) eqn:Hany;
      intros H; injection H as <- <-.
    + apply orb_prop in Hany. split; [exact Hany|]. auto.
    + apply orb_false_elim in Hany as [Hd Hi].
      split; [reflexivity|]. right. split; [reflexivity|].
      split; [exact Hd|]. split; [exact Hi|].
      exists [], rest. split; [reflexivity|]. intros r [].
  - intros H; injection H as <- <-. split; [reflexivity|]. left; reflexivity.
Qed.

(** [Extract] of V4 answers in one of three ways.  Without error it returns
    at least one key, and every key it returns was received from a worker.
    With an error both keys are empty, and the error is the context's or
    [ErrNoValidKey]; [ErrNoValidKey] means that the result channel was
    closed after carrying nothing but empty pairs. *)
Theorem v4_coordinator_answers (inbox : list V4.received)
        (keys : string * string) (err : option error) :
  V4.coordinator inbox V4.keys_empty = Ret (keys, err) ->
  match err with
  | None =>
      (fst keys <> EmptyString \/ snd keys <> EmptyString) /\
      (fst keys = EmptyString \/
       exists result, In (V4.Result result) inbox /\ fst result = fst keys) /\
      (snd keys = EmptyString \/
       exists result, In (V4.Result result) inbox /\ snd result = snd keys)
  | Some e =>
      keys = (EmptyString, EmptyString) /\
      (e = ErrContext \/
       (e = ErrNoValidKey /\
        exists pre rest,
          inbox = map V4.Result pre ++ V4.Closed :: rest /\
          forall result, In result pre -> result = (EmptyString, EmptyString)))
  end.
Proof.
  intros H. apply coordinator_result in H. destruct err as [e|];
    cbn [V4.keys_empty fst snd] in H.
  - destruct H as [Hk [Hctx | (He & _ & _ & Hpre)]]; split; auto.
  - destruct H as ([Hd | Hi] & Hfst & Hsnd); (split; [|split; assumption]).
    + left. now apply filled_true.
    + right. now apply filled_true.
Qed.

Lemma v4_coordinator_answers_witness :
  let inbox := [V4.Result (Scenario.keyHex, EmptyString); V4.Closed] in
  V4.coordinator inbox V4.keys_empty
  = Ret ((Scenario.keyHex, EmptyString), None) /\
  (fst (Scenario.keyHex, EmptyString) <> EmptyString \/
   snd (Scenario.keyHex, EmptyString) <> EmptyString).
Proof.
  intros inbox.
  assert (Hret : V4.coordinator inbox V4.keys_empty
                 = Ret ((Scenario.keyHex, EmptyString), None))
    by (vm_compute; reflexivity).
  split; [exact Hret|].
  exact (proj1 (v4_coordinator_answers inbox _ None Hret)).
Defined.

(** The case [<-ctx.Done()] of the loop's [select].  When the [select]
    takes that case after the results [pre], [Extract] returns the context's
    error with both keys empty, whatever it holds: had it found the channel
    closed at that point, it would have returned the key it holds, if any.
    The only other outcome is that [pre] had already given both keys, which
    are then returned in either case. *)
Theorem v4_coordinator_cancel_drops_key (pre : list (string * string))
        (rest : list V4.received) :
  forall final,
    let taken :=
      V4.coordinator (map V4.Result pre ++ V4.CtxDone :: rest) final in
    let closed :=
      V4.coordinator (map V4.Result pre ++ V4.Closed :: rest) final in
    (exists keys,
        taken = Ret (keys, None) /\ closed = Ret (keys, None) /\
        fst keys <> EmptyString /\ snd keys <> EmptyString) \/
    (taken = Ret ((EmptyString, EmptyString), Some ErrContext) /\
     (closed = Ret ((EmptyString, EmptyString), Some ErrNoValidKey) \/
      exists keys,
        closed = Ret (keys, None) /\
        (fst keys <> EmptyString \/ snd keys <> EmptyString))).
Proof.
  induction pre as [|result pre IH]; intros final; cbv zeta;
    cbn [map app V4.coordinator].
  - right. split; [reflexivity|].
    destruct (V4.filled (fst final) || V4.filled (snd final)) eqn:Hany;
      [|left; reflexivity].
    right. exists final. split; [reflexivity|].
    apply orb_prop in Hany as [Hd | Hi]; [left | right]; now apply filled_true.
  - destruct (V4.filled (fst (V4.merge final result))
              && V4.filled (snd (V4.merge final result))) eqn:Hboth.
    + left. eexists. split; [reflexivity|]. split; [reflexivity|].
      apply andb_prop in Hboth as [Hd Hi].
      split; now apply filled_true.
    + apply IH.
Qed.

(** A key that arrived alone is lost when the [select] takes
    [ctx.Done()]. *)
Example coordinator_cancel_after_key :
  V4.coordinator [V4.Result (Scenario.keyHex, EmptyString); V4.CtxDone]
                 V4.keys_empty
  = Ret ((EmptyString, EmptyString), Some ErrContext).
Proof. reflexivity. Qed.

(** ** [main] of [cmd/v4getKey] *)

(** The V4 [Extract] never returns two empty keys without an error. *)
Lemma v4_extract_returns_a_key (w : Windows) (inbox : list V4.received)
      (proc : Process) (keys : string * string) :
  snd (V4.Extract w inbox proc) = Ret (keys, None) ->
  fst keys <> EmptyString \/ snd keys <> EmptyString.
Proof.
  unfold V4.Extract.
  destruct (Status proc); [|discriminate].
  cbn [emit snd].
  destruct (OpenProcess w (PID proc)) as [handle|]; [|discriminate].
  cbv zeta. rewrite deferClose_snd. cbn [snd].
  intros Hret. apply coordinator_result in Hret.
  destruct Hret as ([Hd | Hi] & _); [left | right]; now apply filled_true.
Qed.

(** The exit status of [main], for every [Extract] that returns a key
    whenever it returns no error, as the V4 [Extract] does.  The process
    exits with 0, 1 or 2 or does not exit.  It exits with 0 exactly on [-h]
    and when [Extract] is called and returns no error; it has then printed
    the header and at least one key line, so that the final test for two
    empty keys never fires.  It exits with 2 exactly on a flag that does not
    parse and when a goroutine of [Extract] panics, and with 1 in every
    other case in which it exits, without the header on standard output.
    It does not exit exactly when [Extract] does not return. *)
Theorem main_exit_code (args : Main.parsed) (newValidator : option Validator)
        (extract : Validator -> Process
                   -> outcome (string * string * option error)) :
  (forall validator proc keys,
      extract validator proc = Ret (keys, None) ->
      fst keys <> EmptyString \/ snd keys <> EmptyString) ->
  let called :=
    match args, newValidator with
    | Main.Flags pid, Some validator =>
        if pid =? 0 then None
        else Some (extract validator
                           {| PID := pid mod 2 ^ 32; Status := StatusOnline |})
    | _, _ => None
    end in
  let '(out, code) := Main.main args newValidator extract in
  match code with
  | Ret status =>
      (status = 0 \/ status = 1 \/ status = 2) /\
      (status = 0 <->
       args = Main.Help \/ exists keys, called = Some (Ret (keys, None))) /\
      (status = 2 <-> args = Main.BadFlag \/ called = Some Panic) /\
      ~ In Main.NoKeyLine out /\
      (status = 0 -> args <> Main.Help ->
       In Main.Header out /\
       exists key, key <> EmptyString /\
                   (In (Main.DataKeyLine key) out
                    \/ In (Main.ImgKeyLine key) out)) /\
      (status <> 0 -> ~ In Main.Header out)
  | Panic => False
  | NoFuel => called = Some NoFuel /\ out = []
  end.
Proof.
  intros Hkeys. cbv zeta. unfold Main.main.
  destruct args as [| |pid].
  - split; [auto|].
    split; [split; [discriminate | intros [H | [keys H]]; discriminate H]|].
    split; [split; auto|]. split; [intros []|].
    split; [discriminate|]. intros _ [].
  - split; [auto|]. split; [split; auto|].
    split; [split; [discriminate | intros [H | H]; discriminate H]|].
    split; [intros []|]. split; [intros _ H; contradiction H; reflexivity|].
    intros H; contradiction H; reflexivity.
  - destruct (Z.eqb_spec pid 0) as [Hpid|Hpid].
    { assert (Hnone : match newValidator with
                      | Some _ => @None (outcome (string * string * option error))
                      | None => None
                      end = None) by (destruct newValidator; reflexivity).
      rewrite Hnone.
      split; [auto|].
      split; [split; [discriminate | intros [H | [keys H]]; discriminate H]|].
      split; [split; [discriminate | intros [H | H]; discriminate H]|].
      split; [intros [H | []]; discriminate H|].
      split; [discriminate|]. intros _ [H | []]; discriminate H. }
    destruct newValidator as [validator|].
    2:{ split; [auto|].
        split; [split; [discriminate | intros [H | [keys H]]; discriminate H]|].
        split; [split; [discriminate | intros [H | H]; discriminate H]|].
        split; [intros [H | []]; discriminate H|].
        split; [discriminate|]. intros _ [H | []]; discriminate H. }
    specialize (Hkeys validator
                      {| PID := pid mod 2 ^ 32; Status := StatusOnline |}).
    destruct (extract validator
                      {| PID := pid mod 2 ^ 32; Status := StatusOnline |})
      as [[[dataKey imgKey] [e|]]| |].
    + split; [auto|].
      split; [split; [discriminate | intros [H | [keys H]]; discriminate H]|].
      split; [split; [discriminate | intros [H | H]; discriminate H]|].
      split; [intros []|].
      split; [discriminate|]. intros _ [].
    + assert (Hout : forall out,
                 out = [Main.Header]
                         ++ (if V4.filled dataKey
                             then [Main.DataKeyLine dataKey] else [])
                         ++ (if V4.filled imgKey
                             then [Main.ImgKeyLine imgKey] else []) ->
                 ~ In Main.NoKeyLine out /\ In Main.Header out).
      { intros out ->. split; [|left; reflexivity].
        destruct (V4.filled dataKey), (V4.filled imgKey); cbn;
          intuition discriminate. }
      assert (Hany : negb (V4.filled dataKey) && negb (V4.filled imgKey) = false).
      { destruct (Hkeys _ eq_refl) as [Hd | Hi]; cbn [fst snd] in *.
        - apply filled_true in Hd. now rewrite Hd.
        - apply filled_true in Hi. rewrite Hi. apply andb_false_r. }
      rewrite Hany.
      destruct (Hout _ eq_refl) as [Hno Hhead].
      split; [auto|].
      split; [split; [intros _; right; eexists; reflexivity | reflexivity]|].
      split; [split; [discriminate | intros [H | H]; discriminate H]|].
      split; [exact Hno|].
      split; [|intros H; contradiction H; reflexivity].
      intros _ _. split; [exact Hhead|].
      apply andb_false_iff in Hany as [Hd | Hi].
      * apply negb_false_iff in Hd. exists dataKey.
        split; [now apply filled_true|]. left. rewrite Hd. cbn. auto.
      * apply negb_false_iff in Hi. exists imgKey.
        split; [now apply filled_true|]. right. rewrite Hi.
        apply in_or_app. right. apply in_or_app. right. left. reflexivity.
    + split; [auto|].
      split; [split; [discriminate | intros [H | [keys H]]; discriminate H]|].
      split; [split; auto|].
      split; [intros []|].
      split; [discriminate|]. intros _ [].
    + split; reflexivity.
Qed.

Lemma main_exit_code_witness :
  let extract :=
    fun (_ : Validator) proc =>
      snd (V4.Extract (Sample.windows true [])
             [V4.Result (Scenario.keyHex, EmptyString); V4.Closed] proc) in
  Main.main (Main.Flags 4242) (Some Sample.validator) extract
  = ([Main.Header; Main.DataKeyLine Scenario.keyHex], Ret 0) /\
  let '(out, code) :=
    Main.main (Main.Flags 4242) (Some Sample.validator) extract in
  match code with
  | Ret status => ~ In Main.NoKeyLine out
  | _ => False
  end.
Proof.
  intros extract.
  split; [vm_compute; reflexivity|].
  pose proof (main_exit_code (Main.Flags 4242) (Some Sample.validator) extract
                (fun _ proc keys =>
                   v4_extract_returns_a_key _ _ proc keys)) as H.
  cbv zeta in H.
  destruct (Main.main (Main.Flags 4242) (Some Sample.validator) extract)
    as [out [status| |]]; [|exact H | destruct H as [H _]; discriminate H].
  exact (proj1 (proj2 (proj2 (proj2 H)))).
Defined.

(** ** The V4 worker that calls [SearchKey] *)

Lemma keeps_refl (s : string * string) : keeps s s.
Proof. split; reflexivity. Qed.

Lemma keeps_trans (a b c : string * string) :
  keeps a b -> keeps b c -> keeps a c.
Proof.
  intros [Hab1 Hab2] [Hbc1 Hbc2]. split; intros Hf.
  - rewrite <- (Hab1 Hf). apply Hbc1. now rewrite (Hab1 Hf).
  - rewrite <- (Hab2 Hf). apply Hbc2. now rewrite (Hab2 Hf).
Qed.

Lemma decoded_nonempty (key : string) (keyData : list byte) :
  hexdec.DecodeString key = Some keyData -> 0 < len keyData ->
  V4.filled key = true.
Proof.
  intros Hdec Hlen. apply filled_true. intros ->.
  cbn in Hdec. injection Hdec as <-. unfold len in Hlen. cbn in Hlen. lia.
Qed.

Lemma len_firstn_16 (keyData : list byte) :
  len keyData = 32 -> len (firstn 16 keyData) = 16.
Proof. unfold len. rewrite length_firstn. lia. Qed.

Lemma classify_sets (v : Validator) (key : string) (keyData : list byte)
      (slots slots' : string * string) :
  hexdec.DecodeString key = Some keyData ->
  V4Worker.classify v key keyData slots = Some slots' ->
  keeps slots slots' /\
  keyCount slots' = S (keyCount slots) /\
  (slotsOK v slots -> slotsOK v slots').
Proof.
  intros Hdec. unfold V4Worker.classify.
  assert (Hunset : forall k, String.eqb k EmptyString = true ->
                             V4.filled k = false)
    by (intros k Hk; unfold V4.filled; now rewrite Hk).
  destruct ((len keyData =? 32) && Validate v keyData) eqn:Hdata.
  { apply andb_prop in Hdata as [Hlen Hval]. apply Z.eqb_eq in Hlen.
    destruct (String.eqb (fst slots) EmptyString) eqn:Hempty; [|discriminate].
    intros H; injection H as <-. apply Hunset in Hempty.
    assert (Hfilled : V4.filled key = true)
      by (eapply decoded_nonempty; [eassumption | lia]).
    split; [|split].
    - split; cbn [fst snd]; intros Hf; [congruence | reflexivity].
    - unfold keyCount. cbn [fst snd]. rewrite Hempty, Hfilled. reflexivity.
    - intros [_ Hi]. split; cbn [fst snd]; [|exact Hi].
      right. exists keyData. auto. }
  destruct ((len keyData =? 16) && ValidateImgKey v keyData) eqn:Himg.
  { apply andb_prop in Himg as [Hlen Hval]. apply Z.eqb_eq in Hlen.
    destruct (String.eqb (snd slots) EmptyString) eqn:Hempty; [|discriminate].
    intros H; injection H as <-. apply Hunset in Hempty.
    assert (Hfilled : V4.filled key = true)
      by (eapply decoded_nonempty; [eassumption | lia]).
    split; [|split].
    - split; cbn [fst snd]; intros Hf; [reflexivity | congruence].
    - unfold keyCount. cbn [fst snd]. rewrite Hempty, Hfilled. lia.
    - intros [Hd _]. split; cbn [fst snd]; [exact Hd|].
      right. exists keyData. auto. }
  destruct ((len keyData =? 32) && ValidateImgKey v keyData) eqn:Himg32;
    [|discriminate].
  apply andb_prop in Himg32 as [Hlen Hval]. apply Z.eqb_eq in Hlen.
  destruct (String.eqb (snd slots) EmptyString) eqn:Hempty; [|discriminate].
  intros H; injection H as <-. apply Hunset in Hempty.
  pose proof (hex_decode_prefix keyData key 16 Hdec) as Hprefix.
  change (2 * 16)%nat with 32%nat in Hprefix.
  assert (Hfilled : V4.filled (substring 0 32 key) = true).
  { eapply decoded_nonempty; [eassumption|].
    rewrite len_firstn_16; [lia | exact Hlen]. }
  split; [|split].
  - split; cbn [fst snd]; intros Hf; [reflexivity | congruence].
  - unfold keyCount. cbn [fst snd]. rewrite Hempty, Hfilled. lia.
  - intros [Hd _]. split; cbn [fst snd]; [exact Hd|].
    right. exists (firstn 16 keyData).
    split; [exact Hprefix|]. split; [now apply len_firstn_16|].
    right. exists keyData. auto.
Qed.

Section V4WorkerRuns.

Variables (strats : list SearchStrategy) (v : Validator) (fuel : nat)
          (ready : bool).

(** A property of all runs of the worker, by cases on how a run goes. *)
Variable P : string * string -> list (string * string)
             -> outcome (string * string * V4Worker.exit) -> Prop.

Hypothesis P_stop : forall slots how, P slots [] (Ret (slots, how)).
Hypothesis P_last :
  forall slots,
    V4.filled (fst slots) || V4.filled (snd slots) = true ->
    P slots [slots] (Ret (slots, V4Worker.ChannelClosed)).
Hypothesis P_panic : forall slots, P slots [] Panic.
Hypothesis P_fuel : forall slots, P slots [] NoFuel.
Hypothesis P_unsent :
  forall slots key keyData slots',
    hexdec.DecodeString key = Some keyData ->
    V4Worker.classify v key keyData slots = Some slots' ->
    P slots [] (Ret (slots', V4Worker.CtxCancelled)).
Hypothesis P_both :
  forall slots key keyData slots',
    hexdec.DecodeString key = Some keyData ->
    V4Worker.classify v key keyData slots = Some slots' ->
    V4Worker.both slots' = true ->
    P slots [slots'] (Ret (slots', V4Worker.BothFound)).
Hypothesis P_send :
  forall slots key keyData slots' sent r,
    hexdec.DecodeString key = Some keyData ->
    V4Worker.classify v key keyData slots = Some slots' ->
    V4Worker.both slots' = false ->
    P slots' sent r -> P slots (slots' :: sent) r.

Lemma worker_runs (chunks : list (list byte * list SearchStrategy)) :
  forall ctx slots,
    P slots (fst (V4Worker.worker strats v fuel ctx ready chunks slots))
      (snd (V4Worker.worker strats v fuel ctx ready chunks slots)).
Proof.
  induction chunks as [|[memory arrival] rest IH]; intros ctx slots;
    cbn [V4Worker.worker].
  - destruct (Done ctx) as [[|] c]; cbn [fst snd]; [apply P_stop|].
    destruct (V4.filled (fst slots) || V4.filled (snd slots)) eqn:Hany;
      cbn [andb]; [|apply P_stop].
    destruct ready; [now apply P_last | apply P_stop].
  - destruct (Done ctx) as [[|] c]; cbn [fst snd]; [apply P_stop|].
    destruct (Done c) as [[|] c1]; cbn [fst snd]; [apply P_stop|].
    destruct (SearchKey _ fuel c1 memory arrival) as [[key [|]]| |];
      cbn [fst snd]; try apply IH; [|apply P_panic | apply P_fuel].
    destruct (hexdec.DecodeString key) as [keyData|] eqn:Hdec; [|apply IH].
    destruct (V4Worker.classify v key keyData slots) as [slots'|] eqn:Hcls.
    + destruct (Done c1) as [[|] c2]; cbn [fst snd];
        [eapply P_unsent; eassumption|].
      destruct (V4Worker.both slots') eqn:Hboth; cbn [fst snd];
        [eapply P_both; eassumption|].
      specialize (IH c2 slots').
      destruct (V4Worker.worker strats v fuel c2 ready rest slots')
        as [sent r]. cbn [fst snd] in *.
      eapply P_send; eassumption.
    + destruct (V4Worker.both slots); cbn [fst snd]; [apply P_stop | apply IH].
Qed.

End V4WorkerRuns.

(** The worker fills each of its two slots at most once: every pair it
    sends, and the pair it ends with, still holds the keys of the pair it
    started with and of every pair it sent before. *)
Theorem v4_worker_never_replaces_key (strats : list SearchStrategy)
        (v : Validator) (fuel : nat) (ctx : Ctx) (ready : bool)
        (chunks : list (list byte * list SearchStrategy))
        (slots : string * string) :
  let sent := fst (V4Worker.worker strats v fuel ctx ready chunks slots) in
  let res := snd (V4Worker.worker strats v fuel ctx ready chunks slots) in
  Forall (keeps slots) sent /\
  ForallOrdPairs keeps sent /\
  forall final how,
    res = Ret (final, how) ->
    keeps slots final /\ Forall (fun s => keeps s final) sent.
Proof.
  cbv zeta.
  apply (worker_runs strats v fuel ready
           (fun slots sent res =>
              Forall (keeps slots) sent /\
              ForallOrdPairs keeps sent /\
              forall final how,
                res = Ret (final, how) ->
                keeps slots final /\ Forall (fun s => keeps s final) sent)).
  - intros s how. split; [apply Forall_nil|]. split; [apply FOP_nil|].
    intros final how' H; injection H as <- _.
    split; [apply keeps_refl | apply Forall_nil].
  - intros s _.
    assert (Hone : Forall (keeps s) [s])
      by (apply Forall_cons; [apply keeps_refl | apply Forall_nil]).
    split; [exact Hone|].
    split; [apply FOP_cons; [apply Forall_nil | apply FOP_nil]|].
    intros final how' H; injection H as <- _.
    split; [apply keeps_refl|].
    apply Forall_cons; [apply keeps_refl | apply Forall_nil].
  - intros s. split; [apply Forall_nil|]. split; [apply FOP_nil|].
    intros final how' H; discriminate H.
  - intros s. split; [apply Forall_nil|]. split; [apply FOP_nil|].
    intros final how' H; discriminate H.
  - intros s key keyData s' Hdec Hcls.
    destruct (classify_sets v key keyData s s' Hdec Hcls) as (Hk & _).
    split; [apply Forall_nil|]. split; [apply FOP_nil|].
    intros final how' H; injection H as <- _.
    split; [exact Hk | apply Forall_nil].
  - intros s key keyData s' Hdec Hcls _.
    destruct (classify_sets v key keyData s s' Hdec Hcls) as (Hk & _).
    split; [apply Forall_cons; [exact Hk | apply Forall_nil]|].
    split; [apply FOP_cons; [apply Forall_nil | apply FOP_nil]|].
    intros final how' H; injection H as <- _.
    split; [exact Hk|].
    apply Forall_cons; [apply keeps_refl | apply Forall_nil].
  - intros s key keyData s' sent r Hdec Hcls _ (Hall & Hord & Hfinal).
    destruct (classify_sets v key keyData s s' Hdec Hcls) as (Hk & _).
    split; [|split].
    + apply Forall_cons; [exact Hk|].
      eapply Forall_impl; [|exact Hall]. intros a. now apply keeps_trans.
    + apply FOP_cons; assumption.
    + intros final how Hr. destruct (Hfinal final how Hr) as [Hkf Hsf].
      split; [eapply keeps_trans; eassumption|].
      apply Forall_cons; assumption.
Qed.

Lemma keyCount_both (slots : string * string) :
  V4Worker.both slots = false -> (keyCount slots <= 1)%nat.
Proof.
  unfold V4Worker.both, keyCount.
  destruct (V4.filled (fst slots)), (V4.filled (snd slots)); cbn;
    intros H; try discriminate H; lia.
Qed.

(** A worker that starts without keys sends at most two pairs, and every
    pair it sends holds at least one key. *)
Theorem v4_worker_sends_at_most_twice (strats : list SearchStrategy)
        (v : Validator) (fuel : nat) (ctx : Ctx) (ready : bool)
        (chunks : list (list byte * list SearchStrategy)) :
  let sent :=
    fst (V4Worker.worker strats v fuel ctx ready chunks V4.keys_empty) in
  (List.length sent <= 2)%nat /\
  Forall (fun s => fst s <> EmptyString \/ snd s <> EmptyString) sent.
Proof.
  cbv zeta.
  assert (Hany : forall s, (1 <= keyCount s)%nat ->
                           fst s <> EmptyString \/ snd s <> EmptyString).
  { intros s. unfold keyCount.
    destruct (V4.filled (fst s)) eqn:Hd; [left; now apply filled_true|].
    destruct (V4.filled (snd s)) eqn:Hi; [right; now apply filled_true|].
    cbn; lia. }
  pose proof (worker_runs strats v fuel ready
                (fun slots sent _ =>
                   (List.length sent
                    <= if (keyCount slots =? 0)%nat then 2 else 1)%nat /\
                   Forall (fun s => (1 <= keyCount s)%nat) sent)) as Hruns.
  destruct (Hruns) with (chunks := chunks) (ctx := ctx) (slots := V4.keys_empty)
    as [Hlen Hkeys].
  - intros s how. split; [destruct (keyCount s =? 0)%nat; cbn; lia | constructor].
  - intros s Hf. split; [destruct (keyCount s =? 0)%nat; cbn; lia|].
    repeat constructor. unfold keyCount.
    destruct (V4.filled (fst s)), (V4.filled (snd s)); cbn in *;
      try discriminate Hf; lia.
  - intros s. split; [destruct (keyCount s =? 0)%nat; cbn; lia | constructor].
  - intros s. split; [destruct (keyCount s =? 0)%nat; cbn; lia | constructor].
  - intros s key keyData s' _ _.
    split; [destruct (keyCount s =? 0)%nat; cbn; lia | constructor].
  - intros s key keyData s' Hdec Hcls _.
    destruct (classify_sets v key keyData s s' Hdec Hcls) as (_ & Hcount & _).
    split; [destruct (keyCount s =? 0)%nat; cbn; lia|].
    repeat constructor. lia.
  - intros s key keyData s' sent r Hdec Hcls Hboth [Hlen Hkeys].
    destruct (classify_sets v key keyData s s' Hdec Hcls) as (_ & Hcount & _).
    apply keyCount_both in Hboth.
    assert (Hzero : keyCount s = 0%nat) by lia.
    rewrite Hzero. rewrite Hcount, Hzero in Hlen. cbn in Hlen |- *.
    split; [lia|]. constructor; [lia | exact Hkeys].
  - split; [exact Hlen|].
    eapply Forall_impl; [|exact Hkeys]. exact Hany.
Qed.

(** The keys of a worker are validated keys in their external form: a data
    key decodes to 32 bytes that [Validate] accepts; an image key decodes to
    16 bytes, which [ValidateImgKey] accepts or which are the first half of
    32 bytes that it accepts. *)
Theorem v4_worker_keys_are_validated (strats : list SearchStrategy)
        (v : Validator) (fuel : nat) (ctx : Ctx) (ready : bool)
        (chunks : list (list byte * list SearchStrategy)) :
  let sent :=
    fst (V4Worker.worker strats v fuel ctx ready chunks V4.keys_empty) in
  let res :=
    snd (V4Worker.worker strats v fuel ctx ready chunks V4.keys_empty) in
  Forall (slotsOK v) sent /\
  forall final how, res = Ret (final, how) -> slotsOK v final.
Proof.
  cbv zeta.
  pose proof (worker_runs strats v fuel ready
                (fun slots sent res =>
                   slotsOK v slots ->
                   Forall (slotsOK v) sent /\
                   forall final how,
                     res = Ret (final, how) -> slotsOK v final)) as Hruns.
  apply Hruns with (chunks := chunks) (ctx := ctx) (slots := V4.keys_empty);
    clear Hruns; cbv beta.
  - intros s how Hok. split; [apply Forall_nil|].
    intros final how' H; injection H as <- _; exact Hok.
  - intros s _ Hok.
    split; [apply Forall_cons; [exact Hok | apply Forall_nil]|].
    intros final how' H; injection H as <- _; exact Hok.
  - intros s _. split; [apply Forall_nil | discriminate].
  - intros s _. split; [apply Forall_nil | discriminate].
  - intros s key keyData s' Hdec Hcls Hok.
    destruct (classify_sets v key keyData s s' Hdec Hcls) as (_ & _ & Hok').
    split; [apply Forall_nil|].
    intros final how' H; injection H as <- _; auto.
  - intros s key keyData s' Hdec Hcls _ Hok.
    destruct (classify_sets v key keyData s s' Hdec Hcls) as (_ & _ & Hok').
    split; [apply Forall_cons; [auto | apply Forall_nil]|].
    intros final how' H; injection H as <- _; auto.
  - intros s key keyData s' sent r Hdec Hcls _ IH Hok.
    destruct (classify_sets v key keyData s s' Hdec Hcls) as (_ & _ & Hok').
    destruct (IH (Hok' Hok)) as [Hall Hfinal].
    split; [apply Forall_cons; auto | exact Hfinal].
  - split; left; reflexivity.
Qed.

(** ** The V4 worker that reads through pointers *)

Lemma readsOnce_stop (known : list Z) (known' : option (list Z)) :
  (forall later, known' = Some later -> incl known later) ->
  readsOnce known [] known'.
Proof.
  intros Hincl. split; [constructor|]. split; [intros a []|].
  intros later Hlater a [Ha | []]. exact (Hincl later Hlater a Ha).
Qed.

Lemma readsOnce_read (known reads : list Z) (known' : option (list Z)) (p : Z) :
  ~ In p known -> 0x10000 < p < 0x7FFFFFFFFFFF ->
  readsOnce (p :: known) reads known' ->
  readsOnce known (p :: reads) known'.
Proof.
  intros Hnew Hrange (Hnodup & Hreads & Hlater). split; [|split].
  - constructor; [|exact Hnodup].
    intros Hin. apply Hreads in Hin as [Hnot _]. apply Hnot. left; reflexivity.
  - intros a [<- | Ha]; [split; assumption|].
    apply Hreads in Ha as [Hnot Hr]. split; [|exact Hr].
    intros Hk. apply Hnot. right; exact Hk.
  - intros later Heq a Ha. apply (Hlater later Heq).
    destruct Ha as [Ha | [<- | Ha]]; [left; right | left; left | right]; auto.
Qed.

Lemma readsOnce_seq (known mid r1 r2 : list Z) (known' : option (list Z)) :
  readsOnce known r1 (Some mid) -> readsOnce mid r2 known' ->
  readsOnce known (r1 ++ r2) known'.
Proof.
  intros (Hn1 & Hr1 & Hl1) (Hn2 & Hr2 & Hl2).
  specialize (Hl1 mid eq_refl). split; [|split].
  - apply NoDup_app; auto.
    intros a Ha1 Ha2. apply Hr2 in Ha2 as [Hnot _]. apply Hnot, Hl1. auto.
  - intros a Ha. apply in_app_iff in Ha as [Ha | Ha]; [now apply Hr1|].
    apply Hr2 in Ha as [Hnot Hr]. split; [|exact Hr].
    intros Hk. apply Hnot, Hl1. auto.
  - intros later Heq a Ha. apply (Hl2 later Heq).
    destruct Ha as [Ha | Ha]; [left; apply Hl1; auto|].
    apply in_app_iff in Ha as [Ha | Ha]; [left; apply Hl1 | right]; auto.
Qed.

Lemma run_reading {A} (evs : list event) (r : V4Old.run A) :
  fst (fst (V4Old.reading evs r)) = evs ++ fst (fst r) /\
  snd (V4Old.reading evs r) = snd r.
Proof. destruct r as [[trace sent] res]. split; reflexivity. Qed.

Lemma run_sending {A} (s : string * string) (r : V4Old.run A) :
  fst (fst (V4Old.sending s r)) = fst (fst r) /\
  snd (V4Old.sending s r) = snd r.
Proof. destruct r as [[trace sent] res]. split; reflexivity. Qed.

Lemma store_keeps_found (st st' : V4Old.local) (key : string) (isImgKey : bool) :
  V4Old.store st key isImgKey = Some st' ->
  V4Old.keysFound st' = V4Old.keysFound st.
Proof.
  unfold V4Old.store.
  destruct isImgKey; destruct (String.eqb _ _); try discriminate;
    intros H; injection H as <-; reflexivity.
Qed.

Section V4OldReads.

Variables (w : Windows) (v : Validator) (handle : Handle).

Lemma old_scanChunk_reads (memory : list byte) (fuel : nat) :
  forall ctx st index,
    let r := V4Old.scanChunk fuel w v handle memory ctx st index in
    readsOnce (V4Old.keysFound st) (V4Old.readsOf (fst (fst r)))
              (foundAfterScan (snd r)).
Proof.
  induction fuel as [|fuel IH]; intros ctx st index; cbv zeta;
    cbn [V4Old.scanChunk].
  { apply readsOnce_stop. discriminate. }
  assert (Hstay : forall s c how,
             V4Old.keysFound s = V4Old.keysFound st ->
             readsOnce (V4Old.keysFound st) []
                       (foundAfterScan (Ret (s, c, how)))).
  { intros s c how Hs. apply readsOnce_stop. intros later H.
    injection H as <-. rewrite Hs. apply incl_refl. }
  assert (Hfail : forall res, foundAfterScan res = None ->
                              readsOnce (V4Old.keysFound st) [] (foundAfterScan res)).
  { intros res Hres. apply readsOnce_stop. rewrite Hres. discriminate. }
  destruct (Done ctx) as [[|] c]; [now apply Hstay|].
  destruct (slice memory 0 index) as [head| |]; try (now apply Hfail).
  destruct (_ || _); [now apply Hstay|].
  destruct (bind _ _) as [ptrValue| |]; try (now apply Hfail).
  destruct (Z.gtb_spec ptrValue 0x10000) as [Hlo|Hlo]; cbn [andb]; [|apply IH].
  destruct (Z.ltb_spec ptrValue 0x7FFFFFFFFFFF) as [Hhi|Hhi]; [|apply IH].
  destruct (V4Old.seen st ptrValue) eqn:Hseen; [apply IH|].
  assert (Hnew : ~ In ptrValue (V4Old.keysFound st)).
  { intros Hin. unfold V4Old.seen in Hseen.
    assert (Hex : existsb (Z.eqb ptrValue) (V4Old.keysFound st) = true)
      by (apply existsb_exists; exists ptrValue; split; [exact Hin | apply Z.eqb_refl]).
    congruence. }
  unfold V4Old.validateKey. cbv beta iota.
  match goal with
  | |- readsOnce _ (V4Old.readsOf (fst (fst (V4Old.reading ?evs ?r)))) _ =>
      destruct (run_reading evs r) as [-> ->]
  end.
  cbn [app V4Old.readsOf].
  apply readsOnce_read; [exact Hnew | lia |].
  change (ptrValue :: V4Old.keysFound st)
    with (V4Old.keysFound (V4Old.mark st ptrValue)).
  assert (Hstay' : forall s c how,
             V4Old.keysFound s = V4Old.keysFound (V4Old.mark st ptrValue) ->
             readsOnce (V4Old.keysFound (V4Old.mark st ptrValue)) []
                       (foundAfterScan (Ret (s, c, how)))).
  { intros s c0 how Hs. apply readsOnce_stop. intros later H.
    injection H as <-. rewrite Hs. apply incl_refl. }
  assert (Hfail' : forall res, foundAfterScan res = None ->
             readsOnce (V4Old.keysFound (V4Old.mark st ptrValue)) []
                       (foundAfterScan res)).
  { intros res Hres. apply readsOnce_stop. rewrite Hres. discriminate. }
  destruct (match readBuffer w handle ptrValue 32 with
            | Some keyData => _
            | None => _
            end) as [[key isImgKey]| |]; try (now apply Hfail').
  destruct (negb (String.eqb key EmptyString)); [|apply IH].
  destruct (V4Old.store (V4Old.mark st ptrValue) key isImgKey) as [st'|] eqn:Hstore.
  - apply store_keeps_found in Hstore.
    destruct (Done c) as [[|] c']; [now apply Hstay'|].
    match goal with
    | |- readsOnce _ (V4Old.readsOf (fst (fst (V4Old.sending ?s ?r)))) _ =>
        destruct (run_sending s r) as [-> ->]
    end.
    destruct (V4Worker.both (V4Old.pair_of st')); [now apply Hstay'|].
    rewrite <- Hstore. apply IH.
  - destruct (V4Worker.both _); [now apply Hstay' | apply IH].
Qed.

Lemma old_worker_reads (chunks : list (list byte)) :
  forall ctx ready st,
    let r := V4Old.worker w v handle ctx ready chunks st in
    readsOnce (V4Old.keysFound st) (V4Old.readsOf (fst (fst r)))
              (foundAfterWorker (snd r)).
Proof.
  assert (Happ : forall t1 t2,
             V4Old.readsOf (t1 ++ t2) = V4Old.readsOf t1 ++ V4Old.readsOf t2).
  { induction t1 as [|ev t1 IHt]; intros t2; [reflexivity|].
    destruct ev; cbn [app V4Old.readsOf]; rewrite IHt; reflexivity. }
  induction chunks as [|memory rest IH]; intros ctx ready st; cbv zeta;
    cbn [V4Old.worker].
  - destruct (Done ctx) as [[|] c];
      [apply readsOnce_stop; intros later H; injection H as <-; apply incl_refl|].
    destruct (_ && ready); cbn;
      apply readsOnce_stop; intros later H; injection H as <-; apply incl_refl.
  - destruct (Done ctx) as [[|] c];
      [apply readsOnce_stop; intros later H; injection H as <-; apply incl_refl|].
    pose proof (old_scanChunk_reads memory (S (List.length memory)) c st
                                    (len memory)) as Hscan.
    cbv zeta in Hscan.
    destruct (V4Old.scanChunk (S (List.length memory)) w v handle memory c st
                              (len memory)) as [[trace sent] res].
    cbn [fst snd] in Hscan.
    destruct res as [[[st' c'] how]| |]; cbn [fst snd];
      try (destruct Hscan as (Hn & Hr & _);
           split; [exact Hn|]; split; [exact Hr | discriminate]).
    destruct how; cbn [fst snd]; try exact Hscan.
    specialize (IH c' ready st'). cbv zeta in IH.
    destruct (V4Old.worker w v handle c' ready rest st') as [[trace' sent'] res'].
    cbn [fst snd] in *. rewrite Happ.
    eapply readsOnce_seq; eassumption.
Qed.

End V4OldReads.

(** A worker of the pointer-reading V4 extractor hands no address to
    [ReadProcessMemory] twice, over all the chunks it scans, and every
    address it reads lies strictly between 0x10000 and 0x7FFF'FFFF'FFFF. *)
Theorem v4_pointer_worker_reads_once (w : Windows) (v : Validator)
        (handle : Handle) (ctx : Ctx) (ready : bool)
        (chunks : list (list byte)) :
  let trace :=
    fst (fst (V4Old.worker w v handle ctx ready chunks V4Old.fresh)) in
  NoDup (V4Old.readsOf trace) /\
  forall addr, In addr (V4Old.readsOf trace) -> 0x10000 < addr < 0x7FFFFFFFFFFF.
Proof.
  cbv zeta.
  destruct (old_worker_reads w v handle chunks ctx ready V4Old.fresh)
    as (Hnodup & Hreads & _).
  split; [exact Hnodup|]. intros addr Hin. now apply Hreads.
Qed.
